(** * Recency labels on Todoist tasks

    A shallow embedding of the three programs of the repository:

    - [Webhook]    (webhook/main.ts): the HTTP service that adds the
      "recently created" / "recently updated" label when an event arrives;
    - [Maintainer] (the cleanup-only [main]): the periodic job that removes
      stale recency labels;
    - [Labeler]    (the add-and-remove [main]): the periodic job that both
      adds and removes recency labels.

    The Todoist REST client is the only effect.  It is modelled as a state
    and error monad over a [World]: the store's labels and tasks, a schedule
    of remote failures, and the list of requests sent so far.  Console output
    and the 50 ms pause between writes are not modelled. *)

From Stdlib Require Import String List ZArith Bool Lia Permutation DecimalString.
From Stdlib Require Import Sorted.
Import ListNotations.
Local Open Scope string_scope.
Local Open Scope Z_scope.
Local Open Scope list_scope.

(* ================================================================= *)
(** ** JavaScript values used by the programs *)

Module JS.

(** Truthiness of a [string | null | undefined]: absent and the empty string are falsy. *)
Definition truthy (s : option string) : bool :=
  match s with
  | Some s => negb (s =? EmptyString)%string
  | None => false
  end.

(** [a || b] where both sides are optional strings. *)
Definition or_opt (a b : option string) : option string :=
  if truthy a then a else b.

(** [a || d] where [d] is a string literal. *)
Definition or_str (a : option string) (d : string) : string :=
  match a with
  | Some s => if (s =? EmptyString)%string then d else s
  | None => d
  end.

(** [l.includes(x)] *)
Definition includes (l : list string) (x : string) : bool :=
  existsb (String.eqb x) l.

Fixpoint indexOf_from (l : list string) (x : string) (i : Z) : Z :=
  match l with
  | [] => -1
  | y :: l' => if (y =? x)%string then i else indexOf_from l' x (i + 1)
  end.

(** [l.indexOf(x)]: the first position of [x], or [-1]. *)
Definition indexOf (l : list string) (x : string) : Z := indexOf_from l x 0.

(** [l.splice(start, 1)]: a negative [start] counts from the end. *)
Definition splice1 (l : list string) (start : Z) : list string :=
  let len := Z.of_nat (length l) in
  let k := if start <? 0 then Z.max (len + start) 0 else Z.min start len in
  firstn (Z.to_nat k) l ++ skipn (S (Z.to_nat k)) l.

(** [l.push(x)] *)
Definition push (l : list string) (x : string) : list string := l ++ [x].

Fixpoint insert (x : string) (l : list string) : list string :=
  match l with
  | [] => [x]
  | y :: l' => if (x <=? y)%string then x :: l else y :: insert x l'
  end.

(** [l.sort()] with the default comparison: strings in code-unit order.
    A character of a Rocq string stands for one code unit. *)
Definition sort (l : list string) : list string := fold_right insert [] l.

Fixpoint array_eqb (a b : list string) : bool :=
  match a, b with
  | [], [] => true
  | x :: a', y :: b' => (x =? y)%string && array_eqb a' b'
  | _, _ => false
  end.

(** [JSON.stringify(a) !== JSON.stringify(b)] on arrays of strings: the
    encoding is injective, so the texts differ iff the arrays do. *)
Definition stringify_neq (a b : list string) : bool := negb (array_eqb a b).

(** A [Date]: its time value in milliseconds, [None] for an Invalid Date. *)
Definition Date := option Z.

(** [a >= b] on dates: false as soon as one side is invalid (NaN). *)
Definition Date_ge (a b : Date) : bool :=
  match a, b with
  | Some x, Some y => y <=? x
  | _, _ => false
  end.

(** [a.getTime() !== b.getTime()]: NaN differs from everything. *)
Definition getTime_neq (a b : Date) : bool :=
  match a, b with
  | Some x, Some y => negb (x =? y)
  | _, _ => true
  end.

End JS.

(* ================================================================= *)
(** ** Data of the Todoist client *)

Module Label.
Record t := mk { id : string; name : string }.
End Label.

Module Task.
Record t := mk {
  id : string;
  content : string;
  addedAt : option string;
  updatedAt : option string;
  labels : list string
}.
End Task.

(** A JS [Map<string, Task>]: iteration follows first insertion, and [set]
    on a key already present replaces the value where it stands. *)
Module TaskMap.
Definition t := list (string * Task.t).

Definition empty : t := [].

Fixpoint set (m : t) (k : string) (v : Task.t) : t :=
  match m with
  | [] => [(k, v)]
  | (k', v') :: m' =>
      if (k' =? k)%string then (k, v) :: m' else (k', v') :: set m' k v
  end.

Definition values (m : t) : list Task.t := map snd m.

Definition size (m : t) : nat := length m.

(** [tasks.forEach(task => m.set(task.id, task))] *)
Definition set_all (m : t) (tasks : list Task.t) : t :=
  fold_left (fun m task => set m (Task.id task) task) tasks m.
End TaskMap.

(** Configuration constants, the same in the three programs. *)
Definition RECENTLY_CREATED_LABEL : string := "recently created".
Definition RECENTLY_UPDATED_LABEL : string := "recently updated".
Definition RECENT_THRESHOLD_HOURS : Z := 24.

(* ================================================================= *)
(** ** The remote store and the client calls *)

Inductive Call :=
| GetLabels
| AddLabel (name : string)
| GetTasks (label : string)
| GetTasksByFilter (query : string)
| GetTask (id : string)
| UpdateTask (id : string) (labels : list string).

Inductive Error :=
| ApiError (c : Call)
| ClientNotInitialized
| TypeError.

Inductive Result (A : Type) :=
| Ok (a : A)
| Throw (e : Error).
Arguments Ok {A} a.
Arguments Throw {A} e.

(** The store as the client sees it.  [faults] is the schedule of remote
    failures: each request consumes its head, and fails when it is [true];
    an exhausted schedule means no more failures.  [store_filter] is the
    store's own evaluation of a filter query on a task.  [calls] lists the
    requests sent, oldest first. *)
Record World := mkWorld {
  store_labels : list Label.t;
  store_tasks : list Task.t;
  store_filter : string -> Task.t -> bool;
  faults : list bool;
  calls : list Call
}.

Definition M (A : Type) : Type := World -> Result A * World.

Definition ret {A} (a : A) : M A := fun w => (Ok a, w).

Definition bind {A B} (m : M A) (k : A -> M B) : M B :=
  fun w =>
    match m w with
    | (Ok a, w') => k a w'
    | (Throw e, w') => (Throw e, w')
    end.

Definition throw {A} (e : Error) : M A := fun w => (Throw e, w).

(** [try { m } catch (error) { h error }] *)
Definition try_catch {A} (m : M A) (h : Error -> M A) : M A :=
  fun w =>
    match m w with
    | (Ok a, w') => (Ok a, w')
    | (Throw e, w') => h e w'
    end.

Notation "x <- m ;; k" := (bind m (fun x => k))
  (at level 61, m at next level, right associativity).
Notation "m ;;; k" := (bind m (fun _ => k))
  (at level 61, right associativity).

(** [for (const x of l) { s = body x s }] *)
Fixpoint for_of {A S} (body : A -> S -> M S) (l : list A) (s : S) : M S :=
  match l with
  | [] => ret s
  | x :: l' => s' <- body x s ;; for_of body l' s'
  end.

Module Api.

Definition sent (c : Call) (w : World) : World :=
  {| store_labels := store_labels w;
     store_tasks := store_tasks w;
     store_filter := store_filter w;
     faults := tl (faults w);
     calls := calls w ++ [c] |}.

(** One request: it is recorded, it consumes one entry of the failure
    schedule, and it is served by the store unless that entry says it fails. *)
Definition request {A} (c : Call) (serve : M A) : M A :=
  fun w =>
    if hd false (faults w) then (Throw (ApiError c), sent c w)
    else serve (sent c w).

Definition with_labels (ls : list Label.t) (w : World) : World :=
  {| store_labels := ls;
     store_tasks := store_tasks w;
     store_filter := store_filter w;
     faults := faults w;
     calls := calls w |}.

Definition with_tasks (ts : list Task.t) (w : World) : World :=
  {| store_labels := store_labels w;
     store_tasks := ts;
     store_filter := store_filter w;
     faults := faults w;
     calls := calls w |}.

Definition fresh_id (w : World) : string :=
  NilEmpty.string_of_uint (Nat.to_uint (length (store_labels w))).

Definition set_labels (ls : list string) (task : Task.t) : Task.t :=
  Task.mk (Task.id task) (Task.content task) (Task.addedAt task)
          (Task.updatedAt task) ls.

(** [(await api.getLabels()).results] *)
Definition getLabels : M (list Label.t) :=
  request GetLabels (fun w => (Ok (store_labels w), w)).

(** [api.addLabel({ name })] *)
Definition addLabel (name : string) : M Label.t :=
  request (AddLabel name)
    (fun w =>
       let label := Label.mk (fresh_id w) name in
       (Ok label, with_labels (store_labels w ++ [label]) w)).

(** [(await api.getTasks({ label })).results] *)
Definition getTasks (label : string) : M (list Task.t) :=
  request (GetTasks label)
    (fun w =>
       (Ok (filter (fun task => JS.includes (Task.labels task) label)
                   (store_tasks w)), w)).

(** [(await api.getTasksByFilter({ query })).results] *)
Definition getTasksByFilter (query : string) : M (list Task.t) :=
  request (GetTasksByFilter query)
    (fun w => (Ok (filter (store_filter w query) (store_tasks w)), w)).

Definition find_task (id : string) (tasks : list Task.t) : option Task.t :=
  find (fun task => (Task.id task =? id)%string) tasks.
Arguments find_task : simpl never.

(** The store's record of task [id] gets the label list [labels]. *)
Fixpoint replace_labels (id : string) (labels : list string)
    (tasks : list Task.t) : list Task.t :=
  match tasks with
  | [] => []
  | task :: tasks' =>
      if (Task.id task =? id)%string then set_labels labels task :: tasks'
      else task :: replace_labels id labels tasks'
  end.

(** [api.getTask(id)]: fails when the store has no such task. *)
Definition getTask (id : string) : M Task.t :=
  request (GetTask id)
    (fun w =>
       match find_task id (store_tasks w) with
       | Some task => (Ok task, w)
       | None => (Throw (ApiError (GetTask id)), w)
       end).

(** [api.updateTask(id, { labels })]: replaces the label list of the task. *)
Definition updateTask (id : string) (labels : list string) : M Task.t :=
  request (UpdateTask id labels)
    (fun w =>
       match find_task id (store_tasks w) with
       | Some task =>
           (Ok (set_labels labels task),
            with_tasks (replace_labels id labels (store_tasks w)) w)
       | None => (Throw (ApiError (UpdateTask id labels)), w)
       end).

End Api.

(** [new Date(s)] for a string [s].  The parser of date strings is a
    parameter; the empty string always gives an Invalid Date. *)
Definition new_Date (Date_parse : string -> JS.Date) (s : string) : JS.Date :=
  if (s =? EmptyString)%string then None else Date_parse s.

(** [new Date(now.getTime() - RECENT_THRESHOLD_HOURS * 60 * 60 * 1000)],
    with [now] the time value of the clock in milliseconds. *)
Definition recentThreshold (now : Z) : JS.Date :=
  Some (now - RECENT_THRESHOLD_HOURS * 60 * 60 * 1000).

(** How a periodic job ends: [main] returns, or calls [Deno.exit]. *)
Inductive Exit :=
| Returned
| DenoExit (code : Z).

(* ================================================================= *)
(** ** webhook/main.ts *)

Module Webhook.

Record EventDataExtra := mkExtra {
  old_item : option Task.t;
  update_intent : option string
}.

(** The fields of the payload that the handler reads. *)
Record WebhookPayload := mkPayload {
  event_name : string;
  event_data : Task.t;
  event_data_extra : option EventDataExtra
}.

(** What [JSON.parse(body)] returns, as [handleWebhook] reads it.  The
    handler hands the parsed value over unchecked.  [Payload p] is a value
    whose [event_data] is neither [null] nor [undefined], with its fields at
    the types [WebhookPayload] declares; [NoEventData] is any other value
    ([null], [{}], a number, an object whose [event_data] is [null], ...):
    reading [payload.event_data.id] on it throws a TypeError. *)
Inductive Json :=
| NoEventData
| Payload (payload : WebhookPayload).

Record Request := mkRequest {
  pathname : string;
  method : string;
  (** [request.headers.get("X-Todoist-Hmac-SHA256")] *)
  hmac_header : option string;
  body : string
}.

Record Response := mkResponse {
  text : string;
  status : Z
}.

Section Service.

(** Environment of the process.  The server only starts when both are
    set, so [CLIENT_SECRET!] is taken as a string. *)
Variable TODOIST_TOKEN : option string.
Variable CLIENT_SECRET : string.

(** Base64 of the HMAC-SHA256 of a payload under a secret (Web Crypto). *)
Variable hmac_sha256_base64 : string -> string -> string.

(** [JSON.parse(body)]; [None] when it throws. *)
Variable JSON_parse : string -> option Json.

(** [api] is defined exactly when the token is truthy. *)
Definition api : bool := JS.truthy TODOIST_TOKEN.

Definition verifyWebhookSignature (payload signature secret : string) : bool :=
  let actualSignature := hmac_sha256_base64 secret payload in
  (actualSignature =? signature)%string.

Definition find_label (name : string) (labels : list Label.t) : option Label.t :=
  find (fun label => (Label.name label =? name)%string) labels.

Definition ensureLabelsExist : M (Label.t * Label.t) :=
  if negb api then throw ClientNotInitialized else
  labels <- Api.getLabels ;;
  let recentlyCreatedLabel := find_label RECENTLY_CREATED_LABEL labels in
  let recentlyUpdatedLabel := find_label RECENTLY_UPDATED_LABEL labels in
  recentlyCreatedLabel <-
    match recentlyCreatedLabel with
    | None => Api.addLabel RECENTLY_CREATED_LABEL
    | Some label => ret label
    end ;;
  recentlyUpdatedLabel <-
    match recentlyUpdatedLabel with
    | None => Api.addLabel RECENTLY_UPDATED_LABEL
    | Some label => ret label
    end ;;
  ret (recentlyCreatedLabel, recentlyUpdatedLabel).

Definition addRecentlyCreatedLabel (taskId : string) : M unit :=
  if negb api then throw ClientNotInitialized else
  try_catch
    (resolved <- ensureLabelsExist ;;
     let createdLabel := fst resolved in
     task <- Api.getTask taskId ;;
     let currentLabels := Task.labels task in
     if negb (JS.includes currentLabels (Label.name createdLabel)) then
       let newLabels := currentLabels ++ [Label.name createdLabel] in
       Api.updateTask taskId newLabels ;;; ret tt
     else ret tt)
    (fun _ => ret tt).

Definition addRecentlyUpdatedLabel (taskId : string) : M unit :=
  if negb api then throw ClientNotInitialized else
  try_catch
    (resolved <- ensureLabelsExist ;;
     let updatedLabel := snd resolved in
     task <- Api.getTask taskId ;;
     let currentLabels := Task.labels task in
     if negb (JS.includes currentLabels (Label.name updatedLabel)) then
       let newLabels := currentLabels ++ [Label.name updatedLabel] in
       Api.updateTask taskId newLabels ;;; ret tt
     else ret tt)
    (fun _ => ret tt).

(** [payload.event_data_extra?.update_intent] *)
Definition updateIntent_of (payload : WebhookPayload) : option string :=
  match event_data_extra payload with
  | Some extra => update_intent extra
  | None => None
  end.

(** The first statement logs [payload.event_name] and
    [payload.event_data.id]: it throws when the value has no event data. *)
Definition handleWebhook (payload : Json) : M unit :=
  match payload with
  | NoEventData => throw TypeError
  | Payload payload =>
      if (event_name payload =? "item:added")%string then
        addRecentlyCreatedLabel (Task.id (event_data payload))
      else if (event_name payload =? "item:updated")%string then
        let updateIntent := updateIntent_of payload in
        if negb (JS.truthy updateIntent)
           || match updateIntent with
              | Some s => (s =? "item_updated")%string
              | None => false
              end
        then addRecentlyUpdatedLabel (Task.id (event_data payload))
        else ret tt
      else ret tt
  end.

Definition handler (request : Request) : M Response :=
  if (pathname request =? "/health")%string then
    ret (mkResponse "OK" 200)
  else if (pathname request =? "/webhook")%string
          && (method request =? "POST")%string then
    try_catch
      (if negb (JS.truthy (hmac_header request)) then
         ret (mkResponse "Missing signature" 401)
       else
         let signature := JS.or_str (hmac_header request) EmptyString in
         let isValid :=
           verifyWebhookSignature (body request) signature CLIENT_SECRET in
         if negb isValid then ret (mkResponse "Invalid signature" 401)
         else
           match JSON_parse (body request) with
           | None => ret (mkResponse "Invalid JSON" 400)
           | Some payload =>
               handleWebhook payload ;;; ret (mkResponse "OK" 200)
           end)
      (fun _ => ret (mkResponse "Internal server error" 500))
  else ret (mkResponse "Not found" 404).

End Service.

End Webhook.

(* ================================================================= *)
(** ** The cleanup-only periodic job *)

Module Maintainer.

Section Job.

Variable TODOIST_TOKEN : option string.
Variable Date_parse : string -> JS.Date.

Definition api : bool := JS.truthy TODOIST_TOKEN.

Definition find_label (name : string) (labels : list Label.t) : option Label.t :=
  find (fun label => (Label.name label =? name)%string) labels.

(** [new Date(task.addedAt || '')] *)
Definition createdDate (task : Task.t) : JS.Date :=
  new_Date Date_parse (JS.or_str (Task.addedAt task) EmptyString).

(** [new Date(task.updatedAt || task.addedAt || '')] *)
Definition updatedDate (task : Task.t) : JS.Date :=
  new_Date Date_parse
    (JS.or_str (JS.or_opt (Task.updatedAt task) (Task.addedAt task)) EmptyString).

Definition isRecentlyCreated (threshold : JS.Date) (task : Task.t) : bool :=
  JS.Date_ge (createdDate task) threshold.

Definition isRecentlyUpdated (threshold : JS.Date) (task : Task.t) : bool :=
  JS.Date_ge (updatedDate task) threshold
  && JS.getTime_neq (updatedDate task) (createdDate task).

(** [label && task.labels?.includes(label.name) || false] *)
Definition currentlyHas (label : option Label.t) (task : Task.t) : bool :=
  match label with
  | Some l => JS.includes (Task.labels task) (Label.name l)
  | None => false
  end.

(** The first loop: does the task carry a recency label it should lose? *)
Definition shouldRemoveLabels
    (recentlyCreatedLabel recentlyUpdatedLabel : option Label.t)
    (threshold : JS.Date) (task : Task.t) : bool :=
  let shouldRemoveLabels := false in
  let shouldRemoveLabels :=
    if currentlyHas recentlyCreatedLabel task
       && negb (isRecentlyCreated threshold task)
    then true else shouldRemoveLabels in
  let shouldRemoveLabels :=
    if currentlyHas recentlyUpdatedLabel task
       && negb (isRecentlyUpdated threshold task)
    then true else shouldRemoveLabels in
  shouldRemoveLabels.

(** One removal step of the second loop, for one of the two labels. *)
Definition removeStale (label : option Label.t) (stillRecent : bool)
    (st : list string * bool) : list string * bool :=
  let '(newLabels, labelsChanged) := st in
  match label with
  | Some l =>
      if JS.includes newLabels (Label.name l) then
        if negb stillRecent then
          let index := JS.indexOf newLabels (Label.name l) in
          (JS.splice1 newLabels index, true)
        else (newLabels, labelsChanged)
      else (newLabels, labelsChanged)
  | None => (newLabels, labelsChanged)
  end.

(** The list the second loop builds for a task, and [labelsChanged]. *)
Definition newLabels
    (recentlyCreatedLabel recentlyUpdatedLabel : option Label.t)
    (threshold : JS.Date) (task : Task.t) : list string * bool :=
  let st := (Task.labels task, false) in
  let st := removeStale recentlyCreatedLabel
              (isRecentlyCreated threshold task) st in
  removeStale recentlyUpdatedLabel (isRecentlyUpdated threshold task) st.

(** Body of the second loop, with its own try/catch. *)
Definition cleanTask
    (recentlyCreatedLabel recentlyUpdatedLabel : option Label.t)
    (threshold : JS.Date) (task : Task.t) (updatedCount : nat) : M nat :=
  try_catch
    (let '(labels, labelsChanged) :=
       newLabels recentlyCreatedLabel recentlyUpdatedLabel threshold task in
     if labelsChanged then
       Api.updateTask (Task.id task) labels ;;; ret (S updatedCount)
     else ret updatedCount)
    (fun _ => ret updatedCount).

Definition main (now : Z) : M Exit :=
  if negb api then throw ClientNotInitialized else
  try_catch
    (let threshold := recentThreshold now in
     labels <- Api.getLabels ;;
     let recentlyCreatedLabel := find_label RECENTLY_CREATED_LABEL labels in
     let recentlyUpdatedLabel := find_label RECENTLY_UPDATED_LABEL labels in
     match recentlyCreatedLabel, recentlyUpdatedLabel with
     | None, None => ret Returned
     | _, _ =>
         let tasksToCheck := TaskMap.empty in
         tasksToCheck <-
           match recentlyCreatedLabel with
           | Some _ =>
               currentlyCreatedTasks <- Api.getTasks RECENTLY_CREATED_LABEL ;;
               ret (TaskMap.set_all tasksToCheck currentlyCreatedTasks)
           | None => ret tasksToCheck
           end ;;
         tasksToCheck <-
           match recentlyUpdatedLabel with
           | Some _ =>
               currentlyUpdatedTasks <- Api.getTasks RECENTLY_UPDATED_LABEL ;;
               ret (TaskMap.set_all tasksToCheck currentlyUpdatedTasks)
           | None => ret tasksToCheck
           end ;;
         let tasksToUpdate :=
           filter (shouldRemoveLabels recentlyCreatedLabel
                     recentlyUpdatedLabel threshold)
                  (TaskMap.values tasksToCheck) in
         for_of (cleanTask recentlyCreatedLabel recentlyUpdatedLabel threshold)
                tasksToUpdate 0%nat ;;;
         ret Returned
     end)
    (fun _ => ret (DenoExit 1)).

End Job.

End Maintainer.

(* ================================================================= *)
(** ** The add-and-remove periodic job *)

Module Labeler.

Record TaskUpdateInfo := mkInfo {
  task : Task.t;
  shouldHaveCreatedLabel : bool;
  shouldHaveUpdatedLabel : bool;
  currentlyHasCreatedLabel : bool;
  currentlyHasUpdatedLabel : bool
}.

(** The edit applied to [newLabels] for one recency label:
    push when wanted and absent, splice the first occurrence out when
    unwanted and present, nothing otherwise. *)
Definition editLabel (newLabels : list string) (name : string)
    (shouldHave : bool) : list string :=
  if shouldHave && negb (JS.includes newLabels name) then
    JS.push newLabels name
  else if negb shouldHave && JS.includes newLabels name then
    let index := JS.indexOf newLabels name in
    JS.splice1 newLabels index
  else newLabels.

(** [newLabels] once both recency labels are handled, before the
    comparison that sorts it. *)
Definition newLabels (recentlyCreatedLabel recentlyUpdatedLabel : Label.t)
    (info : TaskUpdateInfo) : list string :=
  let newLabels := Task.labels (task info) in
  let newLabels :=
    editLabel newLabels (Label.name recentlyCreatedLabel)
              (shouldHaveCreatedLabel info) in
  editLabel newLabels (Label.name recentlyUpdatedLabel)
            (shouldHaveUpdatedLabel info).

(** Body of the update loop, with its own try/catch.  [newLabels.sort()]
    sorts the array in place and returns it, so the comparison is between
    the two sorted lists and the list sent to the store is the sorted one. *)
Definition updateOne (recentlyCreatedLabel recentlyUpdatedLabel : Label.t)
    (info : TaskUpdateInfo) (updatedCount : nat) : M nat :=
  try_catch
    (let newLabels := newLabels recentlyCreatedLabel recentlyUpdatedLabel info in
     let newLabels := JS.sort newLabels in
     if JS.stringify_neq newLabels (JS.sort (Task.labels (task info))) then
       Api.updateTask (Task.id (task info)) newLabels ;;; ret (S updatedCount)
     else ret updatedCount)
    (fun _ => ret updatedCount).

Section Job.

Variable TODOIST_TOKEN : option string.
Variable Date_parse : string -> JS.Date.

Definition api : bool := JS.truthy TODOIST_TOKEN.

Definition find_label (name : string) (labels : list Label.t) : option Label.t :=
  find (fun label => (Label.name label =? name)%string) labels.

(** [new Date(task.addedAt || '')] *)
Definition createdDate (task : Task.t) : JS.Date :=
  new_Date Date_parse (JS.or_str (Task.addedAt task) EmptyString).

(** [new Date(task.updatedAt || task.addedAt || '')] *)
Definition updatedDate (task : Task.t) : JS.Date :=
  new_Date Date_parse
    (JS.or_str (JS.or_opt (Task.updatedAt task) (Task.addedAt task)) EmptyString).

Definition isRecentlyCreated (threshold : JS.Date) (task : Task.t) : bool :=
  JS.Date_ge (createdDate task) threshold.

Definition isRecentlyUpdated (threshold : JS.Date) (task : Task.t) : bool :=
  JS.Date_ge (updatedDate task) threshold
  && JS.getTime_neq (updatedDate task) (createdDate task).

(** The filter that keeps the tasks of the last days modified recently. *)
Definition recentlyModified (threshold : JS.Date) (task : Task.t) : bool :=
  if negb (JS.truthy (Task.updatedAt task)) then false
  else
    let updatedDate := new_Date Date_parse (JS.or_str (Task.updatedAt task) EmptyString) in
    let createdDate := createdDate task in
    JS.Date_ge updatedDate threshold && JS.getTime_neq updatedDate createdDate.

(** Body of the first loop: the recency decision of a task against the
    labels it holds. *)
Definition inspect (recentlyCreatedLabel recentlyUpdatedLabel : Label.t)
    (threshold : JS.Date) (task : Task.t) : TaskUpdateInfo :=
  mkInfo task
    (isRecentlyCreated threshold task)
    (isRecentlyUpdated threshold task)
    (JS.includes (Task.labels task) (Label.name recentlyCreatedLabel))
    (JS.includes (Task.labels task) (Label.name recentlyUpdatedLabel)).

(** Only the tasks that need a change are tracked. *)
Definition needsChange (info : TaskUpdateInfo) : bool :=
  negb (Bool.eqb (shouldHaveCreatedLabel info) (currentlyHasCreatedLabel info))
  || negb (Bool.eqb (shouldHaveUpdatedLabel info) (currentlyHasUpdatedLabel info)).

Definition tasksToUpdate (recentlyCreatedLabel recentlyUpdatedLabel : Label.t)
    (threshold : JS.Date) (tasksToProcess : TaskMap.t) : list TaskUpdateInfo :=
  filter needsChange
    (map (inspect recentlyCreatedLabel recentlyUpdatedLabel threshold)
         (TaskMap.values tasksToProcess)).

Definition main (now : Z) : M Exit :=
  if negb api then throw ClientNotInitialized else
  try_catch
    (let threshold := recentThreshold now in
     labels <- Api.getLabels ;;
     recentlyCreatedLabel <-
       match find_label RECENTLY_CREATED_LABEL labels with
       | None => Api.addLabel RECENTLY_CREATED_LABEL
       | Some label => ret label
       end ;;
     recentlyUpdatedLabel <-
       match find_label RECENTLY_UPDATED_LABEL labels with
       | None => Api.addLabel RECENTLY_UPDATED_LABEL
       | Some label => ret label
       end ;;
     currentlyCreatedTasks <- Api.getTasks RECENTLY_CREATED_LABEL ;;
     currentlyUpdatedTasks <- Api.getTasks RECENTLY_UPDATED_LABEL ;;
     recentTasks <- Api.getTasksByFilter "created after: -7 days" ;;
     let recentCreatedTasks := filter (isRecentlyCreated threshold) recentTasks in
     let recentModifiedTasks := filter (recentlyModified threshold) recentTasks in
     let tasksToProcess := TaskMap.empty in
     let tasksToProcess := TaskMap.set_all tasksToProcess currentlyCreatedTasks in
     let tasksToProcess := TaskMap.set_all tasksToProcess currentlyUpdatedTasks in
     let tasksToProcess := TaskMap.set_all tasksToProcess recentCreatedTasks in
     let tasksToProcess := TaskMap.set_all tasksToProcess recentModifiedTasks in
     for_of (updateOne recentlyCreatedLabel recentlyUpdatedLabel)
            (tasksToUpdate recentlyCreatedLabel recentlyUpdatedLabel
                           threshold tasksToProcess)
            0%nat ;;;
     ret Returned)
    (fun _ => ret (DenoExit 1)).

End Job.

End Labeler.

(* ================================================================= *)
(** ** Start-up of the webhook service *)

Module Server.



End Server.

(* ================================================================= *)
(** ** Sample data *)

Module Sample.

(** A table of date strings with their time values, standing for the
    parser of the runtime on these strings; anything else is invalid. *)
Definition Date_parse (s : string) : JS.Date :=
  if (s =? "2025-03-01T00:00:00Z")%string then Some 1740787200000
  else if (s =? "2025-03-01T06:00:00Z")%string then Some 1740808800000
  else if (s =? "2025-03-01T12:00:00Z")%string then Some 1740830400000
  else if (s =? "2025-03-02T05:00:00Z")%string then Some 1740891600000
  else if (s =? "2025-03-02T06:00:00Z")%string then Some 1740895200000
  else None.

(** 2025-03-02T06:00:00Z *)
Definition now : Z := 1740895200000.

Definition token : option string := Some "token".

Definition mkTask (id : string) (added updated : option string)
    (labels : list string) : Task.t :=
  Task.mk id "buy milk" added updated labels.

Definition world (labels : list Label.t) (tasks : list Task.t)
    (faults : list bool) : World :=
  mkWorld labels tasks (fun _ _ => true) faults [].

Definition bothLabels : list Label.t :=
  [Label.mk "1" RECENTLY_CREATED_LABEL; Label.mk "2" RECENTLY_UPDATED_LABEL].

(** A stand-in for the keyed hash of the service. *)
Definition hmac (secret payload : string) : string :=
  (secret ++ "/" ++ payload)%string.

Definition addedPayload : Webhook.WebhookPayload :=
  Webhook.mkPayload "item:added"
    (mkTask "t1" (Some "2025-03-02T06:00:00Z") None []) None.

(** A stand-in for the JSON parser, on the two bodies the examples send:
    an item-added event, and an object without fields. *)
Definition JSON_parse (body : string) : option Webhook.Json :=
  if (body =? "{item:added t1}")%string then Some (Webhook.Payload addedPayload)
  else if (body =? "{}")%string then Some Webhook.NoEventData
  else None.

(** Labels of a task in the store. *)
Definition labelsOf (id : string) (w : World) : option (list string) :=
  option_map Task.labels (Api.find_task id (store_tasks w)).

End Sample.

(* ================================================================= *)
(** ** Vocabulary of the statements *)

(** Is the request an update of a task? *)
Definition is_update (c : Call) : bool :=
  match c with
  | UpdateTask _ _ => true
  | _ => false
  end.

(** Removal of the first occurrence of [x], the effect the programs obtain
    with [indexOf] followed by [splice]. *)
Fixpoint remove_first (x : string) (l : list string) : list string :=
  match l with
  | [] => []
  | y :: l' => if (y =? x)%string then l' else y :: remove_first x l'
  end.

Definition occurrences (x : string) (l : list string) : nat :=
  count_occ string_dec l x.

Definition threshold_ms : Z := 24 * 60 * 60 * 1000.

(** The instants of a task: [c] is what its creation timestamp parses to,
    and [m] what its modification timestamp parses to, when it has one. *)
Definition instants (Date_parse : string -> JS.Date) (task : Task.t)
    (c : Z) (m : option Z) : Prop :=
  (exists a, Task.addedAt task = Some a /\ new_Date Date_parse a = Some c)
  /\ match Task.updatedAt task, m with
     | None, None => True
     | Some u, Some m => new_Date Date_parse u = Some m
     | _, _ => False
     end.

(** The tail shared by the two functions that add a label: fetch the task
    and append [name] unless its list includes it. *)
Definition appendLabel (name taskId : string) : M unit :=
  task <- Api.getTask taskId ;;
  let currentLabels := Task.labels task in
  if negb (JS.includes currentLabels name) then
    let newLabels := currentLabels ++ [name] in
    Api.updateTask taskId newLabels ;;; ret tt
  else ret tt.

(** From [w] to [w']: the only update sent, and the only change to the
    tasks of the store, is [name] appended to the labels of [taskId]. *)
Definition adds_only (name taskId : string) (w w' : World) : Prop :=
  exists cs,
    calls w' = calls w ++ cs
    /\ (forall id ls, In (UpdateTask id ls) cs ->
          id = taskId
          /\ exists task, Api.find_task taskId (store_tasks w) = Some task
                          /\ ls = Task.labels task ++ [name])
    /\ (store_tasks w' = store_tasks w
        \/ exists task,
             Api.find_task taskId (store_tasks w) = Some task
             /\ JS.includes (Task.labels task) name = false
             /\ store_tasks w' =
                Api.replace_labels taskId (Task.labels task ++ [name])
                                   (store_tasks w)).

(** Every task of the store keeps its labels, in place, and may gain some
    at the end. *)
Definition keeps_labels (before after : list Task.t) : Prop :=
  Forall2 (fun t t' =>
             Task.id t = Task.id t'
             /\ exists added, Task.labels t' = Task.labels t ++ added)
          before after.

(** The intents that let an item-updated event add the label: no intent,
    an empty one, or ["item_updated"]. *)
Definition qualifies (updateIntent : option string) : bool :=
  match updateIntent with
  | None => true
  | Some s => (s =? EmptyString)%string || (s =? "item_updated")%string
  end.

(** The requests of one resolution, given the labels in the store. *)
Definition resolution_calls (labels : list Label.t) : list Call :=
  GetLabels
  :: (match Webhook.find_label RECENTLY_CREATED_LABEL labels with
      | Some _ => []
      | None => [AddLabel RECENTLY_CREATED_LABEL]
      end)
  ++ (match Webhook.find_label RECENTLY_UPDATED_LABEL labels with
      | Some _ => []
      | None => [AddLabel RECENTLY_UPDATED_LABEL]
      end).

Definition isRecencyName (x : string) : bool :=
  (x =? RECENTLY_CREATED_LABEL)%string || (x =? RECENTLY_UPDATED_LABEL)%string.

(** The entries of a label list that are not recency labels, in order. *)
Definition otherLabels (l : list string) : list string :=
  filter (fun x => negb (isRecencyName x)) l.

(** A label list agrees with the recency decision of a task: it holds each
    recency name exactly when the decision wants it. *)
Definition decided (Date_parse : string -> JS.Date) (now : Z)
    (task : Task.t) (labels : list string) : Prop :=
  (In RECENTLY_CREATED_LABEL labels
   <-> Labeler.isRecentlyCreated Date_parse (recentThreshold now) task = true)
  /\ (In RECENTLY_UPDATED_LABEL labels
      <-> Labeler.isRecentlyUpdated Date_parse (recentThreshold now) task = true).

(** What the add-and-remove job leaves for a task it inspects: the sorted
    list it sends when it finds a change is needed, else the list the task
    holds. *)
Definition labelsLeft (Date_parse : string -> JS.Date) (now : Z)
    (created updated : Label.t) (task : Task.t) : list string :=
  let info := Labeler.inspect Date_parse created updated (recentThreshold now) task in
  if Labeler.needsChange info
  then JS.sort (Labeler.newLabels created updated info)
  else Task.labels task.

(** The updates for a list of inspected tasks: one for each task that
    needs a change, in order. *)
Definition updatesFor (Date_parse : string -> JS.Date) (now : Z)
    (created updated : Label.t) (tasks : list Task.t) : list Call :=
  flat_map
    (fun task =>
       if Labeler.needsChange
            (Labeler.inspect Date_parse created updated (recentThreshold now) task)
       then [UpdateTask (Task.id task)
                        (labelsLeft Date_parse now created updated task)]
       else [])
    tasks.

(** *** Vocabulary of the further properties *)

(** Does the request change the store? *)
Definition is_write (c : Call) : bool :=
  match c with
  | AddLabel _ | UpdateTask _ _ => true
  | _ => false
  end.

(** The ids of the tasks that a list of requests updates, in order. *)
Definition updatedIds (cs : list Call) : list string :=
  flat_map (fun c => match c with UpdateTask id _ => [id] | _ => [] end) cs.

(** How many labels of a collection carry the name [name]. *)
Definition labelsNamed (name : string) (labels : list Label.t) : nat :=
  length (filter (fun label => (Label.name label =? name)%string) labels).

(** [m.get(k)] on a task map. *)
Definition lookup (m : TaskMap.t) (k : string) : option Task.t :=
  option_map snd (find (fun entry => (fst entry =? k)%string) m).

(** The last task of a list that carries the id [id]. *)
Definition lastSnapshot (id : string) (tasks : list Task.t) : option Task.t :=
  find (fun task => (Task.id task =? id)%string) (rev tasks).

(** The updates of the cleanup job for a list of checked tasks: one for
    each task it queues, carrying the list it builds for it. *)
Definition cleanupUpdates (Date_parse : string -> JS.Date) (now : Z)
    (created updated : option Label.t) (tasks : list Task.t) : list Call :=
  flat_map
    (fun task =>
       if Maintainer.shouldRemoveLabels Date_parse created updated
            (recentThreshold now) task
       then [UpdateTask (Task.id task)
               (fst (Maintainer.newLabels Date_parse created updated
                       (recentThreshold now) task))]
       else [])
    tasks.

(** A label list in the order of the default sort. *)
Definition sorted (l : list string) : Prop :=
  Sorted (fun a b => (a <=? b)%string = true) l.

(** The label that handling an event appends, if any: "recently created"
    for an added item, "recently updated" for an updated item whose intent
    is absent, empty or ["item_updated"]. *)
Definition eventLabel (payload : Webhook.WebhookPayload) : option string :=
  if (Webhook.event_name payload =? "item:added")%string
  then Some RECENTLY_CREATED_LABEL
  else if (Webhook.event_name payload =? "item:updated")%string
  then if qualifies (Webhook.updateIntent_of payload)
       then Some RECENTLY_UPDATED_LABEL else None
  else None.

(** A task map as the jobs build it: every task sits under its own id,
    and no id occurs twice. *)
Definition keyed (m : TaskMap.t) : Prop :=
  Forall (fun entry => fst entry = Task.id (snd entry)) m
  /\ NoDup (map fst m).

(** The requests the add-and-remove job sends before its update loop,
    given the labels in the store: the resolution of the two labels, then
    the three queries. *)
Definition labelerSetup (labels : list Label.t) : list Call :=
  resolution_calls labels
  ++ [GetTasks RECENTLY_CREATED_LABEL; GetTasks RECENTLY_UPDATED_LABEL;
      GetTasksByFilter "created after: -7 days"].

(** The tasks the add-and-remove job inspects in a run started at [w]:
    the values of the map it fills from its three queries. *)
Definition inspectedTasks (Date_parse : string -> JS.Date) (now : Z)
    (w : World) : list Task.t :=
  let threshold := recentThreshold now in
  let currentlyCreatedTasks :=
    filter (fun task => JS.includes (Task.labels task) RECENTLY_CREATED_LABEL)
           (store_tasks w) in
  let currentlyUpdatedTasks :=
    filter (fun task => JS.includes (Task.labels task) RECENTLY_UPDATED_LABEL)
           (store_tasks w) in
  let recentTasks :=
    filter (store_filter w "created after: -7 days") (store_tasks w) in
  let tasksToProcess := TaskMap.empty in
  let tasksToProcess := TaskMap.set_all tasksToProcess currentlyCreatedTasks in
  let tasksToProcess := TaskMap.set_all tasksToProcess currentlyUpdatedTasks in
  let tasksToProcess :=
    TaskMap.set_all tasksToProcess
      (filter (Labeler.isRecentlyCreated Date_parse threshold) recentTasks) in
  let tasksToProcess :=
    TaskMap.set_all tasksToProcess
      (filter (Labeler.recentlyModified Date_parse threshold) recentTasks) in
  TaskMap.values tasksToProcess.

(** Does a task of the store reach the first loop of the add-and-remove
    job?  It does when it holds a recency label, or when the store returns
    it for the seven-day query and one of the two filters keeps it. *)
Definition inspected (Date_parse : string -> JS.Date) (now : Z)
    (w : World) (task : Task.t) : bool :=
  JS.includes (Task.labels task) RECENTLY_CREATED_LABEL
  || JS.includes (Task.labels task) RECENTLY_UPDATED_LABEL
  || (store_filter w "created after: -7 days" task
      && (Labeler.isRecentlyCreated Date_parse (recentThreshold now) task
          || Labeler.recentlyModified Date_parse (recentThreshold now) task)).

(** The world [w] with the failure schedule [fs] ahead of it. *)
Definition withFaults (fs : list bool) (w : World) : World :=
  {| store_labels := store_labels w;
     store_tasks := store_tasks w;
     store_filter := store_filter w;
     faults := fs;
     calls := calls w |}.

(* ================================================================= *)
(** ** Facts about the array operations *)

Lemma includes_In (l : list string) (x : string) :
  JS.includes l x = true <-> In x l.
Proof.
  unfold JS.includes. rewrite existsb_exists. split.
  - intros [y [Hy E]]. apply String.eqb_eq in E. now subst.
  - intros H. exists x. split; [assumption | apply String.eqb_refl].
Qed.

Lemma includes_false (l : list string) (x : string) :
  JS.includes l x = false <-> ~ In x l.
Proof.
  rewrite <- includes_In. destruct (JS.includes l x); split; intro H;
    try reflexivity; try discriminate; try congruence.
Qed.

Lemma indexOf_from_position (x : string) (l : list string) :
  JS.includes l x = true ->
  forall i, exists n : nat,
    JS.indexOf_from l x i = i + Z.of_nat n
    /\ (n < length l)%nat
    /\ firstn n l ++ skipn (S n) l = remove_first x l.
Proof.
  induction l as [| y l IH]; simpl; intros H i.
  - discriminate.
  - rewrite (String.eqb_sym x y) in H.
    destruct (String.eqb_spec y x) as [-> | Hne].
    + exists 0%nat. repeat split; simpl; lia.
    + simpl in H. destruct (IH H (i + 1)) as [n [E [Hn Hr]]].
      exists (S n). repeat split.
      * rewrite E. lia.
      * lia.
      * simpl. simpl in Hr. now rewrite Hr.
Qed.

Lemma splice1_indexOf (l : list string) (x : string) :
  JS.includes l x = true ->
  JS.splice1 l (JS.indexOf l x) = remove_first x l.
Proof.
  intros H. destruct (indexOf_from_position x l H 0) as [n [E [Hn Hr]]].
  unfold JS.indexOf, JS.splice1. rewrite E.
  replace (0 + Z.of_nat n <? 0) with false by (symmetry; apply Z.ltb_ge; lia).
  replace (Z.to_nat (Z.min (0 + Z.of_nat n) (Z.of_nat (length l)))) with n by lia.
  exact Hr.
Qed.

Lemma occurrences_remove_first_same (x : string) (l : list string) :
  occurrences x (remove_first x l) = pred (occurrences x l).
Proof.
  unfold occurrences. induction l as [| y l IH]; simpl; [reflexivity |].
  destruct (String.eqb_spec y x) as [-> | Hne].
  - destruct (string_dec x x); [reflexivity | congruence].
  - simpl. destruct (string_dec y x); [congruence | exact IH].
Qed.

Lemma occurrences_remove_first_other (x y : string) (l : list string) :
  x <> y -> occurrences y (remove_first x l) = occurrences y l.
Proof.
  unfold occurrences. intros Hxy. induction l as [| z l IH]; simpl; [reflexivity |].
  destruct (String.eqb_spec z x) as [-> | Hne].
  - destruct (string_dec x y); [congruence | reflexivity].
  - simpl. now rewrite IH.
Qed.

Lemma occurrences_push (x y : string) (l : list string) :
  occurrences y (JS.push l x) = (occurrences y l + (if string_dec x y then 1 else 0))%nat.
Proof.
  unfold occurrences, JS.push. rewrite count_occ_app. simpl.
  now destruct (string_dec x y).
Qed.

Lemma occurrences_In (x : string) (l : list string) :
  In x l <-> (0 < occurrences x l)%nat.
Proof. unfold occurrences. rewrite (count_occ_In string_dec). lia. Qed.

Lemma filter_remove_first (p : string -> bool) (x : string) (l : list string) :
  p x = false -> filter p (remove_first x l) = filter p l.
Proof.
  intros Hp. induction l as [| y l IH]; simpl; [reflexivity |].
  destruct (String.eqb_spec y x) as [-> | Hne].
  - now rewrite Hp.
  - simpl. now rewrite IH.
Qed.

Lemma filter_push (p : string -> bool) (x : string) (l : list string) :
  p x = false -> filter p (JS.push l x) = filter p l.
Proof.
  intros Hp. unfold JS.push. rewrite filter_app. simpl. rewrite Hp.
  apply app_nil_r.
Qed.

Lemma insert_Permutation (x : string) (l : list string) :
  Permutation (JS.insert x l) (x :: l).
Proof.
  induction l as [| y l IH]; simpl; [reflexivity |].
  destruct (x <=? y)%string; [reflexivity |].
  rewrite IH. apply perm_swap.
Qed.

Lemma sort_Permutation (l : list string) : Permutation (JS.sort l) l.
Proof.
  induction l as [| x l IH]; simpl; [reflexivity |].
  unfold JS.sort in *. simpl. rewrite insert_Permutation. now constructor.
Qed.

Lemma sort_In (l : list string) (x : string) : In x (JS.sort l) <-> In x l.
Proof.
  split; apply Permutation_in;
    [apply sort_Permutation | symmetry; apply sort_Permutation].
Qed.

Lemma array_eqb_eq (a b : list string) : JS.array_eqb a b = true <-> a = b.
Proof.
  revert b. induction a as [| x a IH]; destruct b as [| y b]; simpl;
    try (split; [discriminate | discriminate]); try tauto.
  rewrite andb_true_iff, IH, String.eqb_eq. split.
  - intros [-> ->]. reflexivity.
  - intros E. injection E as -> ->. auto.
Qed.

(** *** The edit of one recency label *)

Lemma editLabel_add (l : list string) (x : string) :
  Labeler.editLabel l x true = if JS.includes l x then l else JS.push l x.
Proof. unfold Labeler.editLabel. simpl. now destruct (JS.includes l x). Qed.

Lemma editLabel_remove (l : list string) (x : string) :
  Labeler.editLabel l x false = if JS.includes l x then remove_first x l else l.
Proof.
  unfold Labeler.editLabel. simpl.
  destruct (JS.includes l x) eqn:E; [now apply splice1_indexOf | reflexivity].
Qed.

Lemma editLabel_other (l : list string) (x y : string) (b : bool) :
  x <> y -> occurrences y (Labeler.editLabel l x b) = occurrences y l.
Proof.
  intros Hxy. destruct b.
  - rewrite editLabel_add. destruct (JS.includes l x); [reflexivity |].
    rewrite occurrences_push. destruct (string_dec x y); [congruence | lia].
  - rewrite editLabel_remove. destruct (JS.includes l x); [| reflexivity].
    now apply occurrences_remove_first_other.
Qed.

Lemma editLabel_same (l : list string) (x : string) (b : bool) :
  occurrences x (Labeler.editLabel l x b) =
  if b then Nat.max 1 (occurrences x l) else pred (occurrences x l).
Proof.
  destruct b.
  - rewrite editLabel_add. destruct (JS.includes l x) eqn:E.
    + apply includes_In, occurrences_In in E. lia.
    + rewrite occurrences_push.
      apply includes_false in E. rewrite occurrences_In in E.
      destruct (string_dec x x); [lia | congruence].
  - rewrite editLabel_remove. destruct (JS.includes l x) eqn:E.
    + apply occurrences_remove_first_same.
    + apply includes_false in E. rewrite occurrences_In in E. lia.
Qed.

Lemma editLabel_filter (p : string -> bool) (l : list string) (x : string) (b : bool) :
  p x = false -> filter p (Labeler.editLabel l x b) = filter p l.
Proof.
  intros Hp. destruct b.
  - rewrite editLabel_add. destruct (JS.includes l x); [reflexivity |].
    now apply filter_push.
  - rewrite editLabel_remove. destruct (JS.includes l x); [| reflexivity].
    now apply filter_remove_first.
Qed.

(* ================================================================= *)
(** ** The recency decision *)

Lemma new_Date_nonempty (Date_parse : string -> JS.Date) (s : string) (t : Z) :
  new_Date Date_parse s = Some t -> (s =? EmptyString)%string = false.
Proof. unfold new_Date. now destruct (s =? EmptyString)%string. Qed.

Lemma createdDate_instant Date_parse task c m :
  instants Date_parse task c m -> Maintainer.createdDate Date_parse task = Some c.
Proof.
  intros [[a [Ha Hc]] _]. unfold Maintainer.createdDate. rewrite Ha. simpl.
  now rewrite (new_Date_nonempty _ _ _ Hc).
Qed.

Lemma updatedDate_instant Date_parse task c m :
  instants Date_parse task c m ->
  Maintainer.updatedDate Date_parse task = Some (match m with Some m => m | None => c end).
Proof.
  intros [[a [Ha Hc]] Hm]. unfold Maintainer.updatedDate, JS.or_opt.
  pose proof (new_Date_nonempty _ _ _ Hc) as Ea.
  destruct (Task.updatedAt task) as [u |], m as [m |]; try contradiction.
  - pose proof (new_Date_nonempty _ _ _ Hm) as Eu. simpl. rewrite Eu. simpl.
    now rewrite Eu.
  - simpl. rewrite Ha. simpl. now rewrite Ea.
Qed.

(** C2. For a task whose timestamps parse, against the clock [now]:
    the task is recently created iff [now - creation <= 24 h], and recently
    updated iff it has a modification instant [m] with [now - m <= 24 h] and
    [m] different from the creation instant; a modification instant equal to
    the creation instant is never recently updated.  The two periodic jobs
    compute the same decision. *)
Theorem recency_decision_spec
    (Date_parse : string -> JS.Date) (now : Z) (task : Task.t)
    (c : Z) (m : option Z) :
  instants Date_parse task c m ->
  (Maintainer.isRecentlyCreated Date_parse (recentThreshold now) task = true
     <-> now - c <= threshold_ms)
  /\ (Maintainer.isRecentlyUpdated Date_parse (recentThreshold now) task = true
     <-> exists m', m = Some m' /\ now - m' <= threshold_ms /\ m' <> c)
  /\ (m = Some c ->
      Maintainer.isRecentlyUpdated Date_parse (recentThreshold now) task = false)
  /\ Labeler.isRecentlyCreated Date_parse (recentThreshold now) task
     = Maintainer.isRecentlyCreated Date_parse (recentThreshold now) task
  /\ Labeler.isRecentlyUpdated Date_parse (recentThreshold now) task
     = Maintainer.isRecentlyUpdated Date_parse (recentThreshold now) task.
Proof.
  intros H.
  pose proof (createdDate_instant _ _ _ _ H) as Hc.
  pose proof (updatedDate_instant _ _ _ _ H) as Hu.
  split; [| split; [| split; [| split; reflexivity]]];
    unfold Maintainer.isRecentlyCreated, Maintainer.isRecentlyUpdated;
    rewrite ?Hc, ?Hu;
    unfold recentThreshold, RECENT_THRESHOLD_HOURS, threshold_ms;
    simpl JS.Date_ge; simpl JS.getTime_neq.
  - rewrite Z.leb_le. lia.
  - split.
    + intros E. apply andb_true_iff in E. destruct E as [E1 E2].
      apply Z.leb_le in E1. apply negb_true_iff, Z.eqb_neq in E2.
      destruct m as [m' |]; [| congruence].
      exists m'. repeat split; [lia | assumption].
    + intros [m' [-> [E1 E2]]]. apply andb_true_iff. split.
      * apply Z.leb_le. lia.
      * now apply negb_true_iff, Z.eqb_neq.
  - intros ->. rewrite Z.eqb_refl. apply andb_false_r.
Qed.

(** A task created 30 h and modified 1 h before [Sample.now]. *)
Lemma recency_decision_spec_witness :
  Maintainer.isRecentlyCreated Sample.Date_parse (recentThreshold Sample.now)
    (Sample.mkTask "t1" (Some "2025-03-01T00:00:00Z")
                   (Some "2025-03-02T05:00:00Z") []) = false
  /\ Maintainer.isRecentlyUpdated Sample.Date_parse (recentThreshold Sample.now)
    (Sample.mkTask "t1" (Some "2025-03-01T00:00:00Z")
                   (Some "2025-03-02T05:00:00Z") []) = true.
Proof.
  destruct (recency_decision_spec Sample.Date_parse Sample.now
              (Sample.mkTask "t1" (Some "2025-03-01T00:00:00Z")
                             (Some "2025-03-02T05:00:00Z") [])
              1740787200000 (Some 1740891600000)) as [Hc [Hu _]].
  - split; [exists "2025-03-01T00:00:00Z"; split; reflexivity | reflexivity].
  - split.
    + destruct (Maintainer.isRecentlyCreated Sample.Date_parse
                  (recentThreshold Sample.now)
                  (Sample.mkTask "t1" (Some "2025-03-01T00:00:00Z")
                                 (Some "2025-03-02T05:00:00Z") [])) eqn:E;
        [| reflexivity].
      exfalso. apply proj1 in Hc. specialize (Hc eq_refl).
      unfold threshold_ms, Sample.now in Hc. lia.
    + apply Hu. exists 1740891600000.
      unfold threshold_ms, Sample.now. repeat split; lia.
Defined.

(** The boundary: exactly 24 h after creation the task still counts as
    recently created, one millisecond later it no longer does. *)
Example recently_created_boundary :
  Maintainer.isRecentlyCreated Sample.Date_parse (recentThreshold Sample.now)
    (Sample.mkTask "t1" (Some "2025-03-01T06:00:00Z") None []) = true
  /\ Maintainer.isRecentlyCreated Sample.Date_parse
       (recentThreshold (Sample.now + 1))
       (Sample.mkTask "t1" (Some "2025-03-01T06:00:00Z") None []) = false.
Proof. split; reflexivity. Qed.

(* ================================================================= *)
(** ** The label edit *)

(** C5, as stated, fails: with the name twice in the list, each removal
    takes out one occurrence, so a second removal changes the list again. *)
Lemma editLabel_twice_differs_on_duplicates :
  ~ (forall (l : list string) (name : string) (present : bool),
        Labeler.editLabel (Labeler.editLabel l name present) name present
        = Labeler.editLabel l name present).
Proof.
  intros H.
  specialize (H [RECENTLY_CREATED_LABEL; RECENTLY_CREATED_LABEL]
                RECENTLY_CREATED_LABEL false).
  vm_compute in H. discriminate H.
Qed.

(** C5, amended. Applying the edit [(name, present)] twice gives the same
    list as applying it once whenever the label is to be present, or the
    list holds the name at most once. *)
Theorem editLabel_idempotent (l : list string) (name : string) (present : bool) :
  present = true \/ (occurrences name l <= 1)%nat ->
  Labeler.editLabel (Labeler.editLabel l name present) name present
  = Labeler.editLabel l name present.
Proof.
  intros H. destruct present.
  - rewrite !editLabel_add. destruct (JS.includes l name) eqn:E.
    + now rewrite E.
    + replace (JS.includes (JS.push l name) name) with true; [reflexivity |].
      symmetry. apply includes_In. unfold JS.push. apply in_or_app. right. now left.
  - destruct H as [H | H]; [discriminate |].
    rewrite !editLabel_remove. destruct (JS.includes l name) eqn:E.
    + replace (JS.includes (remove_first name l) name) with false; [reflexivity |].
      symmetry. apply includes_false. rewrite occurrences_In.
      rewrite occurrences_remove_first_same. lia.
    + now rewrite E.
Qed.

Lemma editLabel_idempotent_witness :
  Labeler.editLabel
    (Labeler.editLabel ["work"; RECENTLY_CREATED_LABEL; "home"]
                       RECENTLY_CREATED_LABEL false)
    RECENTLY_CREATED_LABEL false
  = Labeler.editLabel ["work"; RECENTLY_CREATED_LABEL; "home"]
                      RECENTLY_CREATED_LABEL false.
Proof.
  apply (editLabel_idempotent ["work"; RECENTLY_CREATED_LABEL; "home"]
           RECENTLY_CREATED_LABEL false).
  right. vm_compute. lia.
Defined.

(* ================================================================= *)
(** ** Running the client code *)

Lemma bind_inv {A B} (m : M A) (k : A -> M B) (w : World) r w' :
  bind m k w = (r, w') ->
  (exists a w1, m w = (Ok a, w1) /\ k a w1 = (r, w'))
  \/ (exists e, m w = (Throw e, w') /\ r = Throw e).
Proof.
  unfold bind. destruct (m w) as [[a | e] w1]; intros H.
  - left. now exists a, w1.
  - right. exists e. now inversion H.
Qed.

Lemma request_inv {A} (c : Call) (serve : M A) (w : World) r w' :
  Api.request c serve w = (r, w') ->
  (hd false (faults w) = true /\ r = Throw (ApiError c) /\ w' = Api.sent c w)
  \/ (hd false (faults w) = false /\ serve (Api.sent c w) = (r, w')).
Proof.
  unfold Api.request. destruct (hd false (faults w)); intros H.
  - left. now inversion H.
  - right. now split.
Qed.

(** A handler that returns a value makes the whole [try] return. *)
Lemma try_catch_returns {A} (m : M A) (h : Error -> A) (w : World) :
  exists a w', try_catch m (fun e => ret (h e)) w = (Ok a, w').
Proof.
  unfold try_catch, ret. destruct (m w) as [[a | e] w1]; eauto.
Qed.

Lemma find_label_name (name : string) (labels : list Label.t) (label : Label.t) :
  Webhook.find_label name labels = Some label -> Label.name label = name.
Proof.
  unfold Webhook.find_label. intros H. apply find_some in H.
  destruct H as [_ H]. now apply String.eqb_eq in H.
Qed.

Lemma find_label_none (name : string) (labels : list Label.t) :
  Webhook.find_label name labels = None <->
  (forall label, In label labels -> Label.name label <> name).
Proof.
  unfold Webhook.find_label. split.
  - intros H label Hin E.
    pose proof (find_none _ _ H label Hin) as F. simpl in F.
    rewrite E, String.eqb_refl in F. discriminate.
  - intros H. destruct (find _ labels) as [label |] eqn:E; [| reflexivity].
    apply find_some in E. destruct E as [Hin E]. apply String.eqb_eq in E.
    now elim (H label Hin).
Qed.

(** Resolving the two labels never touches a task and never updates one;
    the labels it returns carry the two recency names. *)
Lemma ensureLabelsExist_frame (token : option string) (w : World) r w' :
  Webhook.ensureLabelsExist token w = (r, w') ->
  store_tasks w' = store_tasks w
  /\ (exists cs, calls w' = calls w ++ cs /\ existsb is_update cs = false)
  /\ match r with
     | Ok (created, updated) =>
         Label.name created = RECENTLY_CREATED_LABEL
         /\ Label.name updated = RECENTLY_UPDATED_LABEL
     | Throw _ => True
     end.
Proof.
  unfold Webhook.ensureLabelsExist.
  destruct (negb (Webhook.api token)).
  { intros H. inversion H; subst. repeat split.
    exists []. now rewrite app_nil_r. }
  unfold Api.getLabels, Api.addLabel, Api.request, bind, ret, throw.
  destruct (hd false (faults w)).
  { intros H. inversion H; subst. simpl. repeat split. now exists [GetLabels]. }
  cbn [store_labels Api.sent].
  destruct (Webhook.find_label RECENTLY_CREATED_LABEL (store_labels w))
    as [created |] eqn:Ec;
  destruct (Webhook.find_label RECENTLY_UPDATED_LABEL (store_labels w))
    as [updated |] eqn:Eu; cbn.
  - intros H. inversion H; subst. cbn. repeat split.
    + now exists [GetLabels].
    + now apply find_label_name in Ec.
    + now apply find_label_name in Eu.
  - destruct (hd false (tl (faults w))); intros H; inversion H; subst; cbn;
      repeat split;
      try (exists [GetLabels; AddLabel RECENTLY_UPDATED_LABEL];
           split; [now rewrite <- app_assoc | reflexivity]).
    now apply find_label_name in Ec.
  - destruct (hd false (tl (faults w))); intros H; inversion H; subst; cbn;
      repeat split;
      try (exists [GetLabels; AddLabel RECENTLY_CREATED_LABEL];
           split; [now rewrite <- app_assoc | reflexivity]).
    now apply find_label_name in Eu.
  - destruct (hd false (tl (faults w))); cbn.
    { intros H; inversion H; subst; cbn. repeat split.
      exists [GetLabels; AddLabel RECENTLY_CREATED_LABEL].
      split; [now rewrite <- app_assoc | reflexivity]. }
    destruct (hd false (tl (tl (faults w)))); intros H; inversion H; subst; cbn;
      repeat split;
      exists [GetLabels; AddLabel RECENTLY_CREATED_LABEL;
              AddLabel RECENTLY_UPDATED_LABEL];
      (split; [now rewrite <- !app_assoc | reflexivity]).
Qed.

(* ================================================================= *)
(** ** The webhook service only adds *)

Lemma keeps_labels_refl (tasks : list Task.t) : keeps_labels tasks tasks.
Proof.
  induction tasks as [| t tasks IH]; constructor; [| exact IH].
  split; [reflexivity | exists []; now rewrite app_nil_r].
Qed.

Lemma keeps_labels_replace (id : string) (added : list string)
    (tasks : list Task.t) (task : Task.t) :
  Api.find_task id tasks = Some task ->
  keeps_labels tasks (Api.replace_labels id (Task.labels task ++ added) tasks).
Proof.
  unfold Api.find_task.
  induction tasks as [| t tasks IH]; simpl; [discriminate |].
  destruct (Task.id t =? id)%string.
  - intros E. injection E as ->. constructor; [| apply keeps_labels_refl].
    split; [reflexivity | now exists added].
  - intros E. constructor; [| now apply IH].
    split; [reflexivity | exists []; now rewrite app_nil_r].
Qed.

Lemma adds_only_refl (name taskId : string) (w : World) : adds_only name taskId w w.
Proof.
  exists []. rewrite app_nil_r.
  split; [reflexivity | split; [intros ? ? [] | now left]].
Qed.

Lemma appendLabel_adds_only (name taskId : string) (w : World) :
  adds_only name taskId w (snd (appendLabel name taskId w)).
Proof.
  assert (Hread : forall w', store_tasks w' = store_tasks w ->
                             calls w' = calls w ++ [GetTask taskId] ->
                             adds_only name taskId w w').
  { intros w' Et Ec. exists [GetTask taskId].
    split; [exact Ec | split; [| now left]].
    intros id ls [H | []]. discriminate. }
  unfold appendLabel, Api.getTask, Api.updateTask, Api.request, bind, ret.
  destruct (hd false (faults w)); cbn; [now apply Hread |].
  destruct (Api.find_task taskId (store_tasks w)) as [task |] eqn:Ef; cbn;
    [| now apply Hread].
  destruct (JS.includes (Task.labels task) name) eqn:Ei; cbn;
    [now apply Hread |].
  assert (Hwrite : forall id ls,
             In (UpdateTask id ls)
                [GetTask taskId; UpdateTask taskId (Task.labels task ++ [name])] ->
             id = taskId
             /\ exists task0, Api.find_task taskId (store_tasks w) = Some task0
                              /\ ls = Task.labels task0 ++ [name]).
  { intros id ls [H | [H | []]]; [discriminate |]. injection H as <- <-.
    split; [reflexivity | now exists task]. }
  destruct (hd false (tl (faults w))); cbn; rewrite ?Ef; cbn;
    exists [GetTask taskId; UpdateTask taskId (Task.labels task ++ [name])];
    (split; [cbn; now rewrite <- app_assoc |]); (split; [exact Hwrite |]).
  - now left.
  - right. now exists task.
Qed.

Lemma existsb_is_update_false (cs : list Call) (id : string) (ls : list string) :
  existsb is_update cs = false -> ~ In (UpdateTask id ls) cs.
Proof.
  intros H Hin.
  assert (existsb is_update cs = true) as E
    by (apply existsb_exists; now exists (UpdateTask id ls)).
  congruence.
Qed.

(** The two functions that add a label, for a started client: they return,
    whatever fails, and they only add their label. *)
Lemma add_label_run (token : option string)
    (pick : Label.t * Label.t -> Label.t) (name taskId : string) (w : World) :
  (forall created updated,
      Label.name created = RECENTLY_CREATED_LABEL ->
      Label.name updated = RECENTLY_UPDATED_LABEL ->
      Label.name (pick (created, updated)) = name) ->
  let run :=
    try_catch
      (resolved <- Webhook.ensureLabelsExist token ;;
       appendLabel (Label.name (pick resolved)) taskId)
      (fun _ => ret tt) w in
  fst run = Ok tt /\ adds_only name taskId w (snd run).
Proof.
  intros Hpick. cbv zeta. unfold try_catch, bind.
  destruct (Webhook.ensureLabelsExist token w) as [[[created updated] | e] w1] eqn:E;
    apply ensureLabelsExist_frame in E; destruct E as [Et [[cs0 [Ec0 Hno]] Hn]].
  - destruct Hn as [Hc Hu]. rewrite (Hpick _ _ Hc Hu).
    pose proof (appendLabel_adds_only name taskId w1) as [cs [Ec [Hw Hs]]].
    destruct (appendLabel name taskId w1) as [[[] | e] w2]; cbn in *;
      (split; [reflexivity |]);
      exists (cs0 ++ cs); rewrite Ec, Ec0, Et in *; rewrite app_assoc;
      (split; [reflexivity |]); (split; [| exact Hs]);
      intros id ls Hin; apply in_app_or in Hin; destruct Hin as [Hin | Hin];
      try (now elim (existsb_is_update_false _ _ _ Hno Hin)); now apply Hw.
  - cbn. split; [reflexivity |]. exists cs0. rewrite Et. repeat split.
    + exact Ec0.
    + now elim (existsb_is_update_false _ _ _ Hno H).
    + now elim (existsb_is_update_false _ _ _ Hno H).
    + now left.
Qed.

Lemma addRecentlyCreatedLabel_run (token : option string) (taskId : string) (w : World) :
  (JS.truthy token = true ->
   fst (Webhook.addRecentlyCreatedLabel token taskId w) = Ok tt)
  /\ adds_only RECENTLY_CREATED_LABEL taskId w
       (snd (Webhook.addRecentlyCreatedLabel token taskId w)).
Proof.
  unfold Webhook.addRecentlyCreatedLabel, Webhook.api.
  destruct (JS.truthy token); cbn [negb].
  - split; [intros _ |];
      apply (add_label_run token fst RECENTLY_CREATED_LABEL taskId w); auto.
  - split; [discriminate | apply adds_only_refl].
Qed.

Lemma addRecentlyUpdatedLabel_run (token : option string) (taskId : string) (w : World) :
  (JS.truthy token = true ->
   fst (Webhook.addRecentlyUpdatedLabel token taskId w) = Ok tt)
  /\ adds_only RECENTLY_UPDATED_LABEL taskId w
       (snd (Webhook.addRecentlyUpdatedLabel token taskId w)).
Proof.
  unfold Webhook.addRecentlyUpdatedLabel, Webhook.api.
  destruct (JS.truthy token); cbn [negb].
  - split; [intros _ |];
      apply (add_label_run token snd RECENTLY_UPDATED_LABEL taskId w); auto.
  - split; [discriminate | apply adds_only_refl].
Qed.

Lemma adds_only_keeps_labels (name taskId : string) (w w' : World) :
  adds_only name taskId w w' ->
  keeps_labels (store_tasks w) (store_tasks w')
  /\ exists cs,
       calls w' = calls w ++ cs
       /\ forall id ls, In (UpdateTask id ls) cs ->
            exists task added,
              Api.find_task id (store_tasks w) = Some task
              /\ ls = Task.labels task ++ added.
Proof.
  intros [cs [Ec [Hw Hs]]]. split.
  - destruct Hs as [-> | [task [Ef [_ ->]]]].
    + apply keeps_labels_refl.
    + now apply keeps_labels_replace.
  - exists cs. split; [exact Ec |]. intros id ls Hin.
    destruct (Hw id ls Hin) as [-> [task [Ef ->]]]. now exists task, [name].
Qed.

Lemma handleWebhook_run (token : option string)
    (payload : Webhook.WebhookPayload) (w : World) :
  (JS.truthy token = true ->
   fst (Webhook.handleWebhook token (Webhook.Payload payload) w) = Ok tt)
  /\ exists name,
       adds_only name (Task.id (Webhook.event_data payload)) w
                 (snd (Webhook.handleWebhook token (Webhook.Payload payload) w)).
Proof.
  unfold Webhook.handleWebhook.
  destruct (Webhook.event_name payload =? "item:added")%string.
  { destruct (addRecentlyCreatedLabel_run token
                (Task.id (Webhook.event_data payload)) w) as [H1 H2].
    split; [exact H1 | now exists RECENTLY_CREATED_LABEL]. }
  destruct (Webhook.event_name payload =? "item:updated")%string.
  2:{ split; [reflexivity | exists EmptyString; apply adds_only_refl]. }
  match goal with |- context [if ?b then _ else _] => destruct b end.
  - destruct (addRecentlyUpdatedLabel_run token
                (Task.id (Webhook.event_data payload)) w) as [H1 H2].
    split; [exact H1 | now exists RECENTLY_UPDATED_LABEL].
  - split; [reflexivity | exists EmptyString; apply adds_only_refl].
Qed.

(** C3. Handling a webhook event never removes a label, whatever the parsed
    body is: every task of the store keeps the labels it had, in their
    order, and every update the handler sends carries the labels the task
    had, with labels only added at the end. *)
Theorem webhook_never_removes_labels (token : option string)
    (payload : Webhook.Json) (w : World) :
  keeps_labels (store_tasks w)
               (store_tasks (snd (Webhook.handleWebhook token payload w)))
  /\ exists cs,
       calls (snd (Webhook.handleWebhook token payload w)) = calls w ++ cs
       /\ forall id ls, In (UpdateTask id ls) cs ->
            exists task added,
              Api.find_task id (store_tasks w) = Some task
              /\ ls = Task.labels task ++ added.
Proof.
  destruct payload as [| payload].
  - cbn. split; [apply keeps_labels_refl |].
    exists []. rewrite app_nil_r. split; [reflexivity | intros id ls []].
  - destruct (handleWebhook_run token payload w) as [_ [name H]].
    exact (adds_only_keeps_labels _ _ _ _ H).
Qed.

(** The sweep, on the other hand, does take a present label away: a task
    created 30 h ago loses "recently created" and keeps "work". *)
Example sweep_removes_stale_label :
  Sample.labelsOf "t1"
    (snd (Maintainer.main Sample.token Sample.Date_parse Sample.now
            (Sample.world Sample.bothLabels
               [Sample.mkTask "t1" (Some "2025-03-01T00:00:00Z") None
                              [RECENTLY_CREATED_LABEL; "work"]] [])))
  = Some ["work"].
Proof. reflexivity. Qed.

(* ================================================================= *)
(** ** The update-intent guard *)

(** C8, as stated, fails: an intent that is present and is not
    ["item_updated"] can still add the label, namely the empty string. *)
Lemma empty_update_intent_adds_label :
  ~ (forall (token : option string) (payload : Webhook.WebhookPayload) (w : World),
        Webhook.event_name payload = "item:updated" ->
        Webhook.updateIntent_of payload <> None ->
        Webhook.updateIntent_of payload <> Some "item_updated" ->
        store_tasks (snd (Webhook.handleWebhook token (Webhook.Payload payload) w))
        = store_tasks w).
Proof.
  intros H.
  specialize (H Sample.token
                (Webhook.mkPayload "item:updated"
                   (Sample.mkTask "t1" (Some "2025-03-01T00:00:00Z")
                                  (Some "2025-03-02T05:00:00Z") [])
                   (Some (Webhook.mkExtra None (Some EmptyString))))
                (Sample.world Sample.bothLabels
                   [Sample.mkTask "t1" (Some "2025-03-01T00:00:00Z")
                                  (Some "2025-03-02T05:00:00Z") []] [])
                eq_refl).
  cbv in H. assert (E := H ltac:(discriminate) ltac:(discriminate)).
  discriminate E.
Qed.

(** C8, amended. For an item-updated event: when the update intent is
    absent, empty or ["item_updated"], the handler does what
    [addRecentlyUpdatedLabel] does, which only appends "recently updated" to
    the task of the event; for every other intent it returns without a
    request and without a change. *)
Theorem item_updated_intent_guard (token : option string)
    (payload : Webhook.WebhookPayload) (w : World) :
  Webhook.event_name payload = "item:updated" ->
  if qualifies (Webhook.updateIntent_of payload) then
    Webhook.handleWebhook token (Webhook.Payload payload) w
    = Webhook.addRecentlyUpdatedLabel token
        (Task.id (Webhook.event_data payload)) w
    /\ adds_only RECENTLY_UPDATED_LABEL (Task.id (Webhook.event_data payload))
                 w (snd (Webhook.handleWebhook token (Webhook.Payload payload) w))
  else Webhook.handleWebhook token (Webhook.Payload payload) w = (Ok tt, w).
Proof.
  intros E. unfold Webhook.handleWebhook. rewrite E. cbn [String.eqb].
  replace ("item:updated" =? "item:added")%string with false by reflexivity.
  replace ("item:updated" =? "item:updated")%string with true by reflexivity.
  unfold qualifies, JS.truthy.
  destruct (Webhook.updateIntent_of payload) as [s |]; cbn [negb orb].
  - destruct (s =? EmptyString)%string; cbn [negb orb].
    + split; [reflexivity | apply addRecentlyUpdatedLabel_run].
    + destruct (s =? "item_updated")%string.
      * split; [reflexivity | apply addRecentlyUpdatedLabel_run].
      * reflexivity.
  - split; [reflexivity | apply addRecentlyUpdatedLabel_run].
Qed.

(** A recurring task completed: the intent is ["item_completed"], and the
    handler leaves the world as it is. *)
Lemma item_updated_intent_guard_witness :
  Webhook.handleWebhook Sample.token
    (Webhook.Payload
       (Webhook.mkPayload "item:updated"
          (Sample.mkTask "t1" (Some "2025-03-01T00:00:00Z")
                         (Some "2025-03-02T05:00:00Z") [])
          (Some (Webhook.mkExtra None (Some "item_completed")))))
    (Sample.world Sample.bothLabels
       [Sample.mkTask "t1" (Some "2025-03-01T00:00:00Z")
                      (Some "2025-03-02T05:00:00Z") []] [])
  = (Ok tt,
     Sample.world Sample.bothLabels
       [Sample.mkTask "t1" (Some "2025-03-01T00:00:00Z")
                      (Some "2025-03-02T05:00:00Z") []] []).
Proof.
  exact (item_updated_intent_guard Sample.token
           (Webhook.mkPayload "item:updated"
              (Sample.mkTask "t1" (Some "2025-03-01T00:00:00Z")
                             (Some "2025-03-02T05:00:00Z") [])
              (Some (Webhook.mkExtra None (Some "item_completed"))))
           (Sample.world Sample.bothLabels
              [Sample.mkTask "t1" (Some "2025-03-01T00:00:00Z")
                             (Some "2025-03-02T05:00:00Z") []] [])
           eq_refl).
Defined.

(** Scenario A: a task just created, without labels, gets
    "recently created"; the two labels are created on the way. *)
Example item_added_gets_recently_created :
  Webhook.handleWebhook Sample.token (Webhook.Payload Sample.addedPayload)
    (Sample.world [] [Sample.mkTask "t1" (Some "2025-03-02T06:00:00Z") None []] [])
  = (Ok tt,
     mkWorld
       [Label.mk "0" RECENTLY_CREATED_LABEL; Label.mk "1" RECENTLY_UPDATED_LABEL]
       [Sample.mkTask "t1" (Some "2025-03-02T06:00:00Z") None
                      [RECENTLY_CREATED_LABEL]]
       (fun _ _ => true) []
       [GetLabels; AddLabel RECENTLY_CREATED_LABEL;
        AddLabel RECENTLY_UPDATED_LABEL; GetTask "t1";
        UpdateTask "t1" [RECENTLY_CREATED_LABEL]]).
Proof. reflexivity. Qed.

(** Scenario C: a task created 30 h ago and updated by its user gets
    "recently updated" and nothing else. *)
Example item_updated_gets_recently_updated :
  Sample.labelsOf "t1"
    (snd (Webhook.handleWebhook Sample.token
            (Webhook.Payload
               (Webhook.mkPayload "item:updated"
                  (Sample.mkTask "t1" (Some "2025-03-01T00:00:00Z")
                                 (Some "2025-03-02T05:00:00Z") [])
                  (Some (Webhook.mkExtra None (Some "item_updated")))))
            (Sample.world Sample.bothLabels
               [Sample.mkTask "t1" (Some "2025-03-01T00:00:00Z")
                              (Some "2025-03-02T05:00:00Z") []] [])))
  = Some [RECENTLY_UPDATED_LABEL].
Proof. reflexivity. Qed.

(* ================================================================= *)
(** ** The HTTP handler *)




(* ================================================================= *)
(** ** Resolving the two labels *)

Lemma find_label_app (name : string) (l l' : list Label.t) :
  Webhook.find_label name (l ++ l') =
  match Webhook.find_label name l with
  | Some label => Some label
  | None => Webhook.find_label name l'
  end.
Proof.
  unfold Webhook.find_label. induction l as [| x l IH]; simpl; [reflexivity |].
  now destruct (Label.name x =? name)%string.
Qed.

(** C7, as stated, fails: the second resolution of a run sends a request
    again; nothing is kept from the first. *)
Lemma second_resolution_fetches_again :
  ~ (forall (token : option string) (w : World),
        let w1 := snd (Webhook.ensureLabelsExist token w) in
        calls (snd (Webhook.ensureLabelsExist token w1)) = calls w1).
Proof.
  intros H. specialize (H Sample.token (Sample.world [] [] [])).
  vm_compute in H. discriminate H.
Qed.

(** Runs a resolution symbolically, given what the store answers. *)
Ltac run_resolution Ht Ef Ec Eu :=
  unfold Webhook.ensureLabelsExist, Webhook.api;
  unfold Api.getLabels, Api.addLabel, Api.request, bind, ret;
  repeat progress
    (cbn [negb hd tl Api.sent Api.with_labels store_labels faults calls];
     rewrite ?Ht, ?Ef, ?find_label_app, ?Ec, ?Eu).

(** C7, amended. With no remote failure, a resolution fetches the label
    collection once and creates each of the two labels that is missing; a
    second resolution in the same run fetches the collection again, creates
    nothing, and returns the same two labels. *)
Theorem ensureLabelsExist_twice (token : option string) (w : World) :
  JS.truthy token = true ->
  faults w = [] ->
  exists created updated w1,
    Webhook.ensureLabelsExist token w = (Ok (created, updated), w1)
    /\ calls w1 = calls w ++ resolution_calls (store_labels w)
    /\ Label.name created = RECENTLY_CREATED_LABEL
    /\ Label.name updated = RECENTLY_UPDATED_LABEL
    /\ Webhook.ensureLabelsExist token w1
       = (Ok (created, updated), Api.sent GetLabels w1).
Proof.
  intros Ht Ef. unfold resolution_calls.
  destruct (Webhook.find_label RECENTLY_CREATED_LABEL (store_labels w))
    as [created |] eqn:Ec;
  destruct (Webhook.find_label RECENTLY_UPDATED_LABEL (store_labels w))
    as [updated |] eqn:Eu;
    eexists _, _, _;
    (split; [run_resolution Ht Ef Ec Eu; reflexivity |]);
    run_resolution Ht Ef Ec Eu; cbn;
    rewrite <- ?app_assoc; repeat split; eauto using find_label_name.
Qed.

(** Scenario E: no label at first; the first resolution creates both, the
    second one only fetches. *)
Lemma ensureLabelsExist_twice_witness :
  exists created updated w1,
    Webhook.ensureLabelsExist Sample.token (Sample.world [] [] [])
    = (Ok (created, updated), w1)
    /\ calls w1 = [GetLabels; AddLabel RECENTLY_CREATED_LABEL;
                   AddLabel RECENTLY_UPDATED_LABEL]
    /\ Label.name created = RECENTLY_CREATED_LABEL
    /\ Label.name updated = RECENTLY_UPDATED_LABEL
    /\ Webhook.ensureLabelsExist Sample.token w1
       = (Ok (created, updated), Api.sent GetLabels w1).
Proof.
  exact (ensureLabelsExist_twice Sample.token (Sample.world [] [] [])
           eq_refl eq_refl).
Defined.

(* ================================================================= *)
(** ** The cleanup job with no recency label in the store *)

(** C10. When the store has neither recency label and the fetch of the
    labels succeeds, the cleanup job returns normally having sent that one
    request: no label is created and no task is written. *)
Theorem cleanup_without_labels_does_nothing
    (token : option string) (Date_parse : string -> JS.Date) (now : Z) (w : World) :
  JS.truthy token = true ->
  hd false (faults w) = false ->
  (forall label, In label (store_labels w) ->
     Label.name label <> RECENTLY_CREATED_LABEL
     /\ Label.name label <> RECENTLY_UPDATED_LABEL) ->
  Maintainer.main token Date_parse now w = (Ok Returned, Api.sent GetLabels w)
  /\ store_labels (Api.sent GetLabels w) = store_labels w
  /\ store_tasks (Api.sent GetLabels w) = store_tasks w
  /\ calls (Api.sent GetLabels w) = calls w ++ [GetLabels].
Proof.
  intros Ht Hf Hnone. split; [| repeat split].
  assert (Ec : Webhook.find_label RECENTLY_CREATED_LABEL (store_labels w) = None)
    by (apply find_label_none; intros l Hl; now apply Hnone).
  assert (Eu : Webhook.find_label RECENTLY_UPDATED_LABEL (store_labels w) = None)
    by (apply find_label_none; intros l Hl; now apply Hnone).
  unfold Maintainer.main, Maintainer.api. rewrite Ht. cbn [negb].
  unfold try_catch, bind, Api.getLabels, Api.request, ret. rewrite Hf.
  cbn [store_labels Api.sent].
  change (Maintainer.find_label RECENTLY_CREATED_LABEL (store_labels w))
    with (Webhook.find_label RECENTLY_CREATED_LABEL (store_labels w)).
  change (Maintainer.find_label RECENTLY_UPDATED_LABEL (store_labels w))
    with (Webhook.find_label RECENTLY_UPDATED_LABEL (store_labels w)).
  rewrite Ec, Eu. reflexivity.
Qed.

Lemma cleanup_without_labels_does_nothing_witness :
  Maintainer.main Sample.token Sample.Date_parse Sample.now
    (Sample.world [Label.mk "7" "errands"]
       [Sample.mkTask "t1" (Some "2025-03-01T00:00:00Z") None ["errands"]] [])
  = (Ok Returned,
     Api.sent GetLabels
       (Sample.world [Label.mk "7" "errands"]
          [Sample.mkTask "t1" (Some "2025-03-01T00:00:00Z") None ["errands"]] [])).
Proof.
  apply (cleanup_without_labels_does_nothing Sample.token Sample.Date_parse
           Sample.now
           (Sample.world [Label.mk "7" "errands"]
              [Sample.mkTask "t1" (Some "2025-03-01T00:00:00Z") None ["errands"]]
              [])).
  - reflexivity.
  - reflexivity.
  - intros label [<- | []]. split; discriminate.
Defined.

(* ================================================================= *)
(** ** Timestamps that do not parse *)

Lemma for_of_returns {A S} (body : A -> S -> M S) :
  (forall x s w, exists s' w', body x s w = (Ok s', w')) ->
  forall l s w, exists s' w', for_of body l s w = (Ok s', w').
Proof.
  intros Hbody. induction l as [| x l IH]; intros s w; simpl.
  - now exists s, w.
  - unfold bind. destruct (Hbody x s w) as [s1 [w1 E]]. rewrite E. apply IH.
Qed.

Lemma cleanTask_returns Date_parse created updated threshold task n w :
  exists n' w',
    Maintainer.cleanTask Date_parse created updated threshold task n w = (Ok n', w').
Proof.
  unfold Maintainer.cleanTask.
  destruct (Maintainer.newLabels Date_parse created updated threshold task)
    as [labels labelsChanged].
  apply (try_catch_returns _ (fun _ => n)).
Qed.

Lemma updateOne_returns created updated info n w :
  exists n' w', Labeler.updateOne created updated info n w = (Ok n', w').
Proof. unfold Labeler.updateOne. apply (try_catch_returns _ (fun _ => n)). Qed.

(** C6, as stated, fails: a task whose creation timestamp does not parse
    is not skipped; the cleanup job takes it for a task that is no longer
    recent and writes its labels without "recently created". *)
Lemma unparseable_task_is_cleaned_not_skipped :
  ~ (forall (token : option string) (Date_parse : string -> JS.Date) (now : Z)
            (w : World) (task : Task.t) (ls : list string),
        In task (store_tasks w) ->
        Maintainer.createdDate Date_parse task = None ->
        ~ In (UpdateTask (Task.id task) ls)
             (calls (snd (Maintainer.main token Date_parse now w)))).
Proof.
  intros H.
  apply (H Sample.token Sample.Date_parse Sample.now
           (Sample.world Sample.bothLabels
              [Sample.mkTask "t1" (Some "yesterday") None
                             [RECENTLY_CREATED_LABEL; "work"]] [])
           (Sample.mkTask "t1" (Some "yesterday") None
                          [RECENTLY_CREATED_LABEL; "work"])
           ["work"]).
  - now left.
  - reflexivity.
  - vm_compute. tauto.
Qed.

(** C6, amended. A creation timestamp that does not parse raises no error:
    the task is simply not recently created, and not recently updated either
    when its modification date does not parse; a task that holds
    "recently created" is then queued for cleanup like any stale task.  The
    batch goes on: the update loops of both jobs return for every list of
    tasks, whatever fails for one of them. *)
Theorem unparseable_timestamp_is_not_recent
    (Date_parse : string -> JS.Date) (threshold : JS.Date) (task : Task.t) :
  Maintainer.createdDate Date_parse task = None ->
  Maintainer.isRecentlyCreated Date_parse threshold task = false
  /\ Labeler.isRecentlyCreated Date_parse threshold task = false
  /\ (Maintainer.updatedDate Date_parse task = None ->
      Maintainer.isRecentlyUpdated Date_parse threshold task = false
      /\ Labeler.isRecentlyUpdated Date_parse threshold task = false)
  /\ (forall created updated,
        Maintainer.currentlyHas created task = true ->
        Maintainer.shouldRemoveLabels Date_parse created updated threshold task
        = true)
  /\ (forall created updated tasks n w,
        exists n' w',
          for_of (Maintainer.cleanTask Date_parse created updated threshold)
                 tasks n w = (Ok n', w'))
  /\ (forall created updated infos n w,
        exists n' w',
          for_of (Labeler.updateOne created updated) infos n w = (Ok n', w')).
Proof.
  intros Hc.
  assert (E : Maintainer.isRecentlyCreated Date_parse threshold task = false)
    by (unfold Maintainer.isRecentlyCreated; now rewrite Hc).
  repeat apply conj.
  - exact E.
  - exact E.
  - intros Hu.
    assert (E' : Maintainer.isRecentlyUpdated Date_parse threshold task = false)
      by (unfold Maintainer.isRecentlyUpdated; now rewrite Hu).
    split; exact E'.
  - intros created updated Hhas. unfold Maintainer.shouldRemoveLabels.
    rewrite Hhas, E. cbn. now destruct (_ && _).
  - intros created updated. apply for_of_returns. intros x s w.
    apply cleanTask_returns.
  - intros created updated. apply for_of_returns. intros x s w.
    apply updateOne_returns.
Qed.

Lemma unparseable_timestamp_is_not_recent_witness :
  Maintainer.isRecentlyCreated Sample.Date_parse (recentThreshold Sample.now)
    (Sample.mkTask "t1" (Some "yesterday") None [RECENTLY_CREATED_LABEL; "work"])
  = false.
Proof.
  exact (proj1 (unparseable_timestamp_is_not_recent Sample.Date_parse
                  (recentThreshold Sample.now)
                  (Sample.mkTask "t1" (Some "yesterday") None
                                 [RECENTLY_CREATED_LABEL; "work"])
                  eq_refl)).
Defined.

(* ================================================================= *)
(** ** Labels other than the two recency labels *)

(** The positional edits keep the other labels as they stand: in the
    cleanup job ... *)
Lemma maintainer_newLabels_keeps_others Date_parse created updated threshold task :
  (forall l, created = Some l -> Label.name l = RECENTLY_CREATED_LABEL) ->
  (forall l, updated = Some l -> Label.name l = RECENTLY_UPDATED_LABEL) ->
  otherLabels (fst (Maintainer.newLabels Date_parse created updated threshold task))
  = otherLabels (Task.labels task).
Proof.
  intros Hc Hu. unfold Maintainer.newLabels.
  assert (Hstep : forall label nm recent st,
             (forall l, label = Some l -> Label.name l = nm) ->
             isRecencyName nm = true ->
             otherLabels (fst (Maintainer.removeStale label recent st))
             = otherLabels (fst st)).
  { intros label nm recent [l b] Hl Hn. unfold Maintainer.removeStale.
    destruct label as [lab |]; [| reflexivity].
    rewrite (Hl lab eq_refl).
    destruct (JS.includes l nm) eqn:Ei; [| reflexivity].
    destruct recent; [reflexivity |]. cbn [negb fst].
    rewrite (splice1_indexOf _ _ Ei). apply filter_remove_first.
    now rewrite Hn. }
  rewrite (Hstep updated RECENTLY_UPDATED_LABEL) by (auto || reflexivity).
  now rewrite (Hstep created RECENTLY_CREATED_LABEL) by (auto || reflexivity).
Qed.

(** ... in the add-and-remove job, up to the comparison that sorts the
    list ... *)
Lemma labeler_newLabels_keeps_others created updated info :
  Label.name created = RECENTLY_CREATED_LABEL ->
  Label.name updated = RECENTLY_UPDATED_LABEL ->
  otherLabels (Labeler.newLabels created updated info)
  = otherLabels (Task.labels (Labeler.task info)).
Proof.
  intros Hc Hu. unfold Labeler.newLabels, otherLabels. rewrite Hc, Hu.
  now rewrite !editLabel_filter by reflexivity.
Qed.

(** ... and in the webhook service. *)
Lemma adds_only_keeps_others (name taskId : string) (w w' : World) :
  isRecencyName name = true ->
  adds_only name taskId w w' ->
  forall id ls, In (UpdateTask id ls) (calls w') ->
    In (UpdateTask id ls) (calls w)
    \/ exists task, Api.find_task id (store_tasks w) = Some task
                    /\ otherLabels ls = otherLabels (Task.labels task).
Proof.
  intros Hn [cs [Ec [Hw _]]] id ls Hin. rewrite Ec in Hin.
  apply in_app_or in Hin. destruct Hin as [Hin | Hin]; [now left | right].
  destruct (Hw id ls Hin) as [-> [task [Ef ->]]]. exists task.
  split; [exact Ef |]. apply (filter_push _ name). now rewrite Hn.
Qed.

(** C4 (the list written keeps the non-recency labels in their relative
    order) at a failing input.  A task created an hour ago holds "work",
    "home": the add-and-remove job sends the label list sorted, so the other
    labels are written as "home", "work". *)
Theorem labeler_write_reorders_other_labels :
  calls (snd (Labeler.main Sample.token Sample.Date_parse Sample.now
                (Sample.world Sample.bothLabels
                   [Sample.mkTask "t1" (Some "2025-03-02T05:00:00Z") None
                                  ["work"; "home"]] [])))
  = [GetLabels; GetTasks RECENTLY_CREATED_LABEL; GetTasks RECENTLY_UPDATED_LABEL;
     GetTasksByFilter "created after: -7 days";
     UpdateTask "t1" ["home"; RECENTLY_CREATED_LABEL; "work"]]
  /\ otherLabels ["home"; RECENTLY_CREATED_LABEL; "work"] = ["home"; "work"]
  /\ otherLabels ["work"; "home"] = ["work"; "home"].
Proof. repeat split. Qed.

(* ================================================================= *)
(** ** Labels against the recency decision *)

(** C1, as stated, fails on the reactive path: a task created 30 h ago that
    still holds "recently created" is updated; the handler returns normally
    and leaves both labels, while the decision wants "recently updated" only. *)
Lemma webhook_labels_differ_from_decision :
  ~ (forall (token : option string) (Date_parse : string -> JS.Date) (now : Z)
            (payload : Webhook.WebhookPayload) (w : World) (task' : Task.t),
        fst (Webhook.handleWebhook token (Webhook.Payload payload) w) = Ok tt ->
        Api.find_task (Task.id (Webhook.event_data payload))
          (store_tasks
             (snd (Webhook.handleWebhook token (Webhook.Payload payload) w)))
        = Some task' ->
        decided Date_parse now task' (Task.labels task')).
Proof.
  intros H.
  destruct (H Sample.token Sample.Date_parse Sample.now
              (Webhook.mkPayload "item:updated"
                 (Sample.mkTask "t1" (Some "2025-03-01T00:00:00Z")
                                (Some "2025-03-02T05:00:00Z")
                                [RECENTLY_CREATED_LABEL])
                 (Some (Webhook.mkExtra None (Some "item_updated"))))
              (Sample.world Sample.bothLabels
                 [Sample.mkTask "t1" (Some "2025-03-01T00:00:00Z")
                                (Some "2025-03-02T05:00:00Z")
                                [RECENTLY_CREATED_LABEL]] [])
              (Sample.mkTask "t1" (Some "2025-03-01T00:00:00Z")
                             (Some "2025-03-02T05:00:00Z")
                             [RECENTLY_CREATED_LABEL; RECENTLY_UPDATED_LABEL])
              eq_refl eq_refl) as [Hc _].
  assert (E : Labeler.isRecentlyCreated Sample.Date_parse
                (recentThreshold Sample.now)
                (Sample.mkTask "t1" (Some "2025-03-01T00:00:00Z")
                               (Some "2025-03-02T05:00:00Z")
                               [RECENTLY_CREATED_LABEL; RECENTLY_UPDATED_LABEL])
              = true)
    by (apply Hc; now left).
  vm_compute in E. discriminate E.
Qed.

Lemma occurrences_sort (x : string) (l : list string) :
  occurrences x (JS.sort l) = occurrences x l.
Proof.
  unfold occurrences. apply Permutation_count_occ. apply sort_Permutation.
Qed.

Lemma includes_occurrences (l : list string) (x : string) :
  JS.includes l x = negb (occurrences x l =? 0)%nat.
Proof.
  destruct (JS.includes l x) eqn:E.
  - apply includes_In, occurrences_In in E.
    symmetry. apply negb_true_iff, Nat.eqb_neq. lia.
  - apply includes_false in E. rewrite occurrences_In in E.
    symmetry. apply negb_false_iff, Nat.eqb_eq. lia.
Qed.

Lemma recency_names_differ : RECENTLY_CREATED_LABEL <> RECENTLY_UPDATED_LABEL.
Proof. discriminate. Qed.

(** Occurrences of the two recency names in the list the job builds. *)
Lemma newLabels_occurrences created updated info :
  Label.name created = RECENTLY_CREATED_LABEL ->
  Label.name updated = RECENTLY_UPDATED_LABEL ->
  occurrences RECENTLY_CREATED_LABEL (Labeler.newLabels created updated info)
  = (if Labeler.shouldHaveCreatedLabel info
     then Nat.max 1 (occurrences RECENTLY_CREATED_LABEL
                                 (Task.labels (Labeler.task info)))
     else pred (occurrences RECENTLY_CREATED_LABEL
                            (Task.labels (Labeler.task info))))
  /\ occurrences RECENTLY_UPDATED_LABEL (Labeler.newLabels created updated info)
     = (if Labeler.shouldHaveUpdatedLabel info
        then Nat.max 1 (occurrences RECENTLY_UPDATED_LABEL
                                    (Task.labels (Labeler.task info)))
        else pred (occurrences RECENTLY_UPDATED_LABEL
                               (Task.labels (Labeler.task info)))).
Proof.
  intros Hc Hu. unfold Labeler.newLabels. rewrite Hc, Hu. split.
  - rewrite editLabel_other by (intro E; now apply recency_names_differ).
    apply editLabel_same.
  - rewrite editLabel_same.
    now rewrite editLabel_other by apply recency_names_differ.
Qed.

(** A task found to need a change always gets its update: the sorted new
    list differs from the sorted old one. *)
Lemma needsChange_lists_differ Date_parse created updated threshold task :
  Label.name created = RECENTLY_CREATED_LABEL ->
  Label.name updated = RECENTLY_UPDATED_LABEL ->
  let info := Labeler.inspect Date_parse created updated threshold task in
  Labeler.needsChange info = true ->
  JS.stringify_neq (JS.sort (Labeler.newLabels created updated info))
                   (JS.sort (Task.labels task)) = true.
Proof.
  intros Hc Hu info En.
  destruct (newLabels_occurrences created updated info Hc Hu) as [Nc Nu].
  unfold JS.stringify_neq. apply negb_true_iff.
  destruct (JS.array_eqb _ _) eqn:Eq; [| reflexivity]. exfalso.
  apply array_eqb_eq in Eq.
  assert (Qc := f_equal (occurrences RECENTLY_CREATED_LABEL) Eq).
  assert (Qu := f_equal (occurrences RECENTLY_UPDATED_LABEL) Eq).
  rewrite !occurrences_sort in Qc, Qu. rewrite Nc in Qc. rewrite Nu in Qu.
  unfold Labeler.needsChange in En. subst info. cbn in En, Qc, Qu.
  rewrite Hc, Hu, !includes_occurrences in En.
  destruct (Labeler.isRecentlyCreated Date_parse threshold task),
           (Labeler.isRecentlyUpdated Date_parse threshold task),
           (occurrences RECENTLY_CREATED_LABEL (Task.labels task)) as [| ?],
           (occurrences RECENTLY_UPDATED_LABEL (Task.labels task)) as [| ?];
    cbn in *; try discriminate; lia.
Qed.

(** The list left for an inspected task agrees with the decision, when the
    task holds each recency name at most once. *)
Lemma labelsLeft_decided Date_parse now created updated task :
  Label.name created = RECENTLY_CREATED_LABEL ->
  Label.name updated = RECENTLY_UPDATED_LABEL ->
  (occurrences RECENTLY_CREATED_LABEL (Task.labels task) <= 1)%nat ->
  (occurrences RECENTLY_UPDATED_LABEL (Task.labels task) <= 1)%nat ->
  decided Date_parse now task (labelsLeft Date_parse now created updated task).
Proof.
  intros Hc Hu Oc Ou. unfold labelsLeft, decided.
  set (info := Labeler.inspect Date_parse created updated (recentThreshold now) task).
  destruct (newLabels_occurrences created updated info Hc Hu) as [Nc Nu].
  destruct (Labeler.needsChange info) eqn:En.
  - rewrite !sort_In, !occurrences_In, Nc, Nu. subst info.
    cbn [Labeler.shouldHaveCreatedLabel Labeler.shouldHaveUpdatedLabel
         Labeler.task Labeler.inspect].
    destruct (Labeler.isRecentlyCreated Date_parse (recentThreshold now) task),
             (Labeler.isRecentlyUpdated Date_parse (recentThreshold now) task);
      split; split; intros; try reflexivity; try discriminate; lia.
  - unfold Labeler.needsChange in En. subst info.
    cbn [Labeler.shouldHaveCreatedLabel Labeler.shouldHaveUpdatedLabel
         Labeler.currentlyHasCreatedLabel Labeler.currentlyHasUpdatedLabel
         Labeler.task Labeler.inspect] in En.
    rewrite Hc, Hu, !includes_occurrences in En. rewrite !occurrences_In.
    destruct (Labeler.isRecentlyCreated Date_parse (recentThreshold now) task),
             (Labeler.isRecentlyUpdated Date_parse (recentThreshold now) task),
             (occurrences RECENTLY_CREATED_LABEL (Task.labels task)) as [| ?],
             (occurrences RECENTLY_UPDATED_LABEL (Task.labels task)) as [| ?];
      cbn in En; try discriminate;
      split; split; intros; try reflexivity; try discriminate; lia.
Qed.

(** One turn of the update loop sends the update, or nothing when the
    sorted lists are equal; a failure of the update is swallowed. *)
Lemma updateOne_calls created updated info n w :
  calls (snd (Labeler.updateOne created updated info n w))
  = calls w
    ++ (if JS.stringify_neq (JS.sort (Labeler.newLabels created updated info))
                            (JS.sort (Task.labels (Labeler.task info)))
        then [UpdateTask (Task.id (Labeler.task info))
                         (JS.sort (Labeler.newLabels created updated info))]
        else []).
Proof.
  unfold Labeler.updateOne, try_catch.
  destruct (JS.stringify_neq _ _).
  - unfold bind, Api.updateTask, Api.request, ret.
    destruct (hd false (faults w)); [reflexivity |].
    now destruct (Api.find_task _ (store_tasks (Api.sent _ w))).
  - cbn. now rewrite app_nil_r.
Qed.

Lemma update_loop_calls Date_parse now created updated tasks :
  Label.name created = RECENTLY_CREATED_LABEL ->
  Label.name updated = RECENTLY_UPDATED_LABEL ->
  forall n w,
    calls (snd (for_of (Labeler.updateOne created updated)
                  (filter (Labeler.needsChange)
                     (map (Labeler.inspect Date_parse created updated
                             (recentThreshold now)) tasks))
                  n w))
    = calls w ++ updatesFor Date_parse now created updated tasks.
Proof.
  intros Hc Hu. unfold updatesFor.
  induction tasks as [| task tasks IH]; intros n w; cbn [map filter flat_map].
  - cbn. now rewrite app_nil_r.
  - destruct (Labeler.needsChange _) eqn:En; [| apply IH].
    cbn [for_of]. unfold bind.
    pose proof (updateOne_calls created updated
                  (Labeler.inspect Date_parse created updated
                     (recentThreshold now) task) n w) as Hcalls.
    cbn [Labeler.task Labeler.inspect] in Hcalls.
    fold (Labeler.inspect Date_parse created updated (recentThreshold now) task)
      in Hcalls.
    rewrite (needsChange_lists_differ _ _ _ _ _ Hc Hu En) in Hcalls.
    destruct (updateOne_returns created updated
                (Labeler.inspect Date_parse created updated
                   (recentThreshold now) task) n w) as [n1 [w1 E1]].
    rewrite E1 in *. cbn [snd] in Hcalls. rewrite IH, Hcalls, <- app_assoc.
    unfold labelsLeft. now rewrite En.
Qed.

Lemma TaskMap_set_values (m : TaskMap.t) (k : string) (v t : Task.t) :
  In t (TaskMap.values (TaskMap.set m k v)) -> t = v \/ In t (TaskMap.values m).
Proof.
  unfold TaskMap.values. induction m as [| [k' v'] m IH]; simpl.
  - intros [<- | []]. now left.
  - destruct (k' =? k)%string; simpl.
    + intros [<- | H]; [now left | right; now right].
    + intros [<- | H]; [right; now left |].
      destruct (IH H) as [-> | H']; [now left | right; now right].
Qed.

Lemma TaskMap_set_all_values (tasks : list Task.t) (m : TaskMap.t) (t : Task.t) :
  In t (TaskMap.values (TaskMap.set_all m tasks)) ->
  In t (TaskMap.values m) \/ In t tasks.
Proof.
  unfold TaskMap.set_all. revert m.
  induction tasks as [| x tasks IH]; simpl; intros m H; [now left |].
  destruct (IH _ H) as [H' | H']; [| right; now right].
  destruct (TaskMap_set_values _ _ _ _ H') as [-> | H'']; [right | left]; auto.
Qed.

(** The same run, evaluated: the stale label goes, the missing one comes. *)
Example labeler_run_on_two_tasks :
  store_tasks
    (snd (Labeler.main Sample.token Sample.Date_parse Sample.now
            (Sample.world Sample.bothLabels
               [Sample.mkTask "t1" (Some "2025-03-01T00:00:00Z") None
                              [RECENTLY_CREATED_LABEL; "work"];
                Sample.mkTask "t2" (Some "2025-03-02T05:00:00Z") None
                              ["home"]] [])))
  = [Sample.mkTask "t1" (Some "2025-03-01T00:00:00Z") None ["work"];
     Sample.mkTask "t2" (Some "2025-03-02T05:00:00Z") None
                   ["home"; RECENTLY_CREATED_LABEL]].
Proof. reflexivity. Qed.

(* ================================================================= *)
(** ** Further properties: the HTTP handler *)

(** X1. A POST to /webhook whose signature header is missing, empty, or
    different from the HMAC of the body under the secret is answered 401,
    and the world is left as it was: nothing is parsed, nothing is sent. *)
Theorem handler_rejects_unverified
    (token : option string) (secret : string)
    (hmac : string -> string -> string)
    (JSON_parse : string -> option Webhook.Json)
    (request : Webhook.Request) (w : World) :
  Webhook.pathname request = "/webhook" ->
  Webhook.method request = "POST" ->
  Webhook.hmac_header request <> Some (hmac secret (Webhook.body request)) ->
  exists text,
    Webhook.handler token secret hmac JSON_parse request w
    = (Ok (Webhook.mkResponse text 401), w).
Proof.
  intros Ep Em Hsig. unfold Webhook.handler. rewrite Ep, Em.
  replace ("/webhook" =? "/health")%string with false by reflexivity.
  replace (("/webhook" =? "/webhook")%string && ("POST" =? "POST")%string)
    with true by reflexivity.
  unfold try_catch, ret, JS.truthy, JS.or_str, Webhook.verifyWebhookSignature.
  destruct (Webhook.hmac_header request) as [signature |];
    [| now exists "Missing signature"].
  destruct (signature =? EmptyString)%string; cbn [negb];
    [now exists "Missing signature" |].
  destruct (String.eqb_spec (hmac secret (Webhook.body request)) signature)
    as [E | _]; cbn [negb].
  - now elim Hsig; rewrite E.
  - now exists "Invalid signature".
Qed.

Lemma handler_rejects_unverified_witness :
  exists text,
    Webhook.handler Sample.token "secret" Sample.hmac Sample.JSON_parse
      (Webhook.mkRequest "/webhook" "POST" (Some "forged") "{item:added t1}")
      (Sample.world [] [] [])
    = (Ok (Webhook.mkResponse text 401), Sample.world [] [] []).
Proof.
  apply (handler_rejects_unverified Sample.token "secret" Sample.hmac
           Sample.JSON_parse
           (Webhook.mkRequest "/webhook" "POST" (Some "forged") "{item:added t1}")
           (Sample.world [] [] [])).
  - reflexivity.
  - reflexivity.
  - discriminate.
Defined.

(** X2. The handler changes the world only for a POST to /webhook whose
    signature header is the HMAC of the body under the secret and whose
    body parses to a payload with event data: the health check, any other
    route or method, a rejected signature, an unparseable body and a body
    without event data all leave the world as it was. *)
Theorem handler_reaches_store_only_when_verified
    (token : option string) (secret : string)
    (hmac : string -> string -> string)
    (JSON_parse : string -> option Webhook.Json)
    (request : Webhook.Request) (w : World) :
  snd (Webhook.handler token secret hmac JSON_parse request w) <> w ->
  Webhook.pathname request = "/webhook"
  /\ Webhook.method request = "POST"
  /\ Webhook.hmac_header request = Some (hmac secret (Webhook.body request))
  /\ exists payload,
       JSON_parse (Webhook.body request) = Some (Webhook.Payload payload).
Proof.
  unfold Webhook.handler.
  destruct (Webhook.pathname request =? "/health")%string;
    [intros H; now elim H |].
  destruct (String.eqb_spec (Webhook.pathname request) "/webhook") as [Ep | _];
    [| intros H; now elim H].
  destruct (String.eqb_spec (Webhook.method request) "POST") as [Em | _];
    [| intros H; now elim H].
  cbn [andb].
  unfold try_catch, ret, JS.truthy, JS.or_str, Webhook.verifyWebhookSignature.
  destruct (Webhook.hmac_header request) as [signature |];
    [| intros H; now elim H].
  destruct (signature =? EmptyString)%string; cbn [negb];
    [intros H; now elim H |].
  destruct (String.eqb_spec (hmac secret (Webhook.body request)) signature)
    as [E | _]; cbn [negb]; [| intros H; now elim H].
  destruct (JSON_parse (Webhook.body request)) as [[| payload] |];
    [intros H; now elim H | | intros H; now elim H].
  intros _. repeat split; try assumption.
  - now rewrite E.
  - now exists payload.
Qed.

Lemma handler_reaches_store_only_when_verified_witness :
  Webhook.hmac_header
    (Webhook.mkRequest "/webhook" "POST"
       (Some "secret/{item:added t1}") "{item:added t1}")
  = Some (Sample.hmac "secret" "{item:added t1}").
Proof.
  apply (handler_reaches_store_only_when_verified Sample.token "secret"
           Sample.hmac Sample.JSON_parse
           (Webhook.mkRequest "/webhook" "POST"
              (Some "secret/{item:added t1}") "{item:added t1}")
           (Sample.world [] [] [])).
  intros H. apply (f_equal calls) in H. vm_compute in H. discriminate H.
Defined.




(** A verified body without event data is the one case answered 500. *)
Example verified_empty_object_is_answered_500 :
  fst (Webhook.handler Sample.token "secret" Sample.hmac Sample.JSON_parse
         (Webhook.mkRequest "/webhook" "POST" (Some "secret/{}") "{}")
         (Sample.world [] [] []))
  = Ok (Webhook.mkResponse "Internal server error" 500).
Proof. reflexivity. Qed.


(* ================================================================= *)
(** ** Further properties: handling an event *)

Lemma appendLabel_spec (name taskId : string) (w : World) :
  appendLabel name taskId w =
  if hd false (faults w)
  then (Throw (ApiError (GetTask taskId)), Api.sent (GetTask taskId) w)
  else
    match Api.find_task taskId (store_tasks w) with
    | None => (Throw (ApiError (GetTask taskId)), Api.sent (GetTask taskId) w)
    | Some task =>
        if JS.includes (Task.labels task) name
        then (Ok tt, Api.sent (GetTask taskId) w)
        else
          let update := UpdateTask taskId (Task.labels task ++ [name]) in
          if hd false (tl (faults w))
          then (Throw (ApiError update),
                Api.sent update (Api.sent (GetTask taskId) w))
          else (Ok tt,
                Api.with_tasks
                  (Api.replace_labels taskId (Task.labels task ++ [name])
                                      (store_tasks w))
                  (Api.sent update (Api.sent (GetTask taskId) w)))
    end.
Proof.
  unfold appendLabel, Api.getTask, Api.updateTask, Api.request, bind, ret.
  destruct (hd false (faults w)); [reflexivity |]. cbn.
  destruct (Api.find_task taskId (store_tasks w)) as [task |] eqn:Ef;
    [| reflexivity].
  cbn. destruct (JS.includes (Task.labels task) name); [reflexivity |]. cbn.
  destruct (hd false (tl (faults w))); [reflexivity |]. now rewrite Ef.
Qed.

Lemma find_task_replace (id : string) (ls : list string)
    (tasks : list Task.t) (task : Task.t) :
  Api.find_task id tasks = Some task ->
  Api.find_task id (Api.replace_labels id ls tasks)
  = Some (Api.set_labels ls task).
Proof.
  unfold Api.find_task. induction tasks as [| t tasks IH]; simpl; [discriminate |].
  destruct (Task.id t =? id)%string eqn:E.
  - intros H. injection H as ->. simpl. now rewrite E.
  - intros H. simpl. rewrite E. now apply IH.
Qed.

(** What one of the two add functions sends and changes, for a started
    client: after the requests of the resolution, nothing, the fetch of the
    task alone, or the fetch followed by the update that appends [name] to a
    list that lacks it. *)
Lemma add_label_trace (token : option string)
    (pick : Label.t * Label.t -> Label.t) (name taskId : string) (w : World) :
  (forall created updated,
      Label.name created = RECENTLY_CREATED_LABEL ->
      Label.name updated = RECENTLY_UPDATED_LABEL ->
      Label.name (pick (created, updated)) = name) ->
  let run :=
    try_catch
      (resolved <- Webhook.ensureLabelsExist token ;;
       appendLabel (Label.name (pick resolved)) taskId)
      (fun _ => ret tt) w in
  exists cs0 cs1,
    calls (snd run) = calls w ++ cs0 ++ cs1
    /\ existsb is_update cs0 = false
    /\ ((store_tasks (snd run) = store_tasks w
         /\ (cs1 = [] \/ cs1 = [GetTask taskId]))
        \/ exists task,
             Api.find_task taskId (store_tasks w) = Some task
             /\ JS.includes (Task.labels task) name = false
             /\ cs1 = [GetTask taskId;
                       UpdateTask taskId (Task.labels task ++ [name])]
             /\ (store_tasks (snd run) = store_tasks w
                 \/ store_tasks (snd run)
                    = Api.replace_labels taskId (Task.labels task ++ [name])
                                         (store_tasks w))).
Proof.
  intros Hpick. cbv zeta. unfold try_catch, bind.
  destruct (Webhook.ensureLabelsExist token w) as [[[created updated] | e] w1] eqn:E;
    apply ensureLabelsExist_frame in E; destruct E as [Et [[cs0 [Ec0 Hno]] Hn]].
  2:{ exists cs0, []. cbn. rewrite app_nil_r. repeat split; auto. }
  destruct Hn as [Hc Hu]. rewrite (Hpick _ _ Hc Hu), appendLabel_spec, Et.
  exists cs0.
  destruct (hd false (faults w1)).
  { exists [GetTask taskId]. cbn. rewrite Ec0, Et, <- app_assoc. auto 6. }
  destruct (Api.find_task taskId (store_tasks w)) as [task |] eqn:Ef.
  2:{ exists [GetTask taskId]. cbn. rewrite Ec0, Et, <- app_assoc. auto 6. }
  destruct (JS.includes (Task.labels task) name) eqn:Ei.
  { exists [GetTask taskId]. cbn. rewrite Ec0, Et, <- app_assoc. auto 6. }
  exists [GetTask taskId; UpdateTask taskId (Task.labels task ++ [name])].
  cbv zeta. destruct (hd false (tl (faults w1))); cbn;
    rewrite Ec0, ?Et, <- !app_assoc;
    (split; [reflexivity | split; [exact Hno |]]); right; exists task; auto.
Qed.

(** Both add functions as instances of the shared shape. *)
Lemma handleWebhook_shape (token : option string)
    (payload : Webhook.WebhookPayload) (w : World) :
  match eventLabel payload with
  | None => Webhook.handleWebhook token (Webhook.Payload payload) w = (Ok tt, w)
  | Some name =>
      if JS.truthy token then
        exists pick,
          (forall created updated,
              Label.name created = RECENTLY_CREATED_LABEL ->
              Label.name updated = RECENTLY_UPDATED_LABEL ->
              Label.name (pick (created, updated)) = name)
          /\ Webhook.handleWebhook token (Webhook.Payload payload) w
             = try_catch
                 (resolved <- Webhook.ensureLabelsExist token ;;
                  appendLabel (Label.name (pick resolved))
                              (Task.id (Webhook.event_data payload)))
                 (fun _ => ret tt) w
      else Webhook.handleWebhook token (Webhook.Payload payload) w
           = (Throw ClientNotInitialized, w)
  end.
Proof.
  unfold eventLabel, Webhook.handleWebhook, qualifies, JS.truthy.
  destruct (Webhook.event_name payload =? "item:added")%string.
  { unfold Webhook.addRecentlyCreatedLabel, Webhook.api, JS.truthy.
    destruct token as [t |]; [destruct (t =? EmptyString)%string |];
      cbn [negb]; try reflexivity.
    exists fst. split; [auto | reflexivity]. }
  destruct (Webhook.event_name payload =? "item:updated")%string;
    [| reflexivity].
  assert (Hrun :
            if JS.truthy token then
              exists pick,
                (forall created updated,
                    Label.name created = RECENTLY_CREATED_LABEL ->
                    Label.name updated = RECENTLY_UPDATED_LABEL ->
                    Label.name (pick (created, updated)) = RECENTLY_UPDATED_LABEL)
                /\ Webhook.addRecentlyUpdatedLabel token
                     (Task.id (Webhook.event_data payload)) w
                   = try_catch
                       (resolved <- Webhook.ensureLabelsExist token ;;
                        appendLabel (Label.name (pick resolved))
                                    (Task.id (Webhook.event_data payload)))
                       (fun _ => ret tt) w
            else Webhook.addRecentlyUpdatedLabel token
                   (Task.id (Webhook.event_data payload)) w
                 = (Throw ClientNotInitialized, w)).
  { unfold Webhook.addRecentlyUpdatedLabel, Webhook.api, JS.truthy.
    destruct token as [t |]; [destruct (t =? EmptyString)%string |];
      cbn [negb]; try reflexivity.
    exists snd. split; [auto | reflexivity]. }
  unfold JS.truthy in Hrun.
  destruct (Webhook.updateIntent_of payload) as [s |]; cbn [negb orb].
  - destruct (s =? EmptyString)%string; cbn [negb orb]; [exact Hrun |].
    destruct (s =? "item_updated")%string; [exact Hrun | reflexivity].
  - exact Hrun.
Qed.

Lemma updatedIds_no_update (cs : list Call) :
  existsb is_update cs = false -> updatedIds cs = [].
Proof.
  unfold updatedIds. induction cs as [| c cs IH]; [reflexivity |].
  cbn. intros H. apply orb_false_iff in H. destruct H as [Hc H].
  rewrite (IH H). destruct c; try reflexivity; discriminate.
Qed.

(** X5. Whatever the event, the store and the failures, handling an event
    sends at most one update; that update is for the task of the event and
    appends exactly one recency label which the task did not hold, so a
    label list without duplicates is written without duplicates. *)
Theorem webhook_appends_one_absent_label (token : option string)
    (payload : Webhook.WebhookPayload) (w : World) :
  exists cs,
    calls (snd (Webhook.handleWebhook token (Webhook.Payload payload) w))
    = calls w ++ cs
    /\ (length (updatedIds cs) <= 1)%nat
    /\ forall id ls, In (UpdateTask id ls) cs ->
         id = Task.id (Webhook.event_data payload)
         /\ exists task name,
              Api.find_task id (store_tasks w) = Some task
              /\ isRecencyName name = true
              /\ ~ In name (Task.labels task)
              /\ ls = Task.labels task ++ [name]
              /\ (NoDup (Task.labels task) -> NoDup ls).
Proof.
  pose proof (handleWebhook_shape token payload w) as Hshape.
  assert (Hnone : forall w', calls w' = calls w ->
            exists cs, calls w' = calls w ++ cs
              /\ (length (updatedIds cs) <= 1)%nat
              /\ forall id ls, In (UpdateTask id ls) cs ->
                  id = Task.id (Webhook.event_data payload)
                  /\ exists task name,
                       Api.find_task id (store_tasks w) = Some task
                       /\ isRecencyName name = true
                       /\ ~ In name (Task.labels task)
                       /\ ls = Task.labels task ++ [name]
                       /\ (NoDup (Task.labels task) -> NoDup ls)).
  { intros w' E. exists []. rewrite app_nil_r.
    split; [exact E | split; [cbn; lia | intros ? ? []]]. }
  destruct (eventLabel payload) as [name |] eqn:El.
  2:{ rewrite Hshape. now apply Hnone. }
  destruct (JS.truthy token).
  2:{ rewrite Hshape. now apply Hnone. }
  destruct Hshape as [pick [Hpick ->]].
  assert (Hname : isRecencyName name = true).
  { unfold eventLabel in El.
    destruct (Webhook.event_name payload =? "item:added")%string;
      [now injection El as <- |].
    destruct (Webhook.event_name payload =? "item:updated")%string;
      [| discriminate].
    destruct (qualifies _); [now injection El as <- | discriminate]. }
  destruct (add_label_trace token pick name
              (Task.id (Webhook.event_data payload)) w Hpick)
    as [cs0 [cs1 [Ec [Hno Hcases]]]].
  exists (cs0 ++ cs1). split; [exact Ec |].
  pose proof (updatedIds_no_update cs0 Hno) as Hids0.
  unfold updatedIds in *. rewrite flat_map_app, Hids0. cbn [app].
  destruct Hcases as [[_ [-> | ->]] | [task [Ef [Ei [-> _]]]]].
  - split; [cbn; lia |]. intros id ls Hin. rewrite app_nil_r in Hin.
    now elim (existsb_is_update_false _ _ _ Hno Hin).
  - split; [cbn; lia |]. intros id ls Hin. apply in_app_or in Hin.
    destruct Hin as [Hin | [Hin | []]];
      [now elim (existsb_is_update_false _ _ _ Hno Hin) | discriminate].
  - split; [cbn; lia |]. intros id ls Hin. apply in_app_or in Hin.
    destruct Hin as [Hin | [Hin | [Hin | []]]];
      [now elim (existsb_is_update_false _ _ _ Hno Hin) | discriminate |].
    injection Hin as <- <-. split; [reflexivity |].
    exists task, name. apply includes_false in Ei.
    repeat split; try assumption.
    intros Hnd. apply NoDup_app; [exact Hnd | repeat constructor; intros [] |].
    intros x Hx [<- | []]. now apply Ei.
Qed.

Lemma ensureLabelsExist_succeeds (token : option string) (w : World) :
  JS.truthy token = true ->
  faults w = [] ->
  exists created updated w1,
    Webhook.ensureLabelsExist token w = (Ok (created, updated), w1)
    /\ faults w1 = []
    /\ store_tasks w1 = store_tasks w
    /\ Label.name created = RECENTLY_CREATED_LABEL
    /\ Label.name updated = RECENTLY_UPDATED_LABEL.
Proof.
  intros Ht Ef.
  destruct (Webhook.find_label RECENTLY_CREATED_LABEL (store_labels w))
    as [created |] eqn:Ec;
  destruct (Webhook.find_label RECENTLY_UPDATED_LABEL (store_labels w))
    as [updated |] eqn:Eu;
    eexists _, _, _;
    (split; [run_resolution Ht Ef Ec Eu; reflexivity |]);
    cbn; rewrite ?Ef; repeat split; eauto using find_label_name.
Qed.

Lemma find_task_replace_other (id id' : string) (ls : list string)
    (tasks : list Task.t) :
  id' <> id ->
  Api.find_task id' (Api.replace_labels id ls tasks) = Api.find_task id' tasks.
Proof.
  intros Hne. unfold Api.find_task.
  induction tasks as [| t tasks IH]; simpl; [reflexivity |].
  destruct (String.eqb_spec (Task.id t) id) as [E | E]; simpl.
  - destruct (String.eqb_spec (Task.id t) id') as [E' | _]; [congruence | reflexivity].
  - now rewrite IH.
Qed.

(** A resolution followed by the append, when nothing fails and the task
    exists. *)
Lemma add_label_succeeds (token : option string)
    (pick : Label.t * Label.t -> Label.t) (name taskId : string)
    (task : Task.t) (w : World) :
  (forall created updated,
      Label.name created = RECENTLY_CREATED_LABEL ->
      Label.name updated = RECENTLY_UPDATED_LABEL ->
      Label.name (pick (created, updated)) = name) ->
  JS.truthy token = true ->
  faults w = [] ->
  Api.find_task taskId (store_tasks w) = Some task ->
  let run :=
    try_catch
      (resolved <- Webhook.ensureLabelsExist token ;;
       appendLabel (Label.name (pick resolved)) taskId)
      (fun _ => ret tt) w in
  fst run = Ok tt
  /\ store_tasks (snd run)
     = (if JS.includes (Task.labels task) name then store_tasks w
        else Api.replace_labels taskId (Task.labels task ++ [name])
                                (store_tasks w)).
Proof.
  intros Hpick Ht Ef Etask. cbv zeta. unfold try_catch, bind.
  destruct (ensureLabelsExist_succeeds token w Ht Ef)
    as [created [updated [w1 [-> [Ef1 [Et [Hc Hu]]]]]]].
  rewrite (Hpick _ _ Hc Hu), appendLabel_spec, Ef1, Et, Etask. cbn [hd tl].
  destruct (JS.includes (Task.labels task) name); cbn; auto.
Qed.

(** Nothing is updated when the task is missing or holds the label. *)
Lemma add_label_noop (token : option string)
    (pick : Label.t * Label.t -> Label.t) (name taskId : string) (w : World) :
  (forall created updated,
      Label.name created = RECENTLY_CREATED_LABEL ->
      Label.name updated = RECENTLY_UPDATED_LABEL ->
      Label.name (pick (created, updated)) = name) ->
  (forall task, Api.find_task taskId (store_tasks w) = Some task ->
                JS.includes (Task.labels task) name = true) ->
  let run :=
    try_catch
      (resolved <- Webhook.ensureLabelsExist token ;;
       appendLabel (Label.name (pick resolved)) taskId)
      (fun _ => ret tt) w in
  store_tasks (snd run) = store_tasks w
  /\ exists cs, calls (snd run) = calls w ++ cs /\ existsb is_update cs = false.
Proof.
  intros Hpick Hheld.
  destruct (add_label_trace token pick name taskId w Hpick)
    as [cs0 [cs1 [Ec [Hno Hcases]]]].
  cbv zeta.
  destruct Hcases as [[Et [-> | ->]] | [task [Ef [Ei _]]]].
  - split; [exact Et |]. exists cs0. now rewrite app_nil_r in Ec.
  - split; [exact Et |]. exists (cs0 ++ [GetTask taskId]).
    split; [exact Ec |]. rewrite existsb_app, Hno. reflexivity.
  - rewrite (Hheld task Ef) in Ei. discriminate.
Qed.

(** X6. With the client initialised and no remote failure, handling an
    event that calls for a label, on a task the store has, returns normally
    and leaves that task with the label: its list is the old one, with the
    label appended when it was absent; every other task is as before. *)
Theorem webhook_adds_label_when_store_answers (token : option string)
    (payload : Webhook.WebhookPayload) (name : string) (task : Task.t) (w : World) :
  JS.truthy token = true ->
  faults w = [] ->
  eventLabel payload = Some name ->
  Api.find_task (Task.id (Webhook.event_data payload)) (store_tasks w) = Some task ->
  exists task',
    fst (Webhook.handleWebhook token (Webhook.Payload payload) w) = Ok tt
    /\ Api.find_task (Task.id (Webhook.event_data payload))
         (store_tasks (snd (Webhook.handleWebhook token (Webhook.Payload payload) w)))
       = Some task'
    /\ task' = (if JS.includes (Task.labels task) name then task
                else Api.set_labels (Task.labels task ++ [name]) task)
    /\ In name (Task.labels task')
    /\ forall id, id <> Task.id (Webhook.event_data payload) ->
         Api.find_task id
           (store_tasks
              (snd (Webhook.handleWebhook token (Webhook.Payload payload) w)))
         = Api.find_task id (store_tasks w).
Proof.
  intros Ht Ef El Etask.
  pose proof (handleWebhook_shape token payload w) as Hshape.
  rewrite El, Ht in Hshape. destruct Hshape as [pick [Hpick ->]].
  destruct (add_label_succeeds token pick name _ task w Hpick Ht Ef Etask)
    as [Hok Hstore].
  rewrite Hstore.
  destruct (JS.includes (Task.labels task) name) eqn:Ei.
  - exists task. repeat split; auto. now apply includes_In.
  - exists (Api.set_labels (Task.labels task ++ [name]) task).
    repeat split; auto.
    + now apply find_task_replace.
    + cbn. apply in_or_app. right. now left.
    + intros id Hne. now apply find_task_replace_other.
Qed.

Lemma webhook_adds_label_when_store_answers_witness :
  exists task',
    fst (Webhook.handleWebhook Sample.token (Webhook.Payload Sample.addedPayload)
           (Sample.world Sample.bothLabels
              [Sample.mkTask "t1" (Some "2025-03-02T06:00:00Z") None ["work"]] []))
    = Ok tt
    /\ Api.find_task "t1"
         (store_tasks
            (snd (Webhook.handleWebhook Sample.token (Webhook.Payload Sample.addedPayload)
                    (Sample.world Sample.bothLabels
                       [Sample.mkTask "t1" (Some "2025-03-02T06:00:00Z") None
                                      ["work"]] []))))
       = Some task'
    /\ Task.labels task' = ["work"; RECENTLY_CREATED_LABEL].
Proof.
  destruct (webhook_adds_label_when_store_answers Sample.token
              Sample.addedPayload RECENTLY_CREATED_LABEL
              (Sample.mkTask "t1" (Some "2025-03-02T06:00:00Z") None ["work"])
              (Sample.world Sample.bothLabels
                 [Sample.mkTask "t1" (Some "2025-03-02T06:00:00Z") None ["work"]] [])
              eq_refl eq_refl eq_refl eq_refl)
    as [task' [Hok [Hfind [Htask _]]]].
  exists task'. split; [exact Hok | split; [exact Hfind |]].
  rewrite Htask. reflexivity.
Defined.

(** X7. Handling the same event a second time changes no task and sends no
    update, when the first handling met no remote failure: the effect of an
    event delivered twice is that of the event delivered once. *)
Theorem webhook_redelivery_changes_nothing (token : option string)
    (payload : Webhook.WebhookPayload) (w : World) :
  faults w = [] ->
  store_tasks (snd (Webhook.handleWebhook token (Webhook.Payload payload)
                      (snd (Webhook.handleWebhook token (Webhook.Payload payload) w))))
  = store_tasks (snd (Webhook.handleWebhook token (Webhook.Payload payload) w))
  /\ exists cs,
       calls (snd (Webhook.handleWebhook token (Webhook.Payload payload)
                     (snd (Webhook.handleWebhook token (Webhook.Payload payload) w))))
       = calls (snd (Webhook.handleWebhook token (Webhook.Payload payload) w)) ++ cs
       /\ existsb is_update cs = false.
Proof.
  intros Ef.
  set (w1 := snd (Webhook.handleWebhook token (Webhook.Payload payload) w)).
  assert (Hskip : forall w0,
            Webhook.handleWebhook token (Webhook.Payload payload) w1 = (w0, w1) ->
            store_tasks (snd (Webhook.handleWebhook token (Webhook.Payload payload) w1))
            = store_tasks w1
            /\ exists cs,
                 calls (snd (Webhook.handleWebhook token (Webhook.Payload payload) w1))
                 = calls w1 ++ cs /\ existsb is_update cs = false).
  { intros w0 ->. split; [reflexivity |]. exists []. now rewrite app_nil_r. }
  pose proof (handleWebhook_shape token payload w1) as Hshape1.
  pose proof (handleWebhook_shape token payload w) as Hshape.
  destruct (eventLabel payload) as [name |] eqn:El; [| now apply (Hskip (Ok tt))].
  destruct (JS.truthy token) eqn:Ht;
    [| now apply (Hskip (Throw ClientNotInitialized))].
  destruct Hshape1 as [pick [Hpick ->]].
  apply (add_label_noop token pick name _ w1 Hpick).
  intros task1 Etask1.
  destruct Hshape as [pick0 [Hpick0 Hrun0]].
  destruct (Api.find_task (Task.id (Webhook.event_data payload)) (store_tasks w))
    as [task |] eqn:Etask.
  - destruct (add_label_succeeds token pick0 name _ task w Hpick0 Ht Ef Etask)
      as [_ Hstore].
    rewrite <- Hrun0 in Hstore. fold w1 in Hstore. rewrite Hstore in Etask1.
    destruct (JS.includes (Task.labels task) name) eqn:Ei.
    + rewrite Etask in Etask1. now injection Etask1 as <-.
    + rewrite (find_task_replace _ _ _ _ Etask) in Etask1.
      injection Etask1 as <-. cbn. apply includes_In, in_or_app. right. now left.
  - exfalso.
    destruct (add_label_trace token pick0 name
                (Task.id (Webhook.event_data payload)) w Hpick0)
      as [cs0 [cs1 [_ [_ Hcases]]]].
    cbv zeta in Hcases. rewrite <- Hrun0 in Hcases. fold w1 in Hcases.
    destruct Hcases as [[Et _] | [task [Ef' _]]]; [| congruence].
    rewrite Et in Etask1. congruence.
Qed.

Lemma webhook_redelivery_changes_nothing_witness :
  store_tasks
    (snd (Webhook.handleWebhook Sample.token (Webhook.Payload Sample.addedPayload)
            (snd (Webhook.handleWebhook Sample.token (Webhook.Payload Sample.addedPayload)
                    (Sample.world []
                       [Sample.mkTask "t1" (Some "2025-03-02T06:00:00Z") None []]
                       [])))))
  = [Sample.mkTask "t1" (Some "2025-03-02T06:00:00Z") None [RECENTLY_CREATED_LABEL]].
Proof.
  rewrite (proj1 (webhook_redelivery_changes_nothing Sample.token
                    Sample.addedPayload
                    (Sample.world []
                       [Sample.mkTask "t1" (Some "2025-03-02T06:00:00Z") None []]
                       [])
                    eq_refl)).
  reflexivity.
Defined.

(* ================================================================= *)
(** ** Further properties: resolving the two labels *)

Lemma labelsNamed_find_none (name : string) (labels : list Label.t) :
  Webhook.find_label name labels = None -> labelsNamed name labels = 0%nat.
Proof.
  unfold Webhook.find_label, labelsNamed.
  induction labels as [| l labels IH]; simpl; [reflexivity |].
  destruct (Label.name l =? name)%string; [discriminate | exact IH].
Qed.

Lemma labelsNamed_app (name : string) (l l' : list Label.t) :
  labelsNamed name (l ++ l') = (labelsNamed name l + labelsNamed name l')%nat.
Proof. unfold labelsNamed. now rewrite filter_app, length_app. Qed.

Lemma labelsNamed_one (name n id : string) :
  labelsNamed n [Label.mk id name] = if (name =? n)%string then 1%nat else 0%nat.
Proof. unfold labelsNamed. cbn. now destruct (name =? n)%string. Qed.

(** Bound on the labels of each name after a resolution that added
    [added], each added label being of a name that was missing. *)
Ltac bound_labelsNamed Ec Eu :=
  intros n; rewrite ?labelsNamed_app, ?labelsNamed_one; unfold isRecencyName;
  try (apply labelsNamed_find_none in Ec);
  try (apply labelsNamed_find_none in Eu);
  rewrite ?(String.eqb_sym n);
  destruct (String.eqb_spec RECENTLY_CREATED_LABEL n);
  destruct (String.eqb_spec RECENTLY_UPDATED_LABEL n);
  subst; cbn [orb]; try discriminate; lia.

(** X8. A resolution only appends to the label collection of the store,
    and never a label whose name the store already has: after it, whatever
    failed, each recency name is carried by at most one label more than
    before and by one label at most when it was missing, and no other name
    gains a label.  The labels it returns are the first of their name in the
    store.  No task is touched. *)
Theorem ensureLabelsExist_never_duplicates (token : option string) (w : World) :
  exists added,
    store_labels (snd (Webhook.ensureLabelsExist token w)) = store_labels w ++ added
    /\ (forall n,
          (labelsNamed n (store_labels (snd (Webhook.ensureLabelsExist token w)))
           <= Nat.max (labelsNamed n (store_labels w))
                      (if isRecencyName n then 1 else 0))%nat)
    /\ (forall created updated,
          fst (Webhook.ensureLabelsExist token w) = Ok (created, updated) ->
          Webhook.find_label RECENTLY_CREATED_LABEL
            (store_labels (snd (Webhook.ensureLabelsExist token w))) = Some created
          /\ Webhook.find_label RECENTLY_UPDATED_LABEL
               (store_labels (snd (Webhook.ensureLabelsExist token w))) = Some updated)
    /\ store_tasks (snd (Webhook.ensureLabelsExist token w)) = store_tasks w.
Proof.
  assert (Hnothing : forall n : string,
             (labelsNamed n (store_labels w)
              <= Nat.max (labelsNamed n (store_labels w))
                         (if isRecencyName n then 1 else 0))%nat)
    by (intros n; destruct (isRecencyName n); lia).
  unfold Webhook.ensureLabelsExist.
  destruct (negb (Webhook.api token)).
  { exists []. cbn. rewrite app_nil_r.
    split; [reflexivity | split; [exact Hnothing | split; [discriminate | reflexivity]]]. }
  unfold Api.getLabels, Api.addLabel, Api.request, bind, ret, throw.
  destruct (hd false (faults w)).
  { exists []. cbn [snd fst store_labels store_tasks Api.sent]. rewrite app_nil_r.
    split; [reflexivity | split; [exact Hnothing | split; [discriminate | reflexivity]]]. }
  cbn [store_labels Api.sent].
  destruct (Webhook.find_label RECENTLY_CREATED_LABEL (store_labels w))
    as [created |] eqn:Ec;
  destruct (Webhook.find_label RECENTLY_UPDATED_LABEL (store_labels w))
    as [updated |] eqn:Eu;
    cbn [snd fst store_labels store_tasks faults Api.sent Api.with_labels].
  - exists []. rewrite app_nil_r.
    split; [reflexivity | split; [exact Hnothing | split; [| reflexivity]]].
    intros c u H. injection H as <- <-. auto.
  - destruct (hd false (tl (faults w)));
      cbn [snd fst store_labels store_tasks faults Api.sent Api.with_labels].
    + exists []. rewrite app_nil_r.
      split; [reflexivity | split; [exact Hnothing | split; [discriminate | reflexivity]]].
    + eexists [_]. split; [reflexivity |]. split; [bound_labelsNamed Ec Eu |].
      split; [| reflexivity]. intros c u H. injection H as <- <-.
      rewrite !find_label_app, Ec, Eu. split; reflexivity.
  - destruct (hd false (tl (faults w)));
      cbn [snd fst store_labels store_tasks faults Api.sent Api.with_labels].
    + exists []. rewrite app_nil_r.
      split; [reflexivity | split; [exact Hnothing | split; [discriminate | reflexivity]]].
    + eexists [_]. split; [reflexivity |]. split; [bound_labelsNamed Ec Eu |].
      split; [| reflexivity]. intros c u H. injection H as <- <-.
      rewrite !find_label_app, Ec, Eu. split; reflexivity.
  - destruct (hd false (tl (faults w)));
      cbn [snd fst store_labels store_tasks faults Api.sent Api.with_labels].
    { exists []. rewrite app_nil_r.
      split; [reflexivity | split; [exact Hnothing | split; [discriminate | reflexivity]]]. }
    destruct (hd false (tl (tl (faults w))));
      cbn [snd fst store_labels store_tasks faults Api.sent Api.with_labels].
    + eexists [_]. split; [reflexivity |]. split; [bound_labelsNamed Ec Eu |].
      split; [discriminate | reflexivity].
    + eexists [_; _]. split; [now rewrite <- app_assoc |].
      split; [| split; [| reflexivity]].
      * bound_labelsNamed Ec Eu.
      * intros c u H. injection H as <- <-.
        rewrite !find_label_app, Ec, Eu. split; reflexivity.
Qed.

(* ================================================================= *)
(** ** Further properties: the map of tasks to check *)

Lemma find_app_first {A} (f : A -> bool) (l l' : list A) :
  find f (l ++ l') = match find f l with Some x => Some x | None => find f l' end.
Proof.
  induction l as [| x l IH]; simpl; [reflexivity |]. now destruct (f x).
Qed.

Lemma lookup_set (m : TaskMap.t) (k k' : string) (v : Task.t) :
  lookup (TaskMap.set m k v) k' = if (k =? k')%string then Some v else lookup m k'.
Proof.
  unfold lookup. induction m as [| [k0 v0] m IH]; simpl.
  - now destruct (k =? k')%string.
  - destruct (String.eqb_spec k0 k) as [-> | Hne]; simpl.
    + now destruct (k =? k')%string.
    + destruct (String.eqb_spec k0 k') as [-> | Hne'].
      * destruct (String.eqb_spec k k') as [-> | _]; [congruence | reflexivity].
      * exact IH.
Qed.

Lemma lookup_set_all (tasks : list Task.t) (m : TaskMap.t) (k : string) :
  lookup (TaskMap.set_all m tasks) k =
  match lastSnapshot k tasks with
  | Some task => Some task
  | None => lookup m k
  end.
Proof.
  unfold TaskMap.set_all, lastSnapshot. revert m.
  induction tasks as [| x tasks IH]; intros m; simpl; [reflexivity |].
  rewrite IH, find_app_first, lookup_set. simpl.
  destruct (find _ (rev tasks)); [reflexivity |].
  now destruct (Task.id x =? k)%string.
Qed.

Lemma set_keys (m : TaskMap.t) (k : string) (v : Task.t) :
  map fst (TaskMap.set m k v) =
  if existsb (String.eqb k) (map fst m) then map fst m else map fst m ++ [k].
Proof.
  induction m as [| [k0 v0] m IH]; simpl; [reflexivity |].
  rewrite (String.eqb_sym k k0).
  destruct (String.eqb_spec k0 k) as [-> | Hne]; simpl; [reflexivity |].
  rewrite IH. now destruct (existsb (String.eqb k) (map fst m)).
Qed.

Lemma set_entries (m : TaskMap.t) (k : string) (v : Task.t) (P : string * Task.t -> Prop) :
  Forall P m -> P (k, v) -> Forall P (TaskMap.set m k v).
Proof.
  intros Hm Hv. induction m as [| [k0 v0] m IH]; simpl.
  - now constructor.
  - inversion Hm; subst. destruct (k0 =? k)%string; constructor; auto.
Qed.

Lemma keyed_set (m : TaskMap.t) (task : Task.t) :
  keyed m -> keyed (TaskMap.set m (Task.id task) task).
Proof.
  intros [Hk Hnd]. split.
  - now apply set_entries.
  - rewrite set_keys.
    destruct (existsb (String.eqb (Task.id task)) (map fst m)) eqn:E;
      [exact Hnd |].
    apply NoDup_app; [exact Hnd | repeat constructor; intros [] |].
    intros x Hx [<- | []].
    assert (existsb (String.eqb (Task.id task)) (map fst m) = true) as E'
      by (apply existsb_exists; exists (Task.id task); split;
          [exact Hx | apply String.eqb_refl]).
    congruence.
Qed.

Lemma keyed_set_all (tasks : list Task.t) (m : TaskMap.t) :
  keyed m -> keyed (TaskMap.set_all m tasks).
Proof.
  unfold TaskMap.set_all. revert m.
  induction tasks as [| x tasks IH]; intros m Hm; simpl; [exact Hm |].
  apply IH. now apply keyed_set.
Qed.

Lemma keyed_empty : keyed TaskMap.empty.
Proof. split; constructor. Qed.

Lemma lookup_In (m : TaskMap.t) (k : string) (v : Task.t) :
  NoDup (map fst m) -> (In (k, v) m <-> lookup m k = Some v).
Proof.
  unfold lookup. induction m as [| [k0 v0] m IH]; simpl; intros Hnd.
  - split; [intros [] | discriminate].
  - inversion Hnd as [| ? ? Hnot Hnd']; subst.
    destruct (String.eqb_spec k0 k) as [-> | Hne]; simpl.
    + split.
      * intros [E | Hin]; [now injection E as -> |].
        elim Hnot. now apply (in_map fst) in Hin.
      * intros E. injection E as ->. now left.
    + rewrite <- (IH Hnd'). split; [intros [E | Hin] | intros Hin]; auto.
      injection E as -> _. congruence.
Qed.

Lemma keyed_values (m : TaskMap.t) (task : Task.t) :
  keyed m ->
  (In task (TaskMap.values m) <-> lookup m (Task.id task) = Some task).
Proof.
  intros [Hk Hnd]. rewrite <- (lookup_In _ _ _ Hnd). unfold TaskMap.values.
  rewrite in_map_iff. split.
  - intros [[k v] [E Hin]]. simpl in E. subst v.
    rewrite Forall_forall in Hk. specialize (Hk _ Hin). simpl in Hk. now subst k.
  - intros Hin. now exists (Task.id task, task).
Qed.

Lemma keyed_ids (m : TaskMap.t) :
  keyed m -> NoDup (map Task.id (TaskMap.values m)).
Proof.
  intros [Hk Hnd]. unfold TaskMap.values. rewrite map_map.
  replace (map (fun x => Task.id (snd x)) m) with (map fst m); [exact Hnd |].
  apply map_ext_in. intros e He. rewrite Forall_forall in Hk. now apply Hk.
Qed.

(** X9. The map that the jobs fill with fetched tasks, keyed by task id,
    holds each id once, and the task it holds for an id is the last one
    fetched with that id: a task met by several queries is checked once, in
    its latest snapshot. *)
Theorem tasks_to_check_keep_last_snapshot (tasks : list Task.t) :
  NoDup (map Task.id (TaskMap.values (TaskMap.set_all TaskMap.empty tasks)))
  /\ (forall task,
        In task (TaskMap.values (TaskMap.set_all TaskMap.empty tasks))
        <-> lastSnapshot (Task.id task) tasks = Some task)
  /\ (forall task,
        In task tasks ->
        exists snapshot,
          In snapshot (TaskMap.values (TaskMap.set_all TaskMap.empty tasks))
          /\ Task.id snapshot = Task.id task).
Proof.
  pose proof (keyed_set_all tasks _ keyed_empty) as Hk.
  split; [now apply keyed_ids | split].
  - intros task. rewrite (keyed_values _ _ Hk), lookup_set_all.
    destruct (lastSnapshot (Task.id task) tasks); [reflexivity |].
    split; discriminate.
  - intros task Hin. unfold lastSnapshot.
    destruct (find (fun t => (Task.id t =? Task.id task)%string) (rev tasks))
      as [snapshot |] eqn:Ef.
    + pose proof (find_some _ _ Ef) as [_ Eid]. apply String.eqb_eq in Eid.
      exists snapshot. split; [| exact Eid].
      apply (keyed_values _ _ Hk). rewrite lookup_set_all.
      unfold lastSnapshot. rewrite Eid. now rewrite Ef.
    + apply in_rev in Hin. pose proof (find_none _ _ Ef _ Hin) as E.
      simpl in E. now rewrite String.eqb_refl in E.
Qed.

Lemma set_all_app (m : TaskMap.t) (a b : list Task.t) :
  TaskMap.set_all (TaskMap.set_all m a) b = TaskMap.set_all m (a ++ b).
Proof. unfold TaskMap.set_all. now rewrite fold_left_app. Qed.

Lemma ids_determine_task (tasks : list Task.t) (a b : Task.t) :
  NoDup (map Task.id tasks) ->
  In a tasks -> In b tasks -> Task.id a = Task.id b -> a = b.
Proof.
  induction tasks as [| t tasks IH]; simpl; intros Hnd Ha Hb E; [contradiction |].
  inversion Hnd as [| ? ? Hnot Hnd']; subst.
  destruct Ha as [-> | Ha], Hb as [-> | Hb]; auto.
  - elim Hnot. rewrite E. now apply in_map.
  - elim Hnot. rewrite <- E. now apply in_map.
Qed.

(** With ids that determine the task, every fetched task is in the map. *)
Lemma set_all_complete (store fetched : list Task.t) (task : Task.t) :
  NoDup (map Task.id store) ->
  incl fetched store ->
  In task fetched ->
  In task (TaskMap.values (TaskMap.set_all TaskMap.empty fetched)).
Proof.
  intros Hnd Hincl Hin.
  pose proof (keyed_set_all fetched _ keyed_empty) as Hk.
  apply (keyed_values _ _ Hk). rewrite lookup_set_all. unfold lastSnapshot.
  destruct (find (fun t => (Task.id t =? Task.id task)%string) (rev fetched))
    as [snapshot |] eqn:Ef.
  - pose proof (find_some _ _ Ef) as [Hs Eid]. apply String.eqb_eq in Eid.
    apply in_rev in Hs. f_equal.
    apply (ids_determine_task store); auto.
  - apply in_rev in Hin. pose proof (find_none _ _ Ef _ Hin) as E.
    simpl in E. now rewrite String.eqb_refl in E.
Qed.

Lemma set_all_incl (store fetched : list Task.t) :
  incl fetched store ->
  incl (TaskMap.values (TaskMap.set_all TaskMap.empty fetched)) store.
Proof.
  intros Hincl t Ht. apply TaskMap_set_all_values in Ht.
  destruct Ht as [[] | Ht]. now apply Hincl.
Qed.

(* ================================================================= *)
(** ** Further properties: the cleanup job *)

Lemma includes_remove_first_other (x y : string) (l : list string) :
  x <> y -> JS.includes (remove_first x l) y = JS.includes l y.
Proof.
  intros Hne. now rewrite !includes_occurrences, occurrences_remove_first_other.
Qed.

Lemma removeStale_spec (label : option Label.t) (name : string) (recent : bool)
    (ls : list string) (b : bool) :
  (forall l, label = Some l -> Label.name l = name) ->
  Maintainer.removeStale label recent (ls, b) =
  let held := match label with Some _ => JS.includes ls name | None => false end in
  (if held && negb recent then remove_first name ls else ls,
   (held && negb recent) || b).
Proof.
  intros Hn. unfold Maintainer.removeStale. destruct label as [l |]; [| reflexivity].
  rewrite (Hn l eq_refl). cbv zeta.
  destruct (JS.includes ls name) eqn:Ei; [| reflexivity].
  destruct recent; [reflexivity |]. cbn [negb andb orb].
  now rewrite (splice1_indexOf _ _ Ei).
Qed.

(** The list the cleanup job builds for a task, and whether it changed. *)
Lemma maintainer_newLabels_spec Date_parse created updated threshold task :
  (forall l, created = Some l -> Label.name l = RECENTLY_CREATED_LABEL) ->
  (forall l, updated = Some l -> Label.name l = RECENTLY_UPDATED_LABEL) ->
  Maintainer.newLabels Date_parse created updated threshold task =
  (let l1 :=
     if Maintainer.currentlyHas created task
        && negb (Maintainer.isRecentlyCreated Date_parse threshold task)
     then remove_first RECENTLY_CREATED_LABEL (Task.labels task)
     else Task.labels task in
   if Maintainer.currentlyHas updated task
      && negb (Maintainer.isRecentlyUpdated Date_parse threshold task)
   then remove_first RECENTLY_UPDATED_LABEL l1 else l1,
   Maintainer.shouldRemoveLabels Date_parse created updated threshold task).
Proof.
  intros Hc Hu.
  unfold Maintainer.newLabels, Maintainer.shouldRemoveLabels, Maintainer.currentlyHas.
  rewrite (removeStale_spec created RECENTLY_CREATED_LABEL) by exact Hc.
  cbv zeta.
  rewrite (removeStale_spec updated RECENTLY_UPDATED_LABEL) by exact Hu.
  cbv zeta.
  assert (Ec : match created with
               | Some l => JS.includes (Task.labels task) (Label.name l)
               | None => false
               end
               = match created with
                 | Some _ => JS.includes (Task.labels task) RECENTLY_CREATED_LABEL
                 | None => false
                 end)
    by (destruct created as [l |]; [now rewrite (Hc l eq_refl) | reflexivity]).
  assert (Eu : match updated with
               | Some l => JS.includes (Task.labels task) (Label.name l)
               | None => false
               end
               = match updated with
                 | Some _ => JS.includes (Task.labels task) RECENTLY_UPDATED_LABEL
                 | None => false
                 end)
    by (destruct updated as [l |]; [now rewrite (Hu l eq_refl) | reflexivity]).
  rewrite Ec, Eu.
  destruct (match created with
            | Some _ => JS.includes (Task.labels task) RECENTLY_CREATED_LABEL
            | None => false
            end && negb (Maintainer.isRecentlyCreated Date_parse threshold task)) eqn:E1.
  - rewrite (includes_remove_first_other _ _ _ recency_names_differ).
    destruct (match updated with
              | Some _ => JS.includes (Task.labels task) RECENTLY_UPDATED_LABEL
              | None => false
              end && negb (Maintainer.isRecentlyUpdated Date_parse threshold task));
      reflexivity.
  - destruct (match updated with
              | Some _ => JS.includes (Task.labels task) RECENTLY_UPDATED_LABEL
              | None => false
              end && negb (Maintainer.isRecentlyUpdated Date_parse threshold task));
      reflexivity.
Qed.

Lemma length_remove_first (x : string) (l : list string) :
  JS.includes l x = true -> S (length (remove_first x l)) = length l.
Proof.
  induction l as [| y l IH]; simpl; [discriminate |].
  rewrite String.eqb_sym.
  destruct (y =? x)%string; simpl; [reflexivity |]. intros H. now rewrite IH.
Qed.

Lemma currentlyHas_includes (label : option Label.t) (name : string) (task : Task.t) :
  (forall l, label = Some l -> Label.name l = name) ->
  Maintainer.currentlyHas label task = true ->
  JS.includes (Task.labels task) name = true.
Proof.
  intros Hn. unfold Maintainer.currentlyHas.
  destruct label as [l |]; [| discriminate]. now rewrite (Hn l eq_refl).
Qed.

Lemma labelsChanged_is_queued
    (Date_parse : string -> JS.Date) (created updated : option Label.t)
    (threshold : JS.Date) (task : Task.t) :
  (forall l, created = Some l -> Label.name l = RECENTLY_CREATED_LABEL) ->
  (forall l, updated = Some l -> Label.name l = RECENTLY_UPDATED_LABEL) ->
  snd (Maintainer.newLabels Date_parse created updated threshold task)
  = Maintainer.shouldRemoveLabels Date_parse created updated threshold task.
Proof.
  intros Hc Hu. now rewrite (maintainer_newLabels_spec _ _ _ _ _ Hc Hu).
Qed.

(** The queue of the first loop against the list of the second. *)
Lemma maintainer_queue_facts
    (Date_parse : string -> JS.Date) (created updated : option Label.t)
    (threshold : JS.Date) (task : Task.t) :
  (forall l, created = Some l -> Label.name l = RECENTLY_CREATED_LABEL) ->
  (forall l, updated = Some l -> Label.name l = RECENTLY_UPDATED_LABEL) ->
  snd (Maintainer.newLabels Date_parse created updated threshold task)
  = Maintainer.shouldRemoveLabels Date_parse created updated threshold task
  /\ (Maintainer.shouldRemoveLabels Date_parse created updated threshold task = false ->
      fst (Maintainer.newLabels Date_parse created updated threshold task)
      = Task.labels task)
  /\ (Maintainer.shouldRemoveLabels Date_parse created updated threshold task = true ->
      (length (fst (Maintainer.newLabels Date_parse created updated threshold task))
       < length (Task.labels task))%nat).
Proof.
  intros Hc Hu. rewrite (maintainer_newLabels_spec _ _ _ _ _ Hc Hu).
  cbn [fst snd]. split; [reflexivity |].
  unfold Maintainer.shouldRemoveLabels.
  destruct (Maintainer.currentlyHas created task
            && negb (Maintainer.isRecentlyCreated Date_parse threshold task)) eqn:E1;
  destruct (Maintainer.currentlyHas updated task
            && negb (Maintainer.isRecentlyUpdated Date_parse threshold task)) eqn:E2;
    cbv zeta; (split; [try discriminate; try reflexivity | try discriminate]);
    intros _.
  - apply andb_true_iff in E1, E2. destruct E1 as [E1 _], E2 as [E2 _].
    apply (currentlyHas_includes _ _ _ Hc) in E1.
    apply (currentlyHas_includes _ _ _ Hu) in E2.
    rewrite <- (includes_remove_first_other RECENTLY_CREATED_LABEL) in E2
      by apply recency_names_differ.
    apply length_remove_first in E1, E2. lia.
  - apply andb_true_iff in E1. destruct E1 as [E1 _].
    apply (currentlyHas_includes _ _ _ Hc), length_remove_first in E1. lia.
  - apply andb_true_iff in E2. destruct E2 as [E2 _].
    apply (currentlyHas_includes _ _ _ Hu), length_remove_first in E2. lia.
Qed.

(** X10. In the cleanup job the two loops agree: a task is queued by the
    first loop exactly when the list the second loop builds for it differs
    from the list it holds, and that list is then strictly shorter; so no
    queued task is left without an update and no update repeats a list. *)
Theorem cleanup_queue_agrees_with_update
    (Date_parse : string -> JS.Date) (created updated : option Label.t)
    (threshold : JS.Date) (task : Task.t) :
  (forall l, created = Some l -> Label.name l = RECENTLY_CREATED_LABEL) ->
  (forall l, updated = Some l -> Label.name l = RECENTLY_UPDATED_LABEL) ->
  snd (Maintainer.newLabels Date_parse created updated threshold task)
  = Maintainer.shouldRemoveLabels Date_parse created updated threshold task
  /\ (Maintainer.shouldRemoveLabels Date_parse created updated threshold task = false ->
      fst (Maintainer.newLabels Date_parse created updated threshold task)
      = Task.labels task)
  /\ (Maintainer.shouldRemoveLabels Date_parse created updated threshold task = true ->
      (length (fst (Maintainer.newLabels Date_parse created updated threshold task))
       < length (Task.labels task))%nat).
Proof. apply maintainer_queue_facts. Qed.

Lemma cleanup_queue_agrees_with_update_witness :
  snd (Maintainer.newLabels Sample.Date_parse
         (Some (Label.mk "1" RECENTLY_CREATED_LABEL)) None
         (recentThreshold Sample.now)
         (Sample.mkTask "t1" (Some "2025-03-01T00:00:00Z") None
                        [RECENTLY_CREATED_LABEL; "work"]))
  = Maintainer.shouldRemoveLabels Sample.Date_parse
      (Some (Label.mk "1" RECENTLY_CREATED_LABEL)) None
      (recentThreshold Sample.now)
      (Sample.mkTask "t1" (Some "2025-03-01T00:00:00Z") None
                     [RECENTLY_CREATED_LABEL; "work"]).
Proof.
  apply (cleanup_queue_agrees_with_update Sample.Date_parse
           (Some (Label.mk "1" RECENTLY_CREATED_LABEL)) None
           (recentThreshold Sample.now)
           (Sample.mkTask "t1" (Some "2025-03-01T00:00:00Z") None
                          [RECENTLY_CREATED_LABEL; "work"])).
  - intros l H. now injection H as <-.
  - discriminate.
Defined.

(** Occurrences of each label in the list the cleanup job builds. *)
Lemma maintainer_newLabels_occurrences
    (Date_parse : string -> JS.Date) (created updated : option Label.t)
    (threshold : JS.Date) (task : Task.t) :
  (forall l, created = Some l -> Label.name l = RECENTLY_CREATED_LABEL) ->
  (forall l, updated = Some l -> Label.name l = RECENTLY_UPDATED_LABEL) ->
  occurrences RECENTLY_CREATED_LABEL
    (fst (Maintainer.newLabels Date_parse created updated threshold task))
  = (occurrences RECENTLY_CREATED_LABEL (Task.labels task)
     - (if Maintainer.currentlyHas created task
           && negb (Maintainer.isRecentlyCreated Date_parse threshold task)
        then 1 else 0))%nat
  /\ occurrences RECENTLY_UPDATED_LABEL
       (fst (Maintainer.newLabels Date_parse created updated threshold task))
     = (occurrences RECENTLY_UPDATED_LABEL (Task.labels task)
        - (if Maintainer.currentlyHas updated task
              && negb (Maintainer.isRecentlyUpdated Date_parse threshold task)
           then 1 else 0))%nat
  /\ (forall x, isRecencyName x = false ->
        occurrences x (fst (Maintainer.newLabels Date_parse created updated
                              threshold task))
        = occurrences x (Task.labels task))
  /\ otherLabels (fst (Maintainer.newLabels Date_parse created updated threshold task))
     = otherLabels (Task.labels task).
Proof.
  intros Hc Hu. split; [| split; [| split]].
  4: now apply maintainer_newLabels_keeps_others.
  all: rewrite (maintainer_newLabels_spec _ _ _ _ _ Hc Hu); cbn [fst].
  all: destruct (Maintainer.currentlyHas created task
                 && negb (Maintainer.isRecentlyCreated Date_parse threshold task));
    destruct (Maintainer.currentlyHas updated task
              && negb (Maintainer.isRecentlyUpdated Date_parse threshold task));
    cbv zeta.
  all: try (intros x Hx; unfold isRecencyName in Hx;
            apply orb_false_iff in Hx; destruct Hx as [Hx1 Hx2];
            apply String.eqb_neq in Hx1, Hx2).
  all: rewrite ?occurrences_remove_first_same;
    rewrite ?(occurrences_remove_first_other RECENTLY_UPDATED_LABEL
                RECENTLY_CREATED_LABEL)
      by (intro E; now apply recency_names_differ);
    rewrite ?(occurrences_remove_first_other RECENTLY_CREATED_LABEL
                RECENTLY_UPDATED_LABEL) by apply recency_names_differ;
    rewrite ?occurrences_remove_first_same;
    rewrite ?occurrences_remove_first_other by congruence;
    try lia.
Qed.

(** X11. The list the cleanup job builds for a task loses one occurrence of
    "recently created" exactly when the store has that label, the task holds
    it and the task is no longer recently created, and likewise for
    "recently updated"; a label still recent, or unknown to the store, stays,
    and every other label keeps its occurrences and its place. *)
Theorem cleanup_removes_only_stale_recency_labels
    (Date_parse : string -> JS.Date) (created updated : option Label.t)
    (threshold : JS.Date) (task : Task.t) :
  (forall l, created = Some l -> Label.name l = RECENTLY_CREATED_LABEL) ->
  (forall l, updated = Some l -> Label.name l = RECENTLY_UPDATED_LABEL) ->
  occurrences RECENTLY_CREATED_LABEL
    (fst (Maintainer.newLabels Date_parse created updated threshold task))
  = (occurrences RECENTLY_CREATED_LABEL (Task.labels task)
     - (if Maintainer.currentlyHas created task
           && negb (Maintainer.isRecentlyCreated Date_parse threshold task)
        then 1 else 0))%nat
  /\ occurrences RECENTLY_UPDATED_LABEL
       (fst (Maintainer.newLabels Date_parse created updated threshold task))
     = (occurrences RECENTLY_UPDATED_LABEL (Task.labels task)
        - (if Maintainer.currentlyHas updated task
              && negb (Maintainer.isRecentlyUpdated Date_parse threshold task)
           then 1 else 0))%nat
  /\ (forall x, isRecencyName x = false ->
        occurrences x (fst (Maintainer.newLabels Date_parse created updated
                              threshold task))
        = occurrences x (Task.labels task))
  /\ otherLabels (fst (Maintainer.newLabels Date_parse created updated threshold task))
     = otherLabels (Task.labels task).
Proof. apply maintainer_newLabels_occurrences. Qed.

Lemma cleanup_removes_only_stale_recency_labels_witness :
  otherLabels
    (fst (Maintainer.newLabels Sample.Date_parse
            (Some (Label.mk "1" RECENTLY_CREATED_LABEL))
            (Some (Label.mk "2" RECENTLY_UPDATED_LABEL))
            (recentThreshold Sample.now)
            (Sample.mkTask "t1" (Some "2025-03-01T00:00:00Z")
                           (Some "2025-03-02T05:00:00Z")
                           ["work"; RECENTLY_CREATED_LABEL;
                            RECENTLY_UPDATED_LABEL; "home"])))
  = ["work"; "home"].
Proof.
  rewrite (proj2 (proj2 (proj2
             (cleanup_removes_only_stale_recency_labels Sample.Date_parse
                (Some (Label.mk "1" RECENTLY_CREATED_LABEL))
                (Some (Label.mk "2" RECENTLY_UPDATED_LABEL))
                (recentThreshold Sample.now)
                (Sample.mkTask "t1" (Some "2025-03-01T00:00:00Z")
                               (Some "2025-03-02T05:00:00Z")
                               ["work"; RECENTLY_CREATED_LABEL;
                                RECENTLY_UPDATED_LABEL; "home"])
                ltac:(intros l H; now injection H as <-)
                ltac:(intros l H; now injection H as <-))))).
  reflexivity.
Defined.

(** One turn of the cleanup loop: it sends the update when the list
    changed, and nothing otherwise; it never touches the labels of the
    store, and a failure of the update is swallowed. *)
Lemma cleanTask_calls Date_parse created updated threshold task n w :
  calls (snd (Maintainer.cleanTask Date_parse created updated threshold task n w))
  = calls w
    ++ (if snd (Maintainer.newLabels Date_parse created updated threshold task)
        then [UpdateTask (Task.id task)
                (fst (Maintainer.newLabels Date_parse created updated threshold task))]
        else [])
  /\ store_labels
       (snd (Maintainer.cleanTask Date_parse created updated threshold task n w))
     = store_labels w.
Proof.
  unfold Maintainer.cleanTask, try_catch.
  destruct (Maintainer.newLabels Date_parse created updated threshold task)
    as [ls changed].
  cbn [fst snd]. destruct changed.
  - unfold bind, Api.updateTask, Api.request, ret.
    destruct (hd false (faults w)); [now split |].
    now destruct (Api.find_task _ (store_tasks (Api.sent _ w))).
  - cbn. now rewrite app_nil_r.
Qed.

Lemma cleanup_loop_calls Date_parse now created updated tasks :
  (forall l, created = Some l -> Label.name l = RECENTLY_CREATED_LABEL) ->
  (forall l, updated = Some l -> Label.name l = RECENTLY_UPDATED_LABEL) ->
  forall n w,
    calls (snd (for_of (Maintainer.cleanTask Date_parse created updated
                          (recentThreshold now))
                  (filter (Maintainer.shouldRemoveLabels Date_parse created updated
                             (recentThreshold now)) tasks)
                  n w))
    = calls w ++ cleanupUpdates Date_parse now created updated tasks
    /\ store_labels
         (snd (for_of (Maintainer.cleanTask Date_parse created updated
                         (recentThreshold now))
                 (filter (Maintainer.shouldRemoveLabels Date_parse created updated
                            (recentThreshold now)) tasks)
                 n w))
       = store_labels w.
Proof.
  intros Hc Hu. unfold cleanupUpdates.
  induction tasks as [| task tasks IH]; intros n w; cbn [filter flat_map].
  - cbn. now rewrite app_nil_r.
  - destruct (Maintainer.shouldRemoveLabels _ _ _ _ task) eqn:Eq; [| apply IH].
    cbn [for_of]. unfold bind.
    destruct (cleanTask_calls Date_parse created updated (recentThreshold now)
                task n w) as [Hcalls Hlabels].
    rewrite (labelsChanged_is_queued Date_parse created updated
               (recentThreshold now) task Hc Hu), Eq in Hcalls.
    destruct (cleanTask_returns Date_parse created updated (recentThreshold now)
                task n w) as [n1 [w1 E1]].
    rewrite E1 in *. cbn [snd] in Hcalls, Hlabels.
    destruct (IH n1 w1) as [IHc IHl].
    rewrite IHc, IHl, Hcalls, Hlabels, <- app_assoc. now split.
Qed.

Lemma firstn_faults_1 (l : list bool) :
  existsb (fun b => b) (firstn 1 l) = hd false l.
Proof. destruct l as [| a l]; [reflexivity |]. cbn. apply orb_false_r. Qed.

Lemma firstn_faults_2 (l : list bool) :
  existsb (fun b => b) (firstn 2 l) = hd false l || hd false (tl l).
Proof.
  destruct l as [| a [| b l]]; cbn; rewrite ?orb_false_r; reflexivity.
Qed.

Lemma firstn_faults_3 (l : list bool) :
  existsb (fun b => b) (firstn 3 l)
  = hd false l || hd false (tl l) || hd false (tl (tl l)).
Proof.
  destruct l as [| a [| b [| c l]]]; cbn; rewrite ?orb_false_r;
    try reflexivity. now rewrite orb_assoc.
Qed.

(** A cleanup run that stops at a failed request of its setup. *)
Ltac stopped_cleanup Hfirstn F1 F2 F3 :=
  cbn [length]; rewrite Hfirstn, ?F1, ?F2, ?F3; cbn;
  rewrite ?app_nil_r, <- ?app_assoc;
  repeat split; try discriminate; try constructor; try lia;
  [intros ? [] | intros Hf; rewrite Hf in *; discriminate].

(** The update loop of a cleanup run whose setup sent [setup]. *)
Ltac run_cleanup_loop Date_parse now created updated Ec Eu setup :=
  match goal with
  | |- context [for_of ?body (filter ?q (TaskMap.values ?m)) 0%nat ?w0] =>
      destruct (cleanup_loop_calls Date_parse now created updated
                  (TaskMap.values m)
                  ltac:(intros l H; try discriminate H; injection H as <-;
                        now apply find_label_name in Ec)
                  ltac:(intros l H; try discriminate H; injection H as <-;
                        now apply find_label_name in Eu)
                  0%nat w0) as [Hcalls Hlabels];
      destruct (for_of_returns body
                  (fun x s w1 => cleanTask_returns Date_parse created updated
                                   (recentThreshold now) x s w1)
                  (filter q (TaskMap.values m)) 0%nat w0) as [n1 [wl El]];
      rewrite El in *; cbn [fst snd] in *;
      exists setup, (TaskMap.values m)
  end.

(** What is left to show for a cleanup run that reached its loop, up to
    the membership of a labelled task among the fetched ones. *)
Ltac finished_cleanup w Hcalls Hlabels Hfirstn F1 F2 F3 :=
  split; [rewrite Hcalls; cbn [calls Api.sent]; rewrite <- ?app_assoc; reflexivity |];
  split; [reflexivity |];
  split; [cbn; lia |];
  split; [rewrite Hlabels; reflexivity |];
  split; [apply set_all_incl; try apply incl_app;
          intros t Hin; apply filter_In in Hin; tauto |];
  split; [apply keyed_ids, keyed_set_all, keyed_empty |];
  split; [cbn [length]; rewrite Hfirstn, ?F1, ?F2, ?F3; reflexivity |];
  split;
  [intros _ Hnd t Hin Hor;
   apply (set_all_complete (store_tasks w)); [exact Hnd | |];
   [try apply incl_app; intros t' Hin'; apply filter_In in Hin'; tauto |]
  | intros Hf;
    match goal with
    | El : for_of _ _ _ ?w0 = _ |- _ =>
        exists w0; split; [now rewrite El | split; [reflexivity |]];
        cbn [faults Api.sent]; now rewrite Hf
    end].

Lemma maintainer_main_trace (token : option string)
    (Date_parse : string -> JS.Date) (now : Z) (w : World) :
  JS.truthy token = true ->
  exists setup tasks,
    calls (snd (Maintainer.main token Date_parse now w))
    = calls w ++ setup
      ++ cleanupUpdates Date_parse now
           (Webhook.find_label RECENTLY_CREATED_LABEL (store_labels w))
           (Webhook.find_label RECENTLY_UPDATED_LABEL (store_labels w)) tasks
    /\ existsb is_write setup = false
    /\ (length setup <= 3)%nat
    /\ store_labels (snd (Maintainer.main token Date_parse now w)) = store_labels w
    /\ incl tasks (store_tasks w)
    /\ NoDup (map Task.id tasks)
    /\ fst (Maintainer.main token Date_parse now w)
       = (if existsb (fun b => b) (firstn (length setup) (faults w))
          then Ok (DenoExit 1) else Ok Returned)
    /\ (fst (Maintainer.main token Date_parse now w) = Ok Returned ->
        NoDup (map Task.id (store_tasks w)) ->
        forall task, In task (store_tasks w) ->
          (Webhook.find_label RECENTLY_CREATED_LABEL (store_labels w) <> None
           /\ In RECENTLY_CREATED_LABEL (Task.labels task))
          \/ (Webhook.find_label RECENTLY_UPDATED_LABEL (store_labels w) <> None
              /\ In RECENTLY_UPDATED_LABEL (Task.labels task)) ->
          In task tasks)
    /\ (faults w = [] ->
        exists w0,
          snd (Maintainer.main token Date_parse now w)
          = snd (for_of
                   (Maintainer.cleanTask Date_parse
                      (Webhook.find_label RECENTLY_CREATED_LABEL (store_labels w))
                      (Webhook.find_label RECENTLY_UPDATED_LABEL (store_labels w))
                      (recentThreshold now))
                   (filter
                      (Maintainer.shouldRemoveLabels Date_parse
                         (Webhook.find_label RECENTLY_CREATED_LABEL (store_labels w))
                         (Webhook.find_label RECENTLY_UPDATED_LABEL (store_labels w))
                         (recentThreshold now))
                      tasks)
                   0%nat w0)
          /\ store_tasks w0 = store_tasks w
          /\ faults w0 = []).
Proof.
  intros Ht. unfold Maintainer.main, Maintainer.api. rewrite Ht. cbn [negb].
  unfold try_catch, bind, Api.getLabels, Api.getTasks, Api.request, ret.
  change (Maintainer.find_label) with (Webhook.find_label).
  destruct (hd false (faults w)) eqn:F1.
  { exists [GetLabels], []. stopped_cleanup firstn_faults_1 F1 F1 F1. }
  cbn [store_labels Api.sent faults].
  destruct (Webhook.find_label RECENTLY_CREATED_LABEL (store_labels w))
    as [created |] eqn:Ec;
  destruct (Webhook.find_label RECENTLY_UPDATED_LABEL (store_labels w))
    as [updated |] eqn:Eu.
  4:{ exists [GetLabels], []. cbn [length]. rewrite firstn_faults_1, F1. cbn.
      repeat split; try discriminate; try constructor; try lia.
      - intros ? [].
      - intros _ _ t _ [[H _] | [H _]]; now elim H.
      - intros Hf. exists (Api.sent GetLabels w). cbn. now rewrite Hf. }
  - cbn [faults Api.sent store_tasks].
    destruct (hd false (tl (faults w))) eqn:F2.
    { exists [GetLabels; GetTasks RECENTLY_CREATED_LABEL], [].
      stopped_cleanup firstn_faults_2 F1 F2 F2. }
    cbn [faults Api.sent store_tasks].
    destruct (hd false (tl (tl (faults w)))) eqn:F3.
    { exists [GetLabels; GetTasks RECENTLY_CREATED_LABEL;
              GetTasks RECENTLY_UPDATED_LABEL], [].
      stopped_cleanup firstn_faults_3 F1 F2 F3. }
    run_cleanup_loop Date_parse now (Some created) (Some updated) Ec Eu
      [GetLabels; GetTasks RECENTLY_CREATED_LABEL; GetTasks RECENTLY_UPDATED_LABEL].
    rewrite set_all_app in *.
    finished_cleanup w Hcalls Hlabels firstn_faults_3 F1 F2 F3.
    destruct Hor as [[_ H] | [_ H]]; apply in_or_app; [left | right];
      apply filter_In; (split; [assumption | now apply includes_In]).
  - cbn [faults Api.sent store_tasks].
    destruct (hd false (tl (faults w))) eqn:F2.
    { exists [GetLabels; GetTasks RECENTLY_CREATED_LABEL], [].
      stopped_cleanup firstn_faults_2 F1 F2 F2. }
    run_cleanup_loop Date_parse now (Some created) (@None Label.t) Ec Eu
      [GetLabels; GetTasks RECENTLY_CREATED_LABEL].
    finished_cleanup w Hcalls Hlabels firstn_faults_2 F1 F2 F2.
    destruct Hor as [[_ H] | [H _]]; [| now elim H].
    apply filter_In; (split; [assumption | now apply includes_In]).
  - cbn [faults Api.sent store_tasks].
    destruct (hd false (tl (faults w))) eqn:F2.
    { exists [GetLabels; GetTasks RECENTLY_UPDATED_LABEL], [].
      stopped_cleanup firstn_faults_2 F1 F2 F2. }
    run_cleanup_loop Date_parse now (@None Label.t) (Some updated) Ec Eu
      [GetLabels; GetTasks RECENTLY_UPDATED_LABEL].
    finished_cleanup w Hcalls Hlabels firstn_faults_2 F1 F2 F2.
    destruct Hor as [[H _] | [_ H]]; [now elim H |].
    apply filter_In; (split; [assumption | now apply includes_In]).
Qed.

Lemma in_cleanupUpdates Date_parse now created updated tasks (c : Call) :
  In c (cleanupUpdates Date_parse now created updated tasks) ->
  exists task,
    In task tasks
    /\ Maintainer.shouldRemoveLabels Date_parse created updated
         (recentThreshold now) task = true
    /\ c = UpdateTask (Task.id task)
             (fst (Maintainer.newLabels Date_parse created updated
                     (recentThreshold now) task)).
Proof.
  unfold cleanupUpdates. rewrite in_flat_map. intros [task [Hin Hc]].
  exists task. destruct (Maintainer.shouldRemoveLabels _ _ _ _ task);
    [| destruct Hc].
  destruct Hc as [<- | []]. auto.
Qed.

Lemma not_write_not_in (cs : list Call) (c : Call) :
  existsb is_write cs = false -> is_write c = true -> ~ In c cs.
Proof.
  intros H Hc Hin.
  assert (existsb is_write cs = true) as E
    by (apply existsb_exists; now exists c).
  congruence.
Qed.

Lemma updatedIds_no_write (cs : list Call) :
  existsb is_write cs = false -> updatedIds cs = [].
Proof.
  unfold updatedIds. induction cs as [| c cs IH]; [reflexivity |].
  cbn. intros H. apply orb_false_iff in H. destruct H as [Hc H].
  rewrite (IH H). destruct c; try reflexivity; discriminate.
Qed.

Lemma updatedIds_cleanupUpdates Date_parse now created updated tasks :
  updatedIds (cleanupUpdates Date_parse now created updated tasks)
  = map Task.id
      (filter (Maintainer.shouldRemoveLabels Date_parse created updated
                 (recentThreshold now)) tasks).
Proof.
  unfold updatedIds, cleanupUpdates.
  induction tasks as [| task tasks IH]; [reflexivity |].
  cbn [flat_map filter]. rewrite flat_map_app.
  destruct (Maintainer.shouldRemoveLabels _ _ _ _ task); cbn; now rewrite IH.
Qed.

Lemma selected_ids_distinct (keep : Task.t -> bool) (tasks : list Task.t) :
  NoDup (map Task.id tasks) -> NoDup (map Task.id (filter keep tasks)).
Proof.
  intros Hnd. induction tasks as [| t rest IH]; cbn in *; [exact Hnd |].
  apply NoDup_cons_iff in Hnd. destruct Hnd as [Hfresh Hrest].
  destruct (keep t); cbn; [| exact (IH Hrest)].
  apply NoDup_cons; [| exact (IH Hrest)].
  intros Hin. apply Hfresh.
  apply in_map_iff in Hin. destruct Hin as [u [Eid Hu]].
  apply filter_In in Hu. rewrite <- Eid. apply in_map. exact (proj1 Hu).
Qed.

(** X12. The cleanup job never creates a label and never adds one to a
    task, whatever the store and the failures: the labels of the store are
    as before, no request creates a label, and every update it sends is for
    a task of the store and carries that task's list made strictly shorter,
    with no label gaining an occurrence, the other labels in place, and a
    recency label that is still recent untouched. *)
Theorem cleanup_run_only_removes (token : option string)
    (Date_parse : string -> JS.Date) (now : Z) (w : World) :
  store_labels (snd (Maintainer.main token Date_parse now w)) = store_labels w
  /\ exists cs,
       calls (snd (Maintainer.main token Date_parse now w)) = calls w ++ cs
       /\ (forall name, ~ In (AddLabel name) cs)
       /\ forall id ls, In (UpdateTask id ls) cs ->
            exists task,
              In task (store_tasks w) /\ Task.id task = id
              /\ otherLabels ls = otherLabels (Task.labels task)
              /\ (length ls < length (Task.labels task))%nat
              /\ (forall x, (occurrences x ls <= occurrences x (Task.labels task))%nat)
              /\ (Maintainer.isRecentlyCreated Date_parse (recentThreshold now) task
                  = true ->
                  occurrences RECENTLY_CREATED_LABEL ls
                  = occurrences RECENTLY_CREATED_LABEL (Task.labels task))
              /\ (Maintainer.isRecentlyUpdated Date_parse (recentThreshold now) task
                  = true ->
                  occurrences RECENTLY_UPDATED_LABEL ls
                  = occurrences RECENTLY_UPDATED_LABEL (Task.labels task)).
Proof.
  destruct (JS.truthy token) eqn:Ht.
  2:{ unfold Maintainer.main, Maintainer.api. rewrite Ht. cbn.
      split; [reflexivity |]. exists []. rewrite app_nil_r.
      split; [reflexivity | split; [intros name [] | intros id ls []]]. }
  destruct (maintainer_main_trace token Date_parse now w Ht)
    as [setup [tasks [Hcalls [Hsetup [_ [Hlabels [Hincl _]]]]]]].
  split; [exact Hlabels |].
  eexists. split; [exact Hcalls |].
  assert (Hc : forall l, Webhook.find_label RECENTLY_CREATED_LABEL (store_labels w)
                         = Some l -> Label.name l = RECENTLY_CREATED_LABEL)
    by (intros l H; now apply find_label_name in H).
  assert (Hu : forall l, Webhook.find_label RECENTLY_UPDATED_LABEL (store_labels w)
                         = Some l -> Label.name l = RECENTLY_UPDATED_LABEL)
    by (intros l H; now apply find_label_name in H).
  split.
  - intros name Hin. apply in_app_or in Hin. destruct Hin as [Hin | Hin].
    + now apply (not_write_not_in _ _ Hsetup) in Hin.
    + apply in_cleanupUpdates in Hin. destruct Hin as [task [_ [_ E]]].
      discriminate E.
  - intros id ls Hin. apply in_app_or in Hin. destruct Hin as [Hin | Hin];
      [now apply (not_write_not_in _ _ Hsetup) in Hin |].
    apply in_cleanupUpdates in Hin. destruct Hin as [task [Htask [Hq E]]].
    injection E as -> ->. exists task.
    destruct (maintainer_newLabels_occurrences Date_parse _ _
                (recentThreshold now) task Hc Hu) as [Oc [Ou [Oo Hothers]]].
    destruct (maintainer_queue_facts Date_parse _ _
                (recentThreshold now) task Hc Hu) as [_ [_ Hshorter]].
    split; [now apply Hincl |]. split; [reflexivity |].
    split; [exact Hothers |]. split; [now apply Hshorter |].
    split; [| split].
    + intros x. destruct (isRecencyName x) eqn:Ex; [| now rewrite Oo].
      unfold isRecencyName in Ex. apply orb_true_iff in Ex.
      destruct Ex as [Ex | Ex]; apply String.eqb_eq in Ex; subst x;
        [rewrite Oc | rewrite Ou]; lia.
    + intros Hr. rewrite Oc, Hr, andb_false_r. lia.
    + intros Hr. rewrite Ou, Hr, andb_false_r. lia.
Qed.

Lemma existsb_firstn_le {A} (f : A -> bool) (l : list A) (k n : nat) :
  (k <= n)%nat ->
  existsb f (firstn n l) = false -> existsb f (firstn k l) = false.
Proof.
  revert k n. induction l as [| x l IH]; intros k n Hkn H.
  - now rewrite firstn_nil.
  - destruct k as [| k]; [reflexivity |].
    destruct n as [| n]; [lia |]. cbn in *.
    apply orb_false_iff in H. destruct H as [Hx H]. rewrite Hx. cbn.
    apply (IH k n); [lia | exact H].
Qed.

(** X13. The cleanup job of an initialised client always ends by returning
    or by [Deno.exit(1)], and only its setup decides which: when its first
    three requests meet no failure it returns normally, whatever fails for
    the tasks it updates; when the fetch of the labels fails it exits with
    code 1 having sent that one request. *)
Theorem cleanup_exit_code (token : option string)
    (Date_parse : string -> JS.Date) (now : Z) (w : World) :
  JS.truthy token = true ->
  (fst (Maintainer.main token Date_parse now w) = Ok Returned
   \/ fst (Maintainer.main token Date_parse now w) = Ok (DenoExit 1))
  /\ (existsb (fun b => b) (firstn 3 (faults w)) = false ->
      fst (Maintainer.main token Date_parse now w) = Ok Returned)
  /\ (hd false (faults w) = true ->
      Maintainer.main token Date_parse now w
      = (Ok (DenoExit 1), Api.sent GetLabels w)).
Proof.
  intros Ht.
  destruct (maintainer_main_trace token Date_parse now w Ht)
    as [setup [tasks [_ [_ [Hlen [_ [_ [_ [Hfst _]]]]]]]]].
  split; [| split].
  - rewrite Hfst. destruct (existsb _ _); auto.
  - intros H. rewrite Hfst, (existsb_firstn_le _ _ _ 3 Hlen H). reflexivity.
  - intros H. unfold Maintainer.main, Maintainer.api. rewrite Ht. cbn [negb].
    unfold try_catch, bind, Api.getLabels, Api.request. now rewrite H.
Qed.

(** A stale task whose update fails: the job still returns normally. *)
Lemma cleanup_exit_code_witness :
  fst (Maintainer.main Sample.token Sample.Date_parse Sample.now
         (Sample.world Sample.bothLabels
            [Sample.mkTask "t1" (Some "2025-03-01T00:00:00Z") None
                           [RECENTLY_CREATED_LABEL; "work"]]
            [false; false; false; true]))
  = Ok Returned.
Proof.
  apply (cleanup_exit_code Sample.token Sample.Date_parse Sample.now
           (Sample.world Sample.bothLabels
              [Sample.mkTask "t1" (Some "2025-03-01T00:00:00Z") None
                             [RECENTLY_CREATED_LABEL; "work"]]
              [false; false; false; true])
           eq_refl).
  reflexivity.
Defined.

(** X14. In one run the cleanup job updates a task at most once: the ids
    of the updates it sends are pairwise different, also when the task is
    returned by both label queries. *)
Theorem cleanup_updates_each_task_once (token : option string)
    (Date_parse : string -> JS.Date) (now : Z) (w : World) :
  exists cs,
    calls (snd (Maintainer.main token Date_parse now w)) = calls w ++ cs
    /\ NoDup (updatedIds cs).
Proof.
  destruct (JS.truthy token) eqn:Ht.
  2:{ unfold Maintainer.main, Maintainer.api. rewrite Ht. cbn.
      exists []. rewrite app_nil_r. split; [reflexivity | constructor]. }
  destruct (maintainer_main_trace token Date_parse now w Ht)
    as [setup [tasks [Hcalls [Hsetup [_ [_ [_ [Hnd _]]]]]]]].
  eexists. split; [exact Hcalls |].
  unfold updatedIds. rewrite flat_map_app.
  fold (updatedIds setup).
  fold (updatedIds (cleanupUpdates Date_parse now
          (Webhook.find_label RECENTLY_CREATED_LABEL (store_labels w))
          (Webhook.find_label RECENTLY_UPDATED_LABEL (store_labels w)) tasks)).
  rewrite (updatedIds_no_write _ Hsetup), updatedIds_cleanupUpdates. cbn [app].
  now apply selected_ids_distinct.
Qed.

Lemma find_task_In (tasks : list Task.t) (task : Task.t) :
  NoDup (map Task.id tasks) ->
  In task tasks ->
  Api.find_task (Task.id task) tasks = Some task.
Proof.
  intros Hnd Hin. unfold Api.find_task.
  destruct (find (fun t => (Task.id t =? Task.id task)%string) tasks)
    as [found |] eqn:Ef.
  - pose proof (find_some _ _ Ef) as [Hf E]. apply String.eqb_eq in E.
    f_equal. now apply (ids_determine_task tasks).
  - pose proof (find_none _ _ Ef _ Hin) as E. simpl in E.
    now rewrite String.eqb_refl in E.
Qed.

Lemma set_labels_same (task : Task.t) :
  Api.set_labels (Task.labels task) task = task.
Proof. now destruct task. Qed.

(** The update loop of the cleanup job on the store, when nothing fails:
    each queued task gets the list built for it, the others stay. *)
Lemma cleanup_loop_store Date_parse created updated threshold queue :
  NoDup (map Task.id queue) ->
  (forall task, In task queue ->
     snd (Maintainer.newLabels Date_parse created updated threshold task) = true) ->
  forall n w,
    faults w = [] ->
    (forall task, In task queue ->
       Api.find_task (Task.id task) (store_tasks w) = Some task) ->
    forall id,
      Api.find_task id
        (store_tasks
           (snd (for_of (Maintainer.cleanTask Date_parse created updated threshold)
                   queue n w)))
      = match find (fun task => (Task.id task =? id)%string) queue with
        | Some task =>
            Some (Api.set_labels
                    (fst (Maintainer.newLabels Date_parse created updated
                            threshold task))
                    task)
        | None => Api.find_task id (store_tasks w)
        end.
Proof.
  induction queue as [| task queue IH]; intros Hnd Hchanged n w Hf Hfound id.
  - reflexivity.
  - inversion Hnd as [| ? ? Hnot Hnd']; subst.
    cbn [for_of find]. unfold bind.
    assert (Erun :
              Maintainer.cleanTask Date_parse created updated threshold task n w
              = (Ok (S n),
                 Api.with_tasks
                   (Api.replace_labels (Task.id task)
                      (fst (Maintainer.newLabels Date_parse created updated
                              threshold task))
                      (store_tasks w))
                   (Api.sent
                      (UpdateTask (Task.id task)
                         (fst (Maintainer.newLabels Date_parse created updated
                                 threshold task)))
                      w))).
    { unfold Maintainer.cleanTask, try_catch.
      pose proof (Hchanged task (or_introl eq_refl)) as Ec.
      destruct (Maintainer.newLabels Date_parse created updated threshold task)
        as [ls changed].
      cbn [fst snd] in *. subst changed.
      unfold bind, Api.updateTask, Api.request, ret. rewrite Hf. cbn [hd].
      cbn [store_tasks Api.sent].
      now rewrite (Hfound task (or_introl eq_refl)). }
    rewrite Erun.
    rewrite IH; auto.
    + cbn [store_tasks Api.with_tasks].
      destruct (String.eqb_spec (Task.id task) id) as [<- | Hne].
      * destruct (find (fun t => (Task.id t =? Task.id task)%string) queue)
          as [other |] eqn:Eo.
        -- exfalso. apply find_some in Eo. destruct Eo as [Ho E].
           apply String.eqb_eq in E. apply Hnot. rewrite <- E. now apply in_map.
        -- apply find_task_replace. apply Hfound. now left.
      * destruct (find (fun t => (Task.id t =? id)%string) queue); [reflexivity |].
        apply find_task_replace_other. congruence.
    + intros t Ht. apply Hchanged. now right.
    + cbn. now rewrite Hf.
    + intros t Ht. cbn [store_tasks Api.with_tasks].
      rewrite find_task_replace_other; [apply Hfound; now right |].
      intros E. apply Hnot. rewrite <- E. now apply in_map.
Qed.

(** X15. After a cleanup run with an initialised client, no remote failure
    and a store whose task ids are pairwise different, every task of the
    store holds exactly the list the job builds for it: a task that held a
    stale recency label known to the store has lost it, and every other task
    is as before. *)
Theorem cleanup_leaves_each_task_cleaned (token : option string)
    (Date_parse : string -> JS.Date) (now : Z) (w : World) (task : Task.t) :
  JS.truthy token = true ->
  faults w = [] ->
  NoDup (map Task.id (store_tasks w)) ->
  In task (store_tasks w) ->
  Api.find_task (Task.id task)
    (store_tasks (snd (Maintainer.main token Date_parse now w)))
  = Some (Api.set_labels
            (fst (Maintainer.newLabels Date_parse
                    (Webhook.find_label RECENTLY_CREATED_LABEL (store_labels w))
                    (Webhook.find_label RECENTLY_UPDATED_LABEL (store_labels w))
                    (recentThreshold now) task))
            task).
Proof.
  intros Ht Hf Hnd Hin.
  destruct (maintainer_main_trace token Date_parse now w Ht)
    as [setup [tasks [_ [_ [Hlen [_ [Hincl [Hndt [Hfst [Hcomplete Hstore]]]]]]]]]].
  destruct (Hstore Hf) as [w0 [-> [Et Hf0]]].
  assert (Hok : fst (Maintainer.main token Date_parse now w) = Ok Returned).
  { rewrite Hfst. rewrite Hf. now rewrite firstn_nil. }
  set (created := Webhook.find_label RECENTLY_CREATED_LABEL (store_labels w)) in *.
  set (updated := Webhook.find_label RECENTLY_UPDATED_LABEL (store_labels w)) in *.
  assert (Hc : forall l, created = Some l -> Label.name l = RECENTLY_CREATED_LABEL)
    by (intros l H; now apply find_label_name in H).
  assert (Hu : forall l, updated = Some l -> Label.name l = RECENTLY_UPDATED_LABEL)
    by (intros l H; now apply find_label_name in H).
  rewrite (cleanup_loop_store Date_parse created updated (recentThreshold now)).
  - destruct (find _ (filter _ tasks)) as [found |] eqn:Efound.
    + apply find_some in Efound. destruct Efound as [Hq E].
      apply String.eqb_eq in E. apply filter_In in Hq. destruct Hq as [Hq _].
      now rewrite (ids_determine_task (store_tasks w) found task Hnd
                     (Hincl _ Hq) Hin E).
    + rewrite Et, (find_task_In _ _ Hnd Hin). f_equal.
      destruct (Maintainer.shouldRemoveLabels Date_parse created updated
                  (recentThreshold now) task) eqn:Eq.
      * exfalso.
        assert (Htask : In task tasks).
        { apply (Hcomplete Hok Hnd task Hin).
          unfold Maintainer.shouldRemoveLabels in Eq.
          destruct (Maintainer.currentlyHas created task) eqn:Hhc.
          - left. split.
            + unfold Maintainer.currentlyHas in Hhc. now destruct created.
            + apply includes_In. now apply (currentlyHas_includes _ _ _ Hc).
          - destruct (Maintainer.currentlyHas updated task) eqn:Hhu;
              [| discriminate Eq].
            right. split.
            + unfold Maintainer.currentlyHas in Hhu. now destruct updated.
            + apply includes_In. now apply (currentlyHas_includes _ _ _ Hu). }
        pose proof (find_none _ _ Efound task) as Hnone. simpl in Hnone.
        rewrite String.eqb_refl in Hnone. apply Bool.diff_true_false, Hnone.
        apply filter_In. now split.
      * destruct (maintainer_queue_facts Date_parse created updated
                    (recentThreshold now) task Hc Hu) as [_ [Hsame _]].
        rewrite (Hsame Eq). symmetry. apply set_labels_same.
  - now apply selected_ids_distinct.
  - intros t Hq. apply filter_In in Hq. destruct Hq as [_ Hq].
    now rewrite (labelsChanged_is_queued Date_parse created updated
                   (recentThreshold now) t Hc Hu).
  - exact Hf0.
  - intros t Hq. apply filter_In in Hq. destruct Hq as [Hq _].
    rewrite Et. apply (find_task_In _ _ Hnd). now apply Hincl.
Qed.

(** A task created 30 h ago loses "recently created" and keeps "work". *)
Lemma cleanup_leaves_each_task_cleaned_witness :
  Api.find_task "t1"
    (store_tasks
       (snd (Maintainer.main Sample.token Sample.Date_parse Sample.now
               (Sample.world Sample.bothLabels
                  [Sample.mkTask "t1" (Some "2025-03-01T00:00:00Z") None
                                 [RECENTLY_CREATED_LABEL; "work"];
                   Sample.mkTask "t2" (Some "2025-03-02T05:00:00Z") None
                                 [RECENTLY_CREATED_LABEL]] []))))
  = Some (Sample.mkTask "t1" (Some "2025-03-01T00:00:00Z") None ["work"]).
Proof.
  refine (eq_trans
            (cleanup_leaves_each_task_cleaned Sample.token Sample.Date_parse
               Sample.now
               (Sample.world Sample.bothLabels
                  [Sample.mkTask "t1" (Some "2025-03-01T00:00:00Z") None
                                 [RECENTLY_CREATED_LABEL; "work"];
                   Sample.mkTask "t2" (Some "2025-03-02T05:00:00Z") None
                                 [RECENTLY_CREATED_LABEL]] [])
               (Sample.mkTask "t1" (Some "2025-03-01T00:00:00Z") None
                              [RECENTLY_CREATED_LABEL; "work"])
               eq_refl eq_refl _ _) _).
  - repeat constructor; cbn; intuition discriminate.
  - now left.
  - reflexivity.
Defined.

(* ================================================================= *)
(** ** Further properties: the add-and-remove job *)

(** X16. In the add-and-remove job, the filter that picks the recently
    modified tasks among the tasks of the last days decides exactly as the
    recency decision does for "recently updated": a task passes it iff the
    first loop then wants that label on it. *)
Theorem labeler_modified_filter_is_the_decision
    (Date_parse : string -> JS.Date) (threshold : JS.Date) (task : Task.t) :
  Labeler.recentlyModified Date_parse threshold task
  = Labeler.isRecentlyUpdated Date_parse threshold task.
Proof.
  unfold Labeler.recentlyModified, Labeler.isRecentlyUpdated,
    Labeler.updatedDate, Labeler.createdDate, JS.or_opt, JS.truthy, JS.or_str.
  destruct (Task.updatedAt task) as [u |].
  - destruct (u =? EmptyString)%string eqn:Eu; cbn [negb]; [| now rewrite Eu].
    destruct (new_Date Date_parse _) as [c |]; cbn; [| reflexivity].
    destruct threshold as [th |]; [| reflexivity].
    now rewrite Z.eqb_refl, andb_false_r.
  - cbn [negb].
    destruct (new_Date Date_parse _) as [c |]; cbn; [| reflexivity].
    destruct threshold as [th |]; [| reflexivity].
    now rewrite Z.eqb_refl, andb_false_r.
Qed.

Lemma filter_Permutation {A} (p : A -> bool) (l l' : list A) :
  Permutation l l' -> Permutation (filter p l) (filter p l').
Proof.
  induction 1 as [| x l l' _ IH | x y l | l l' l'' _ IH1 _ IH2]; simpl.
  - constructor.
  - destruct (p x); [now constructor | exact IH].
  - destruct (p x), (p y); try reflexivity. apply perm_swap.
  - now transitivity (filter p l').
Qed.

Lemma insert_sorted (x : string) (l : list string) :
  sorted l -> sorted (JS.insert x l).
Proof.
  unfold sorted. induction l as [| y l IH]; simpl; intros Hs.
  - repeat constructor.
  - destruct (x <=? y)%string eqn:E.
    + constructor; [exact Hs | now constructor].
    + apply Sorted_inv in Hs. destruct Hs as [Hs Hhd].
      constructor; [now apply IH |].
      destruct (String.leb_total x y) as [H | H]; [congruence |].
      destruct l as [| z l]; simpl.
      * now constructor.
      * destruct (x <=? z)%string; constructor; [exact H |].
        now inversion Hhd.
Qed.

Lemma sort_sorted (l : list string) : sorted (JS.sort l).
Proof.
  unfold JS.sort. induction l as [| x l IH]; simpl.
  - constructor.
  - now apply insert_sorted.
Qed.

(** X17. An update of the add-and-remove job carries, for every task and
    state of the world, the edited list in sorted order: the list sent is
    sorted, holds exactly the labels of the edited list with their
    occurrences, and so keeps every label other than the two recency labels
    with its occurrences, if not at its place; one turn of the loop sends at
    most that one update. *)
Theorem labeler_update_is_sorted_permutation
    (created updated : Label.t) (info : Labeler.TaskUpdateInfo)
    (n : nat) (w : World) :
  Label.name created = RECENTLY_CREATED_LABEL ->
  Label.name updated = RECENTLY_UPDATED_LABEL ->
  exists cs,
    calls (snd (Labeler.updateOne created updated info n w)) = calls w ++ cs
    /\ (length cs <= 1)%nat
    /\ forall c, In c cs ->
         exists ls,
           c = UpdateTask (Task.id (Labeler.task info)) ls
           /\ sorted ls
           /\ Permutation ls (Labeler.newLabels created updated info)
           /\ Permutation (otherLabels ls)
                          (otherLabels (Task.labels (Labeler.task info))).
Proof.
  intros Hc Hu. rewrite updateOne_calls. eexists. split; [reflexivity |].
  destruct (JS.stringify_neq _ _); cbn [length]; split; try lia.
  - intros c [<- | []]. eexists. split; [reflexivity |].
    split; [apply sort_sorted |]. split; [apply sort_Permutation |].
    rewrite <- (labeler_newLabels_keeps_others created updated info Hc Hu).
    apply filter_Permutation, sort_Permutation.
  - intros c [].
Qed.

Lemma labeler_update_is_sorted_permutation_witness :
  exists cs,
    calls (snd (Labeler.updateOne
                  (Label.mk "1" RECENTLY_CREATED_LABEL)
                  (Label.mk "2" RECENTLY_UPDATED_LABEL)
                  (Labeler.mkInfo
                     (Sample.mkTask "t1" (Some "2025-03-02T05:00:00Z") None
                                    ["work"; "home"])
                     true false false false)
                  0%nat (Sample.world Sample.bothLabels [] [])))
    = [] ++ cs
    /\ (length cs <= 1)%nat
    /\ forall c, In c cs ->
         exists ls,
           c = UpdateTask "t1" ls
           /\ sorted ls
           /\ Permutation ls ["work"; "home"; RECENTLY_CREATED_LABEL]
           /\ Permutation (otherLabels ls) ["work"; "home"].
Proof.
  exact (labeler_update_is_sorted_permutation
           (Label.mk "1" RECENTLY_CREATED_LABEL)
           (Label.mk "2" RECENTLY_UPDATED_LABEL)
           (Labeler.mkInfo
              (Sample.mkTask "t1" (Some "2025-03-02T05:00:00Z") None
                             ["work"; "home"])
              true false false false)
           0%nat (Sample.world Sample.bothLabels [] [])
           eq_refl eq_refl).
Defined.

(* ================================================================= *)
(** ** Further properties: a run of the add-and-remove job *)

Lemma existsb_firstn_S (l : list bool) (k : nat) :
  existsb (fun b => b) (firstn (S k) l)
  = hd false l || existsb (fun b => b) (firstn k (tl l)).
Proof.
  destruct l as [| b l]; cbn; [now rewrite firstn_nil | reflexivity].
Qed.

(** A loop whose body always returns ends in the world it reaches. *)
Lemma for_of_run {A S} (body : A -> S -> M S) :
  (forall x s w, exists s' w', body x s w = (Ok s', w')) ->
  forall l s w, exists s', for_of body l s w = (Ok s', snd (for_of body l s w)).
Proof.
  intros Hbody l s w.
  destruct (for_of_returns body Hbody l s w) as [s' [w' E]].
  exists s'. now rewrite E.
Qed.

Lemma inspectedTasks_incl Date_parse now w :
  incl (inspectedTasks Date_parse now w) (store_tasks w).
Proof.
  unfold inspectedTasks. cbv zeta. rewrite !set_all_app.
  apply set_all_incl.
  repeat apply incl_app; intros t Hin; repeat (apply filter_In in Hin;
    destruct Hin as [Hin _]); exact Hin.
Qed.

Lemma inspectedTasks_ids Date_parse now w :
  NoDup (map Task.id (inspectedTasks Date_parse now w)).
Proof.
  unfold inspectedTasks. cbv zeta.
  apply keyed_ids. repeat apply keyed_set_all. apply keyed_empty.
Qed.

Lemma inspectedTasks_inspected Date_parse now w task :
  In task (inspectedTasks Date_parse now w) ->
  inspected Date_parse now w task = true.
Proof.
  unfold inspectedTasks, inspected. cbv zeta. rewrite !set_all_app.
  intros H. apply TaskMap_set_all_values in H. destruct H as [[] | H].
  repeat (apply in_app_or in H; destruct H as [H | H]);
    repeat (apply filter_In in H; destruct H as [H ?]);
    repeat match goal with E : _ = true |- _ => rewrite E; clear E end;
    rewrite ?orb_true_r; reflexivity.
Qed.

Lemma inspectedTasks_complete Date_parse now w task :
  NoDup (map Task.id (store_tasks w)) ->
  In task (store_tasks w) ->
  inspected Date_parse now w task = true ->
  In task (inspectedTasks Date_parse now w).
Proof.
  intros Hnd Hin H. unfold inspectedTasks, inspected in *. cbv zeta.
  rewrite !set_all_app.
  apply (set_all_complete (store_tasks w)); [exact Hnd | |].
  - repeat apply incl_app; intros t Ht; repeat (apply filter_In in Ht;
      destruct Ht as [Ht _]); exact Ht.
  - apply orb_true_iff in H. destruct H as [H | H].
    + apply orb_true_iff in H. destruct H as [H | H].
      * apply in_or_app. left. apply filter_In. now split.
      * apply in_or_app. right. apply in_or_app. left.
        apply filter_In. now split.
    + apply andb_true_iff in H. destruct H as [Hq H].
      apply orb_true_iff in H.
      apply in_or_app. right. apply in_or_app. right.
      destruct H as [H | H]; apply in_or_app; [left | right];
        apply filter_In; (split; [apply filter_In; now split | exact H]).
Qed.

(** What is left to show once a run of the add-and-remove job has been
    followed to its end, with [w0], the setup and the labels created read
    off the run. *)
Ltac labeler_run_facts :=
  split; [cbn [calls Api.sent Api.with_labels]; rewrite <- ?app_assoc; reflexivity |];
  split; [reflexivity |];
  split; [reflexivity |];
  split; [reflexivity |];
  split; [intros Hf; cbn [faults Api.sent Api.with_labels]; rewrite Hf; reflexivity |];
  split; [cbn [store_labels Api.sent Api.with_labels]; rewrite <- ?app_assoc;
          first [reflexivity | symmetry; apply app_nil_r] |];
  split; [cbn [map app Label.name]; repeat constructor; cbn; intuition discriminate |];
  split; [repeat (constructor; try (cbn [Label.name]; assumption)) |];
  split; [cbn [fst length app]; rewrite !existsb_firstn_S;
          repeat match goal with F : hd false _ = _ |- _ => rewrite F end;
          reflexivity |];
  intros Hreturned; first [discriminate Hreturned | reflexivity].

Ltac labeler_stopped :=
  eexists; eexists; eexists; split; [left; reflexivity | labeler_run_facts].

Ltac labeler_request :=
  cbn [store_labels store_tasks store_filter faults Api.sent Api.with_labels];
  match goal with
  | |- context [if hd false ?f then _ else _] =>
      destruct (hd false f) eqn:?; [labeler_stopped |]
  end.

(** A run of the add-and-remove job with an initialised client: the world
    [w0] it reaches with the requests of its setup, whether it stops there
    with exit code 1 or goes through its update loop from there, and the
    labels it created on the way. *)
Lemma labeler_main_trace (token : option string)
    (Date_parse : string -> JS.Date) (now : Z) (w : World) :
  JS.truthy token = true ->
  exists w0 setup added,
    (Labeler.main token Date_parse now w = (Ok (DenoExit 1), w0)
     \/ exists created updated,
          Labeler.main token Date_parse now w
          = (Ok Returned,
             snd (for_of (Labeler.updateOne created updated)
                    (filter Labeler.needsChange
                       (map (Labeler.inspect Date_parse created updated
                               (recentThreshold now))
                            (inspectedTasks Date_parse now w)))
                    0%nat w0))
          /\ Label.name created = RECENTLY_CREATED_LABEL
          /\ Label.name updated = RECENTLY_UPDATED_LABEL)
    /\ calls w0 = calls w ++ setup
    /\ existsb is_update setup = false
    /\ store_tasks w0 = store_tasks w
    /\ store_filter w0 = store_filter w
    /\ (faults w = [] -> faults w0 = [])
    /\ store_labels w0 = store_labels w ++ added
    /\ NoDup (map Label.name added)
    /\ Forall (fun label =>
                 isRecencyName (Label.name label) = true
                 /\ Webhook.find_label (Label.name label) (store_labels w) = None)
              added
    /\ fst (Labeler.main token Date_parse now w)
       = (if existsb (fun b => b)
               (firstn (length (labelerSetup (store_labels w))) (faults w))
          then Ok (DenoExit 1) else Ok Returned)
    /\ (fst (Labeler.main token Date_parse now w) = Ok Returned ->
        setup = labelerSetup (store_labels w)).
Proof.
  intros Ht. unfold Labeler.main, Labeler.api. rewrite Ht. cbn [negb].
  unfold Labeler.tasksToUpdate, labelerSetup, resolution_calls.
  change (Labeler.find_label) with (Webhook.find_label).
  unfold try_catch, bind, Api.getLabels, Api.addLabel, Api.getTasks,
    Api.getTasksByFilter, Api.request, ret.
  labeler_request.
  destruct (Webhook.find_label RECENTLY_CREATED_LABEL (store_labels w))
    as [created |] eqn:Ec;
  destruct (Webhook.find_label RECENTLY_UPDATED_LABEL (store_labels w))
    as [updated |] eqn:Eu;
  repeat labeler_request;
  cbn [store_labels store_tasks store_filter faults Api.sent Api.with_labels];
  match goal with
  | |- context [for_of ?body ?l ?s ?w1] =>
      destruct (for_of_run body
                  (fun x n w2 => updateOne_returns _ _ x n w2) l s w1)
        as [n1 El];
      rewrite El
  end;
  cbn [fst snd];
  eexists; eexists; eexists;
  (split;
   [right; eexists; eexists;
    split; [reflexivity |];
    split; first [reflexivity | eapply find_label_name; eassumption]
   | labeler_run_facts]).
Qed.

Lemma labelerSetup_length (labels : list Label.t) :
  (4 <= length (labelerSetup labels) <= 6)%nat.
Proof.
  unfold labelerSetup, resolution_calls.
  destruct (Webhook.find_label RECENTLY_CREATED_LABEL labels),
           (Webhook.find_label RECENTLY_UPDATED_LABEL labels); cbn; lia.
Qed.

(** X18. The add-and-remove job of an initialised client ends with exit
    code 1 exactly when one of the requests of its setup fails (the fetch of
    the labels, the creation of a missing label, the three queries: four to
    six requests), and returns normally otherwise, whatever fails for the
    tasks it updates.  A run that ends with exit code 1 has sent no update
    and changed no task. *)
Theorem labeler_exit_code (token : option string)
    (Date_parse : string -> JS.Date) (now : Z) (w : World) :
  JS.truthy token = true ->
  fst (Labeler.main token Date_parse now w)
  = (if existsb (fun b => b)
          (firstn (length (labelerSetup (store_labels w))) (faults w))
     then Ok (DenoExit 1) else Ok Returned)
  /\ (4 <= length (labelerSetup (store_labels w)) <= 6)%nat
  /\ (fst (Labeler.main token Date_parse now w) = Ok (DenoExit 1) ->
      store_tasks (snd (Labeler.main token Date_parse now w)) = store_tasks w
      /\ exists cs,
           calls (snd (Labeler.main token Date_parse now w)) = calls w ++ cs
           /\ existsb is_update cs = false).
Proof.
  intros Ht.
  destruct (labeler_main_trace token Date_parse now w Ht)
    as [w0 [setup [added [Hrun [Hcalls [Hsetup [Htasks [_ [_ [_ [_ [_ [Hfst _]]]]]]]]]]]]].
  split; [exact Hfst |]. split; [apply labelerSetup_length |].
  intros Hexit.
  destruct Hrun as [Hrun | [created [updated [Hrun _]]]];
    rewrite Hrun in *; [| discriminate Hexit].
  cbn [snd]. split; [exact Htasks |]. now exists setup.
Qed.

(** Both labels exist, so the setup is four requests; the fifth request,
    the update of the stale task, fails and the job still returns. *)
Lemma labeler_exit_code_witness :
  fst (Labeler.main Sample.token Sample.Date_parse Sample.now
         (Sample.world Sample.bothLabels
            [Sample.mkTask "t1" (Some "2025-03-01T00:00:00Z") None
                           [RECENTLY_CREATED_LABEL; "work"]]
            [false; false; false; false; true]))
  = Ok Returned.
Proof.
  exact (proj1
           (labeler_exit_code Sample.token Sample.Date_parse Sample.now
              (Sample.world Sample.bothLabels
                 [Sample.mkTask "t1" (Some "2025-03-01T00:00:00Z") None
                                [RECENTLY_CREATED_LABEL; "work"]]
                 [false; false; false; false; true])
              eq_refl)).
Defined.

Lemma updatedIds_updatesFor Date_parse now created updated tasks :
  updatedIds (updatesFor Date_parse now created updated tasks)
  = map Task.id
      (filter (fun task =>
                 Labeler.needsChange
                   (Labeler.inspect Date_parse created updated
                      (recentThreshold now) task))
              tasks).
Proof.
  unfold updatedIds, updatesFor.
  induction tasks as [| task tasks IH]; [reflexivity |].
  cbn [flat_map filter]. rewrite flat_map_app.
  destruct (Labeler.needsChange _); cbn; now rewrite IH.
Qed.

Lemma in_updatesFor Date_parse now created updated tasks (c : Call) :
  In c (updatesFor Date_parse now created updated tasks) ->
  exists task,
    In task tasks
    /\ c = UpdateTask (Task.id task)
             (labelsLeft Date_parse now created updated task).
Proof.
  unfold updatesFor. rewrite in_flat_map. intros [task [Hin Hc]].
  exists task. destruct (Labeler.needsChange _); [| destruct Hc].
  destruct Hc as [<- | []]. auto.
Qed.

Lemma not_update_not_in (cs : list Call) id ls :
  existsb is_update cs = false -> ~ In (UpdateTask id ls) cs.
Proof.
  intros H Hin.
  assert (existsb is_update cs = true) as E
    by (apply existsb_exists; now exists (UpdateTask id ls)).
  congruence.
Qed.

(** X19. Whatever the store and the failures, the add-and-remove job
    updates a task at most once in a run, also when several of its queries
    return the task; and every update is for a task of the store that holds
    a recency label or that the seven-day query returns and one of the two
    filters keeps. *)
Theorem labeler_updates_each_task_once (token : option string)
    (Date_parse : string -> JS.Date) (now : Z) (w : World) :
  exists cs,
    calls (snd (Labeler.main token Date_parse now w)) = calls w ++ cs
    /\ NoDup (updatedIds cs)
    /\ forall id ls, In (UpdateTask id ls) cs ->
         exists task,
           In task (store_tasks w) /\ Task.id task = id
           /\ inspected Date_parse now w task = true.
Proof.
  destruct (JS.truthy token) eqn:Ht.
  2:{ unfold Labeler.main, Labeler.api. rewrite Ht. cbn.
      exists []. rewrite app_nil_r.
      split; [reflexivity | split; [constructor | intros id ls []]]. }
  destruct (labeler_main_trace token Date_parse now w Ht)
    as [w0 [setup [added [Hrun [Hcalls [Hsetup _]]]]]].
  destruct Hrun as [Hrun | [created [updated [Hrun [Hc Hu]]]]]; rewrite Hrun;
    cbn [snd].
  - exists setup. split; [exact Hcalls |].
    rewrite (updatedIds_no_update _ Hsetup). split; [constructor |].
    intros id ls Hin. now apply (not_update_not_in _ _ _ Hsetup) in Hin.
  - rewrite (update_loop_calls Date_parse now created updated _ Hc Hu), Hcalls,
      <- app_assoc.
    eexists. split; [reflexivity |]. split.
    + unfold updatedIds. rewrite flat_map_app.
      fold (updatedIds setup).
      fold (updatedIds (updatesFor Date_parse now created updated
                          (inspectedTasks Date_parse now w))).
      rewrite (updatedIds_no_update _ Hsetup), updatedIds_updatesFor.
      cbn [app]. apply selected_ids_distinct, inspectedTasks_ids.
    + intros id ls Hin. apply in_app_or in Hin. destruct Hin as [Hin | Hin];
        [now apply (not_update_not_in _ _ _ Hsetup) in Hin |].
      apply in_updatesFor in Hin. destruct Hin as [task [Htask E]].
      injection E as -> ->. exists task.
      split; [now apply inspectedTasks_incl in Htask |].
      split; [reflexivity | now apply inspectedTasks_inspected in Htask].
Qed.

(** The update loop of the add-and-remove job on the store, when nothing
    fails: each queued task gets the sorted list built for it, the others
    stay. *)
Lemma update_loop_store created updated queue :
  NoDup (map (fun info => Task.id (Labeler.task info)) queue) ->
  (forall info, In info queue ->
     JS.stringify_neq (JS.sort (Labeler.newLabels created updated info))
                      (JS.sort (Task.labels (Labeler.task info))) = true) ->
  forall n w,
    faults w = [] ->
    (forall info, In info queue ->
       Api.find_task (Task.id (Labeler.task info)) (store_tasks w)
       = Some (Labeler.task info)) ->
    forall id,
      Api.find_task id
        (store_tasks (snd (for_of (Labeler.updateOne created updated) queue n w)))
      = match find (fun info => (Task.id (Labeler.task info) =? id)%string) queue with
        | Some info =>
            Some (Api.set_labels
                    (JS.sort (Labeler.newLabels created updated info))
                    (Labeler.task info))
        | None => Api.find_task id (store_tasks w)
        end.
Proof.
  induction queue as [| info queue IH]; intros Hnd Hdiffer n w Hf Hfound id.
  - reflexivity.
  - inversion Hnd as [| ? ? Hnot Hnd']; subst.
    cbn [for_of find]. unfold bind.
    assert (Erun :
              Labeler.updateOne created updated info n w
              = (Ok (S n),
                 Api.with_tasks
                   (Api.replace_labels (Task.id (Labeler.task info))
                      (JS.sort (Labeler.newLabels created updated info))
                      (store_tasks w))
                   (Api.sent
                      (UpdateTask (Task.id (Labeler.task info))
                         (JS.sort (Labeler.newLabels created updated info)))
                      w))).
    { unfold Labeler.updateOne, try_catch.
      rewrite (Hdiffer info (or_introl eq_refl)).
      unfold bind, Api.updateTask, Api.request, ret. rewrite Hf. cbn [hd].
      cbn [store_tasks Api.sent].
      now rewrite (Hfound info (or_introl eq_refl)). }
    rewrite Erun.
    rewrite IH; auto.
    + cbn [store_tasks Api.with_tasks].
      destruct (String.eqb_spec (Task.id (Labeler.task info)) id) as [<- | Hne].
      * destruct (find (fun i => (Task.id (Labeler.task i)
                                  =? Task.id (Labeler.task info))%string) queue)
          as [other |] eqn:Eo.
        -- exfalso. apply find_some in Eo. destruct Eo as [Ho E].
           apply String.eqb_eq in E. apply Hnot. rewrite <- E.
           now apply (in_map (fun i => Task.id (Labeler.task i))).
        -- apply find_task_replace. apply Hfound. now left.
      * destruct (find (fun i => (Task.id (Labeler.task i) =? id)%string) queue);
          [reflexivity |].
        apply find_task_replace_other. congruence.
    + intros i Hi. apply Hdiffer. now right.
    + cbn. now rewrite Hf.
    + intros i Hi. cbn [store_tasks Api.with_tasks].
      rewrite find_task_replace_other; [apply Hfound; now right |].
      intros E. apply Hnot. rewrite <- E.
      now apply (in_map (fun i => Task.id (Labeler.task i))).
Qed.

(** The list left for a task depends on the two labels by their names only. *)
Lemma labelsLeft_names Date_parse now created updated created' updated' task :
  Label.name created = Label.name created' ->
  Label.name updated = Label.name updated' ->
  labelsLeft Date_parse now created updated task
  = labelsLeft Date_parse now created' updated' task.
Proof.
  intros Hc Hu.
  unfold labelsLeft, Labeler.inspect, Labeler.newLabels, Labeler.needsChange.
  cbn [Labeler.task Labeler.shouldHaveCreatedLabel Labeler.shouldHaveUpdatedLabel
       Labeler.currentlyHasCreatedLabel Labeler.currentlyHasUpdatedLabel].
  now rewrite Hc, Hu.
Qed.

Lemma queue_ids Date_parse created updated threshold tasks :
  map (fun info => Task.id (Labeler.task info))
      (filter Labeler.needsChange
         (map (Labeler.inspect Date_parse created updated threshold) tasks))
  = map Task.id
      (filter (fun task =>
                 Labeler.needsChange
                   (Labeler.inspect Date_parse created updated threshold task))
              tasks).
Proof.
  induction tasks as [| task tasks IH]; [reflexivity |].
  cbn [map filter]. destruct (Labeler.needsChange _); cbn [map]; now rewrite IH.
Qed.

Lemma in_queue Date_parse created updated threshold tasks info :
  In info (filter Labeler.needsChange
             (map (Labeler.inspect Date_parse created updated threshold) tasks)) ->
  exists task,
    In task tasks
    /\ info = Labeler.inspect Date_parse created updated threshold task
    /\ Labeler.needsChange
         (Labeler.inspect Date_parse created updated threshold task) = true.
Proof.
  intros H. apply filter_In in H. destruct H as [H En].
  apply in_map_iff in H. destruct H as [task [<- Hin]]. now exists task.
Qed.

(** The store after a run of the add-and-remove job that met no failure. *)
Lemma labeler_final_store (token : option string)
    (Date_parse : string -> JS.Date) (now : Z) (w : World)
    (created updated : Label.t) (task : Task.t) :
  JS.truthy token = true ->
  faults w = [] ->
  NoDup (map Task.id (store_tasks w)) ->
  Label.name created = RECENTLY_CREATED_LABEL ->
  Label.name updated = RECENTLY_UPDATED_LABEL ->
  In task (store_tasks w) ->
  Api.find_task (Task.id task)
    (store_tasks (snd (Labeler.main token Date_parse now w)))
  = Some (if inspected Date_parse now w task
          then Api.set_labels (labelsLeft Date_parse now created updated task) task
          else task).
Proof.
  intros Ht Hf Hnd Hc Hu Hin.
  destruct (labeler_main_trace token Date_parse now w Ht)
    as [w0 [setup [added [Hrun [_ [_ [Htasks [_ [Hf0 [_ [_ [_ [Hfst _]]]]]]]]]]]]].
  rewrite Hf, firstn_nil in Hfst. cbn in Hfst.
  destruct Hrun as [Hrun | [created0 [updated0 [Hrun [Hc0 Hu0]]]]];
    rewrite Hrun in *; [discriminate Hfst |].
  cbn [snd]. clear Hrun Hfst.
  rewrite (labelsLeft_names Date_parse now created updated created0 updated0)
    by congruence.
  set (tasks := inspectedTasks Date_parse now w).
  assert (Hincl : incl tasks (store_tasks w)) by apply inspectedTasks_incl.
  rewrite update_loop_store.
  - destruct (find _ _) as [info |] eqn:Efound.
    + apply find_some in Efound. destruct Efound as [Hq E].
      apply String.eqb_eq in E. apply in_queue in Hq.
      destruct Hq as [t [Htin [-> En]]]. cbn [Labeler.task Labeler.inspect] in *.
      assert (t = task) as ->
        by (apply (ids_determine_task (store_tasks w)); auto).
      rewrite (inspectedTasks_inspected _ _ _ _ Htin).
      unfold labelsLeft. now rewrite En.
    + rewrite Htasks, (find_task_In _ _ Hnd Hin). f_equal.
      destruct (inspected Date_parse now w task) eqn:Ei; [| reflexivity].
      apply (inspectedTasks_complete _ _ _ _ Hnd Hin) in Ei.
      unfold labelsLeft.
      destruct (Labeler.needsChange _) eqn:En; [| symmetry; apply set_labels_same].
      exfalso.
      pose proof (find_none _ _ Efound
                    (Labeler.inspect Date_parse created0 updated0
                       (recentThreshold now) task)) as Hnone.
      cbn [Labeler.task Labeler.inspect] in Hnone.
      rewrite String.eqb_refl in Hnone. apply Bool.diff_true_false, Hnone.
      apply filter_In. split; [| exact En]. now apply in_map.
  - rewrite queue_ids. apply selected_ids_distinct, inspectedTasks_ids.
  - intros info Hq. apply in_queue in Hq. destruct Hq as [t [_ [-> En]]].
    now apply needsChange_lists_differ.
  - now apply Hf0.
  - intros info Hq. apply in_queue in Hq. destruct Hq as [t [Htin [-> _]]].
    cbn [Labeler.task Labeler.inspect]. rewrite Htasks.
    apply (find_task_In _ _ Hnd). now apply Hincl.
Qed.

(** X20. After a run of the add-and-remove job with an initialised
    client, no remote failure and a store whose task ids are pairwise
    different, every task of the store that the job inspects holds the list
    left for it (the sorted edited list when a change was needed, its own
    list otherwise) and every other task is as before.  An inspected task
    that held each recency label at most once ends up holding "recently
    created" iff it is recently created and "recently updated" iff it is
    recently updated at the clock of the run. *)
Theorem labeler_leaves_each_task_decided (token : option string)
    (Date_parse : string -> JS.Date) (now : Z) (w : World)
    (created updated : Label.t) (task : Task.t) :
  JS.truthy token = true ->
  faults w = [] ->
  NoDup (map Task.id (store_tasks w)) ->
  Label.name created = RECENTLY_CREATED_LABEL ->
  Label.name updated = RECENTLY_UPDATED_LABEL ->
  In task (store_tasks w) ->
  Api.find_task (Task.id task)
    (store_tasks (snd (Labeler.main token Date_parse now w)))
  = Some (if inspected Date_parse now w task
          then Api.set_labels (labelsLeft Date_parse now created updated task) task
          else task)
  /\ (inspected Date_parse now w task = true ->
      (occurrences RECENTLY_CREATED_LABEL (Task.labels task) <= 1)%nat ->
      (occurrences RECENTLY_UPDATED_LABEL (Task.labels task) <= 1)%nat ->
      forall task',
        Api.find_task (Task.id task)
          (store_tasks (snd (Labeler.main token Date_parse now w)))
        = Some task' ->
        decided Date_parse now task' (Task.labels task')).
Proof.
  intros Ht Hf Hnd Hc Hu Hin.
  pose proof (labeler_final_store token Date_parse now w created updated task
                Ht Hf Hnd Hc Hu Hin) as E.
  split; [exact E |].
  intros Hi Oc Ou task' E'. rewrite E, Hi in E'. injection E' as <-.
  exact (labelsLeft_decided Date_parse now created updated task Hc Hu Oc Ou).
Qed.

(** A task created 30 h ago loses "recently created"; what is left is
    sorted. *)
Lemma labeler_leaves_each_task_decided_witness :
  Api.find_task "t1"
    (store_tasks
       (snd (Labeler.main Sample.token Sample.Date_parse Sample.now
               (Sample.world Sample.bothLabels
                  [Sample.mkTask "t1" (Some "2025-03-01T00:00:00Z") None
                                 ["work"; RECENTLY_CREATED_LABEL; "home"];
                   Sample.mkTask "t2" (Some "2025-03-02T05:00:00Z") None
                                 ["home"]] []))))
  = Some (Sample.mkTask "t1" (Some "2025-03-01T00:00:00Z") None ["home"; "work"]).
Proof.
  refine (eq_trans
            (proj1
               (labeler_leaves_each_task_decided Sample.token Sample.Date_parse
                  Sample.now
                  (Sample.world Sample.bothLabels
                     [Sample.mkTask "t1" (Some "2025-03-01T00:00:00Z") None
                                    ["work"; RECENTLY_CREATED_LABEL; "home"];
                      Sample.mkTask "t2" (Some "2025-03-02T05:00:00Z") None
                                    ["home"]] [])
                  (Label.mk "1" RECENTLY_CREATED_LABEL)
                  (Label.mk "2" RECENTLY_UPDATED_LABEL)
                  (Sample.mkTask "t1" (Some "2025-03-01T00:00:00Z") None
                                 ["work"; RECENTLY_CREATED_LABEL; "home"])
                  eq_refl eq_refl _ eq_refl eq_refl _)) _).
  - repeat constructor; cbn; intuition discriminate.
  - now left.
  - reflexivity.
Defined.

Lemma replace_labels_ids (id : string) (ls : list string) (tasks : list Task.t) :
  map Task.id (Api.replace_labels id ls tasks) = map Task.id tasks.
Proof.
  induction tasks as [| task tasks IH]; [reflexivity |].
  cbn [Api.replace_labels]. destruct (Task.id task =? id)%string; cbn [map].
  - reflexivity.
  - now rewrite IH.
Qed.

(** The update loop leaves the labels of the store, its evaluation of
    queries and the ids of its tasks alone, whatever fails. *)
Lemma updateOne_frame created updated info n w :
  store_labels (snd (Labeler.updateOne created updated info n w)) = store_labels w
  /\ store_filter (snd (Labeler.updateOne created updated info n w))
     = store_filter w
  /\ map Task.id (store_tasks (snd (Labeler.updateOne created updated info n w)))
     = map Task.id (store_tasks w).
Proof.
  unfold Labeler.updateOne, try_catch.
  destruct (JS.stringify_neq _ _); [| now cbn].
  unfold bind, Api.updateTask, Api.request, ret.
  destruct (hd false (faults w)); [now cbn |].
  destruct (Api.find_task _ (store_tasks (Api.sent _ w))); cbn;
    rewrite ?replace_labels_ids; auto.
Qed.

Lemma update_loop_frame created updated queue :
  forall n w,
    store_labels (snd (for_of (Labeler.updateOne created updated) queue n w))
    = store_labels w
    /\ store_filter (snd (for_of (Labeler.updateOne created updated) queue n w))
       = store_filter w
    /\ map Task.id
         (store_tasks (snd (for_of (Labeler.updateOne created updated) queue n w)))
       = map Task.id (store_tasks w).
Proof.
  induction queue as [| info queue IH]; intros n w; [now cbn |].
  cbn [for_of]. unfold bind.
  destruct (updateOne_frame created updated info n w) as [Hl [Hq Hi]].
  destruct (updateOne_returns created updated info n w) as [n1 [w1 E1]].
  rewrite E1 in *. cbn [snd] in *.
  destruct (IH n1 w1) as [IHl [IHq IHi]].
  rewrite IHl, IHq, IHi. auto.
Qed.

(** X21. Whatever the store and the failures, the add-and-remove job
    only appends to the labels of the store: what it appends are recency
    labels with pairwise different names, each under a name that no label of
    the store carried before the run. *)
Theorem labeler_creates_only_missing_labels (token : option string)
    (Date_parse : string -> JS.Date) (now : Z) (w : World) :
  exists added,
    store_labels (snd (Labeler.main token Date_parse now w))
    = store_labels w ++ added
    /\ NoDup (map Label.name added)
    /\ Forall (fun label =>
                 isRecencyName (Label.name label) = true
                 /\ Webhook.find_label (Label.name label) (store_labels w) = None)
              added.
Proof.
  destruct (JS.truthy token) eqn:Ht.
  2:{ unfold Labeler.main, Labeler.api. rewrite Ht. cbn.
      exists []. rewrite app_nil_r. repeat constructor. }
  destruct (labeler_main_trace token Date_parse now w Ht)
    as [w0 [setup [added [Hrun [_ [_ [_ [_ [_ [Hlabels [Hnd [Hadded _]]]]]]]]]]]].
  exists added. split; [| now split].
  destruct Hrun as [Hrun | [created [updated [Hrun _]]]]; rewrite Hrun;
    cbn [snd]; [exact Hlabels |].
  now rewrite (proj1 (update_loop_frame created updated _ 0%nat w0)).
Qed.

Lemma filter_none {A} (f : A -> bool) (l : list A) :
  (forall x, In x l -> f x = false) -> filter f l = [].
Proof.
  induction l as [| x l IH]; intros H; [reflexivity |].
  cbn. rewrite (H x (or_introl eq_refl)). apply IH. intros y Hy. apply H. now right.
Qed.

(** A task whose list agrees with the decision needs no change. *)
Lemma decided_needs_no_change Date_parse now created updated task labels :
  Label.name created = RECENTLY_CREATED_LABEL ->
  Label.name updated = RECENTLY_UPDATED_LABEL ->
  decided Date_parse now task labels ->
  Labeler.needsChange
    (Labeler.inspect Date_parse created updated (recentThreshold now)
       (Api.set_labels labels task)) = false.
Proof.
  intros Hc Hu [Dc Du]. unfold Labeler.needsChange, Labeler.inspect.
  cbn [Labeler.shouldHaveCreatedLabel Labeler.shouldHaveUpdatedLabel
       Labeler.currentlyHasCreatedLabel Labeler.currentlyHasUpdatedLabel
       Task.labels Api.set_labels].
  rewrite Hc, Hu.
  change (Labeler.isRecentlyCreated Date_parse (recentThreshold now)
            (Api.set_labels labels task))
    with (Labeler.isRecentlyCreated Date_parse (recentThreshold now) task).
  change (Labeler.isRecentlyUpdated Date_parse (recentThreshold now)
            (Api.set_labels labels task))
    with (Labeler.isRecentlyUpdated Date_parse (recentThreshold now) task).
  destruct (JS.includes labels RECENTLY_CREATED_LABEL) eqn:Ic;
    [apply includes_In in Ic; apply Dc in Ic
    | apply includes_false in Ic;
      destruct (Labeler.isRecentlyCreated Date_parse (recentThreshold now) task)
        eqn:Rc; [elim Ic; now apply Dc |]];
    (destruct (JS.includes labels RECENTLY_UPDATED_LABEL) eqn:Iu;
     [apply includes_In in Iu; apply Du in Iu
     | apply includes_false in Iu;
       destruct (Labeler.isRecentlyUpdated Date_parse (recentThreshold now) task)
         eqn:Ru; [elim Iu; now apply Du |]]);
    rewrite ?Ic, ?Iu; reflexivity.
Qed.

(** X22. Running the add-and-remove job a second time at the same clock
    changes nothing: after a first run with an initialised client, no remote
    failure, pairwise different task ids and no task holding a recency label
    twice, a second run sends no update and leaves every task as the first
    run left it, whatever the failure schedule [fs] of the second run. *)
Theorem labeler_second_run_sends_no_update (token : option string)
    (Date_parse : string -> JS.Date) (now : Z) (w : World) (fs : list bool) :
  JS.truthy token = true ->
  faults w = [] ->
  NoDup (map Task.id (store_tasks w)) ->
  (forall task, In task (store_tasks w) ->
     (occurrences RECENTLY_CREATED_LABEL (Task.labels task) <= 1)%nat
     /\ (occurrences RECENTLY_UPDATED_LABEL (Task.labels task) <= 1)%nat) ->
  exists cs,
    calls (snd (Labeler.main token Date_parse now
                  (withFaults fs (snd (Labeler.main token Date_parse now w)))))
    = calls (snd (Labeler.main token Date_parse now w)) ++ cs
    /\ existsb is_update cs = false
    /\ store_tasks (snd (Labeler.main token Date_parse now
                           (withFaults fs
                              (snd (Labeler.main token Date_parse now w)))))
       = store_tasks (snd (Labeler.main token Date_parse now w)).
Proof.
  intros Ht Hf Hnd Honce.
  pose proof (fun created updated task =>
                labeler_final_store token Date_parse now w created updated task
                  Ht Hf Hnd) as Hfinal.
  destruct (labeler_main_trace token Date_parse now w Ht)
    as [w0 [setup [added [Hrun [_ [_ [Htasks [Hfilter [_ [_ [_ [_ [Hfst _]]]]]]]]]]]]].
  rewrite Hf, firstn_nil in Hfst. cbn in Hfst.
  destruct Hrun as [Hrun | [created [updated [Hrun [Hc Hu]]]]];
    [rewrite Hrun in Hfst; discriminate Hfst |].
  clear Hfst.
  assert (Hw1 : store_filter (snd (Labeler.main token Date_parse now w))
                = store_filter w
                /\ map Task.id (store_tasks (snd (Labeler.main token Date_parse now w)))
                   = map Task.id (store_tasks w)).
  { rewrite Hrun. cbn [snd].
    destruct (update_loop_frame created updated
                (filter Labeler.needsChange
                   (map (Labeler.inspect Date_parse created updated
                           (recentThreshold now))
                        (inspectedTasks Date_parse now w)))
                0%nat w0) as [_ [Hq Hi]].
    rewrite Hq, Hi, Hfilter, Htasks. now split. }
  destruct Hw1 as [Hfilter1 Hids1]. clear Hrun Htasks Hfilter.
  set (w1 := snd (Labeler.main token Date_parse now w)) in *.
  assert (Hnd1 : NoDup (map Task.id (store_tasks w1))) by now rewrite Hids1.
  assert (Hquiet : forall created2 updated2,
            Label.name created2 = RECENTLY_CREATED_LABEL ->
            Label.name updated2 = RECENTLY_UPDATED_LABEL ->
            filter Labeler.needsChange
              (map (Labeler.inspect Date_parse created2 updated2
                      (recentThreshold now))
                   (inspectedTasks Date_parse now (withFaults fs w1))) = []).
  { intros created2 updated2 Hc2 Hu2. apply filter_none.
    intros info Hinfo. apply in_map_iff in Hinfo.
    destruct Hinfo as [task' [<- Hin']].
    pose proof (inspectedTasks_inspected _ _ _ _ Hin') as Hi'.
    apply inspectedTasks_incl in Hin'. cbn [store_tasks withFaults] in Hin'.
    assert (Hid : In (Task.id task') (map Task.id (store_tasks w)))
      by (rewrite <- Hids1; now apply in_map).
    apply in_map_iff in Hid. destruct Hid as [task [Eid Hin]].
    pose proof (Hfinal created2 updated2 task Hc2 Hu2 Hin) as E.
    rewrite Eid, (find_task_In _ _ Hnd1 Hin') in E. injection E as ->.
    destruct (inspected Date_parse now w task) eqn:Hi.
    - apply decided_needs_no_change; auto.
      destruct (Honce task Hin) as [Oc Ou].
      now apply labelsLeft_decided.
    - unfold inspected in Hi, Hi'. cbn [store_filter withFaults] in Hi'.
      rewrite Hfilter1 in Hi'. congruence. }
  destruct (labeler_main_trace token Date_parse now (withFaults fs w1) Ht)
    as [w2 [setup2 [added2 [Hrun2 [Hcalls2 [Hsetup2 [Htasks2 _]]]]]]].
  cbn [calls store_tasks withFaults] in Hcalls2, Htasks2.
  exists setup2.
  destruct Hrun2 as [Hrun2 | [created2 [updated2 [Hrun2 [Hc2 Hu2]]]]];
    rewrite Hrun2; cbn [snd]; [auto |].
  rewrite (Hquiet created2 updated2 Hc2 Hu2). cbn. auto.
Qed.

(** The labels are missing at first: the first run creates them, removes
    the stale label of "t1" and labels "t2".  In the second run the third
    request fails: the run stops there, and no task has changed. *)
Lemma labeler_second_run_sends_no_update_witness :
  exists cs,
    calls (snd (Labeler.main Sample.token Sample.Date_parse Sample.now
                  (withFaults [false; false; true]
                     (snd (Labeler.main Sample.token Sample.Date_parse Sample.now
                             (Sample.world []
                                [Sample.mkTask "t1" (Some "2025-03-01T00:00:00Z")
                                               None
                                               [RECENTLY_CREATED_LABEL; "work"];
                                 Sample.mkTask "t2" (Some "2025-03-02T05:00:00Z")
                                               None ["home"]] []))))))
    = calls (snd (Labeler.main Sample.token Sample.Date_parse Sample.now
                    (Sample.world []
                       [Sample.mkTask "t1" (Some "2025-03-01T00:00:00Z") None
                                      [RECENTLY_CREATED_LABEL; "work"];
                        Sample.mkTask "t2" (Some "2025-03-02T05:00:00Z") None
                                      ["home"]] [])))
      ++ cs
    /\ existsb is_update cs = false
    /\ store_tasks
         (snd (Labeler.main Sample.token Sample.Date_parse Sample.now
                 (withFaults [false; false; true]
                    (snd (Labeler.main Sample.token Sample.Date_parse Sample.now
                            (Sample.world []
                               [Sample.mkTask "t1" (Some "2025-03-01T00:00:00Z")
                                              None
                                              [RECENTLY_CREATED_LABEL; "work"];
                                Sample.mkTask "t2" (Some "2025-03-02T05:00:00Z")
                                              None ["home"]] []))))))
       = store_tasks
           (snd (Labeler.main Sample.token Sample.Date_parse Sample.now
                   (Sample.world []
                      [Sample.mkTask "t1" (Some "2025-03-01T00:00:00Z") None
                                     [RECENTLY_CREATED_LABEL; "work"];
                       Sample.mkTask "t2" (Some "2025-03-02T05:00:00Z") None
                                     ["home"]] []))).
Proof.
  apply (labeler_second_run_sends_no_update Sample.token Sample.Date_parse
           Sample.now
           (Sample.world []
              [Sample.mkTask "t1" (Some "2025-03-01T00:00:00Z") None
                             [RECENTLY_CREATED_LABEL; "work"];
               Sample.mkTask "t2" (Some "2025-03-02T05:00:00Z") None
                             ["home"]] [])
           [false; false; true]
           eq_refl eq_refl).
  - repeat constructor; cbn; intuition discriminate.
  - intros task [<- | [<- | []]]; vm_compute; split; repeat constructor.
Defined.

(** A second run in which nothing fails, evaluated: its four requests are
    the setup, and no update follows. *)
Example labeler_second_run_on_two_tasks :
  calls (snd (Labeler.main Sample.token Sample.Date_parse Sample.now
                (snd (Labeler.main Sample.token Sample.Date_parse Sample.now
                        (Sample.world Sample.bothLabels
                           [Sample.mkTask "t1" (Some "2025-03-01T00:00:00Z") None
                                          [RECENTLY_CREATED_LABEL; "work"];
                            Sample.mkTask "t2" (Some "2025-03-02T05:00:00Z") None
                                          ["home"]] [])))))
  = [GetLabels; GetTasks RECENTLY_CREATED_LABEL; GetTasks RECENTLY_UPDATED_LABEL;
     GetTasksByFilter "created after: -7 days";
     UpdateTask "t1" ["work"];
     UpdateTask "t2" ["home"; RECENTLY_CREATED_LABEL];
     GetLabels; GetTasks RECENTLY_CREATED_LABEL; GetTasks RECENTLY_UPDATED_LABEL;
     GetTasksByFilter "created after: -7 days"].
Proof. reflexivity. Qed.

(** A task that holds "recently created" twice loses one occurrence per
    run: the second run still sends an update. *)
Example labeler_second_run_updates_on_duplicates :
  calls (snd (Labeler.main Sample.token Sample.Date_parse Sample.now
                (snd (Labeler.main Sample.token Sample.Date_parse Sample.now
                        (Sample.world Sample.bothLabels
                           [Sample.mkTask "t1" (Some "2025-03-01T00:00:00Z") None
                                          [RECENTLY_CREATED_LABEL;
                                           RECENTLY_CREATED_LABEL]] [])))))
  = [GetLabels; GetTasks RECENTLY_CREATED_LABEL; GetTasks RECENTLY_UPDATED_LABEL;
     GetTasksByFilter "created after: -7 days";
     UpdateTask "t1" [RECENTLY_CREATED_LABEL];
     GetLabels; GetTasks RECENTLY_CREATED_LABEL; GetTasks RECENTLY_UPDATED_LABEL;
     GetTasksByFilter "created after: -7 days";
     UpdateTask "t1" []].
Proof. reflexivity. Qed.

(* ================================================================= *)
(** ** Labels against the recency decision, for a run of the job *)

Lemma labelerSetup_no_update (labels : list Label.t) :
  existsb is_update (labelerSetup labels) = false.
Proof.
  unfold labelerSetup, resolution_calls.
  now destruct (Webhook.find_label RECENTLY_CREATED_LABEL labels),
               (Webhook.find_label RECENTLY_UPDATED_LABEL labels).
Qed.

(** C1, amended. When the add-and-remove job returns normally, the requests
    it sent are those of its setup, none of them an update, followed by
    exactly one update per inspected task that needed a change, carrying the
    list left for it.  The inspected tasks are the values of the map filled
    from the three queries: tasks of the store, each holding a recency label
    or returned by the seven-day query and kept by one of the two filters,
    and all of those when the ids of the store are pairwise different.  For
    every inspected task that held each recency name at most once, the list
    left for it (sent, or kept when no change was needed) holds "recently
    created" iff the task is recently created and "recently updated" iff it
    is recently updated at the clock of the run; and when no request failed,
    that list is the one the task holds in the store after the run. *)
Theorem labeler_run_matches_decision
    (token : option string) (Date_parse : string -> JS.Date) (now : Z) (w : World) :
  fst (Labeler.main token Date_parse now w) = Ok Returned ->
  exists (created updated : Label.t),
    Label.name created = RECENTLY_CREATED_LABEL
    /\ Label.name updated = RECENTLY_UPDATED_LABEL
    /\ calls (snd (Labeler.main token Date_parse now w))
       = calls w ++ labelerSetup (store_labels w)
         ++ updatesFor Date_parse now created updated
              (inspectedTasks Date_parse now w)
    /\ existsb is_update (labelerSetup (store_labels w)) = false
    /\ incl (inspectedTasks Date_parse now w) (store_tasks w)
    /\ (forall task,
          In task (inspectedTasks Date_parse now w) ->
          inspected Date_parse now w task = true)
    /\ (NoDup (map Task.id (store_tasks w)) ->
        forall task,
          In task (store_tasks w) ->
          inspected Date_parse now w task = true ->
          In task (inspectedTasks Date_parse now w))
    /\ (forall task,
          In task (inspectedTasks Date_parse now w) ->
          (occurrences RECENTLY_CREATED_LABEL (Task.labels task) <= 1)%nat ->
          (occurrences RECENTLY_UPDATED_LABEL (Task.labels task) <= 1)%nat ->
          decided Date_parse now task
                  (labelsLeft Date_parse now created updated task))
    /\ (faults w = [] ->
        NoDup (map Task.id (store_tasks w)) ->
        forall task,
          In task (inspectedTasks Date_parse now w) ->
          Api.find_task (Task.id task)
            (store_tasks (snd (Labeler.main token Date_parse now w)))
          = Some (Api.set_labels
                    (labelsLeft Date_parse now created updated task) task)).
Proof.
  intros Hreturned.
  destruct (JS.truthy token) eqn:Ht.
  2:{ unfold Labeler.main, Labeler.api in Hreturned. rewrite Ht in Hreturned.
      discriminate Hreturned. }
  destruct (labeler_main_trace token Date_parse now w Ht)
    as [w0 [setup [added [Hrun [Hcalls [_ [_ [_ [_ [_ [_ [_ [_ Hsetup]]]]]]]]]]]]].
  specialize (Hsetup Hreturned). subst setup.
  destruct Hrun as [Hrun | [created [updated [Hrun [Hc Hu]]]]];
    [rewrite Hrun in Hreturned; discriminate Hreturned |].
  exists created, updated.
  split; [exact Hc |]. split; [exact Hu |].
  split.
  { rewrite Hrun. cbn [snd].
    rewrite (update_loop_calls Date_parse now created updated _ Hc Hu), Hcalls.
    now rewrite <- app_assoc. }
  split; [apply labelerSetup_no_update |].
  split; [apply inspectedTasks_incl |].
  split; [intros task; apply inspectedTasks_inspected |].
  split; [intros Hnd task; now apply inspectedTasks_complete |].
  split; [intros task _ Oc Ou; now apply labelsLeft_decided |].
  intros Hf Hnd task Hin.
  rewrite (labeler_final_store token Date_parse now w created updated task
             Ht Hf Hnd Hc Hu (inspectedTasks_incl _ _ _ _ Hin)).
  now rewrite (inspectedTasks_inspected _ _ _ _ Hin).
Qed.

(** A run on two tasks: one created 30 h ago that still holds
    "recently created", one created an hour ago without the label. *)
Lemma labeler_run_matches_decision_witness :
  exists (created updated : Label.t),
    Label.name created = RECENTLY_CREATED_LABEL
    /\ Label.name updated = RECENTLY_UPDATED_LABEL
    /\ calls (snd (Labeler.main Sample.token Sample.Date_parse Sample.now
     (Sample.world Sample.bothLabels
      [Sample.mkTask "t1" (Some "2025-03-01T00:00:00Z") None
                     [RECENTLY_CREATED_LABEL; "work"];
       Sample.mkTask "t2" (Some "2025-03-02T05:00:00Z") None
                     ["home"]] [])))
       = calls (Sample.world Sample.bothLabels
      [Sample.mkTask "t1" (Some "2025-03-01T00:00:00Z") None
                     [RECENTLY_CREATED_LABEL; "work"];
       Sample.mkTask "t2" (Some "2025-03-02T05:00:00Z") None
                     ["home"]] [])
         ++ labelerSetup (store_labels (Sample.world Sample.bothLabels
      [Sample.mkTask "t1" (Some "2025-03-01T00:00:00Z") None
                     [RECENTLY_CREATED_LABEL; "work"];
       Sample.mkTask "t2" (Some "2025-03-02T05:00:00Z") None
                     ["home"]] []))
         ++ updatesFor Sample.Date_parse Sample.now created updated
              (inspectedTasks Sample.Date_parse Sample.now
     (Sample.world Sample.bothLabels
      [Sample.mkTask "t1" (Some "2025-03-01T00:00:00Z") None
                     [RECENTLY_CREATED_LABEL; "work"];
       Sample.mkTask "t2" (Some "2025-03-02T05:00:00Z") None
                     ["home"]] []))
    /\ existsb is_update (labelerSetup (store_labels (Sample.world Sample.bothLabels
      [Sample.mkTask "t1" (Some "2025-03-01T00:00:00Z") None
                     [RECENTLY_CREATED_LABEL; "work"];
       Sample.mkTask "t2" (Some "2025-03-02T05:00:00Z") None
                     ["home"]] []))) = false
    /\ incl (inspectedTasks Sample.Date_parse Sample.now
     (Sample.world Sample.bothLabels
      [Sample.mkTask "t1" (Some "2025-03-01T00:00:00Z") None
                     [RECENTLY_CREATED_LABEL; "work"];
       Sample.mkTask "t2" (Some "2025-03-02T05:00:00Z") None
                     ["home"]] []))
            (store_tasks (Sample.world Sample.bothLabels
      [Sample.mkTask "t1" (Some "2025-03-01T00:00:00Z") None
                     [RECENTLY_CREATED_LABEL; "work"];
       Sample.mkTask "t2" (Some "2025-03-02T05:00:00Z") None
                     ["home"]] []))
    /\ (forall task,
          In task (inspectedTasks Sample.Date_parse Sample.now
     (Sample.world Sample.bothLabels
      [Sample.mkTask "t1" (Some "2025-03-01T00:00:00Z") None
                     [RECENTLY_CREATED_LABEL; "work"];
       Sample.mkTask "t2" (Some "2025-03-02T05:00:00Z") None
                     ["home"]] [])) ->
          inspected Sample.Date_parse Sample.now
            (Sample.world Sample.bothLabels
      [Sample.mkTask "t1" (Some "2025-03-01T00:00:00Z") None
                     [RECENTLY_CREATED_LABEL; "work"];
       Sample.mkTask "t2" (Some "2025-03-02T05:00:00Z") None
                     ["home"]] []) task = true)
    /\ (NoDup (map Task.id (store_tasks (Sample.world Sample.bothLabels
      [Sample.mkTask "t1" (Some "2025-03-01T00:00:00Z") None
                     [RECENTLY_CREATED_LABEL; "work"];
       Sample.mkTask "t2" (Some "2025-03-02T05:00:00Z") None
                     ["home"]] []))) ->
        forall task,
          In task (store_tasks (Sample.world Sample.bothLabels
      [Sample.mkTask "t1" (Some "2025-03-01T00:00:00Z") None
                     [RECENTLY_CREATED_LABEL; "work"];
       Sample.mkTask "t2" (Some "2025-03-02T05:00:00Z") None
                     ["home"]] [])) ->
          inspected Sample.Date_parse Sample.now
            (Sample.world Sample.bothLabels
      [Sample.mkTask "t1" (Some "2025-03-01T00:00:00Z") None
                     [RECENTLY_CREATED_LABEL; "work"];
       Sample.mkTask "t2" (Some "2025-03-02T05:00:00Z") None
                     ["home"]] []) task = true ->
          In task (inspectedTasks Sample.Date_parse Sample.now
     (Sample.world Sample.bothLabels
      [Sample.mkTask "t1" (Some "2025-03-01T00:00:00Z") None
                     [RECENTLY_CREATED_LABEL; "work"];
       Sample.mkTask "t2" (Some "2025-03-02T05:00:00Z") None
                     ["home"]] [])))
    /\ (forall task,
          In task (inspectedTasks Sample.Date_parse Sample.now
     (Sample.world Sample.bothLabels
      [Sample.mkTask "t1" (Some "2025-03-01T00:00:00Z") None
                     [RECENTLY_CREATED_LABEL; "work"];
       Sample.mkTask "t2" (Some "2025-03-02T05:00:00Z") None
                     ["home"]] [])) ->
          (occurrences RECENTLY_CREATED_LABEL (Task.labels task) <= 1)%nat ->
          (occurrences RECENTLY_UPDATED_LABEL (Task.labels task) <= 1)%nat ->
          decided Sample.Date_parse Sample.now task
                  (labelsLeft Sample.Date_parse Sample.now created updated task))
    /\ (faults (Sample.world Sample.bothLabels
      [Sample.mkTask "t1" (Some "2025-03-01T00:00:00Z") None
                     [RECENTLY_CREATED_LABEL; "work"];
       Sample.mkTask "t2" (Some "2025-03-02T05:00:00Z") None
                     ["home"]] []) = [] ->
        NoDup (map Task.id (store_tasks (Sample.world Sample.bothLabels
      [Sample.mkTask "t1" (Some "2025-03-01T00:00:00Z") None
                     [RECENTLY_CREATED_LABEL; "work"];
       Sample.mkTask "t2" (Some "2025-03-02T05:00:00Z") None
                     ["home"]] []))) ->
        forall task,
          In task (inspectedTasks Sample.Date_parse Sample.now
     (Sample.world Sample.bothLabels
      [Sample.mkTask "t1" (Some "2025-03-01T00:00:00Z") None
                     [RECENTLY_CREATED_LABEL; "work"];
       Sample.mkTask "t2" (Some "2025-03-02T05:00:00Z") None
                     ["home"]] [])) ->
          Api.find_task (Task.id task)
            (store_tasks (snd (Labeler.main Sample.token Sample.Date_parse Sample.now
     (Sample.world Sample.bothLabels
      [Sample.mkTask "t1" (Some "2025-03-01T00:00:00Z") None
                     [RECENTLY_CREATED_LABEL; "work"];
       Sample.mkTask "t2" (Some "2025-03-02T05:00:00Z") None
                     ["home"]] []))))
          = Some (Api.set_labels
                    (labelsLeft Sample.Date_parse Sample.now created updated task)
                    task)).
Proof.
  exact (labeler_run_matches_decision Sample.token Sample.Date_parse Sample.now
           (Sample.world Sample.bothLabels
      [Sample.mkTask "t1" (Some "2025-03-01T00:00:00Z") None
                     [RECENTLY_CREATED_LABEL; "work"];
       Sample.mkTask "t2" (Some "2025-03-02T05:00:00Z") None
                     ["home"]] [])
           eq_refl).
Defined.

(** The updates of that run, evaluated: the stale label of "t1" goes, the
    missing label of "t2" comes. *)
Example labeler_run_updates_two_tasks :
  calls (snd (Labeler.main Sample.token Sample.Date_parse Sample.now
     (Sample.world Sample.bothLabels
      [Sample.mkTask "t1" (Some "2025-03-01T00:00:00Z") None
                     [RECENTLY_CREATED_LABEL; "work"];
       Sample.mkTask "t2" (Some "2025-03-02T05:00:00Z") None
                     ["home"]] [])))
  = [GetLabels; GetTasks RECENTLY_CREATED_LABEL; GetTasks RECENTLY_UPDATED_LABEL;
     GetTasksByFilter "created after: -7 days";
     UpdateTask "t1" ["work"];
     UpdateTask "t2" ["home"; RECENTLY_CREATED_LABEL]].
Proof. reflexivity. Qed.
